(** * Resumable book-generation pipeline: checkpoint store and controllers

    A shallow embedding of the two generations of the pipeline:
    - [Modular]: [src/core/createbook.mjs] driving the [BookManager] of
      [book_manager.mjs] over [StateManager] and [FileHandler];
    - [Legacy]: the single-file program with its own [BookManager],
      [BatchBookManager], [createBookWithBatch] and [createBookPageByPage].

    Asynchronous functions are run to completion one after the other (the
    program never starts two of them concurrently before the dead code at
    the end of the batch controller), so [await f(...)] is a monadic bind.
    A computation is a function from a world (the manager object, the
    disk, the log of effects performed) to an outcome and a new world; a
    thrown error is an outcome. The outside world (generation service,
    file-system faults, clock) is an oracle [Env] indexed by the number of
    effects performed so far, so that any call may succeed or fail.

    The disk keeps the checkpoint file and the page records as the JSON
    documents they hold, not as text: [JS.json_roundtrip] is what
    [JSON.parse (JSON.stringify v)] makes of a value. Writes of other
    files, directory creation and document rendering are effects that are
    logged and may fail, and whose content is not kept. *)

From Stdlib Require Import Ascii.
From stdpp Require Import base gmap strings list fin_maps pretty.

Open Scope string_scope.
Set Warnings "-register-all".

(* ================================================================== *)
(** ** JavaScript values, objects, [Map] and [Set] *)
(* ================================================================== *)

Module JS.

(** The values that reach the character table: JSON data coming back from
    the generation service, plus the [Set] that [addCharacter] builds.
    Numbers are the integers. *)
Inductive value :=
| VUndefined
| VNull
| VBool (b : bool)
| VNum (n : Z)
| VStr (s : string)
| VArr (xs : list value)
| VObj (props : list (string * value))
| VSet (xs : list value).

(** Own enumerable properties in enumeration order. *)
Fixpoint assoc_get {A} (k : string) (l : list (string * A)) : option A :=
  match l with
  | [] => None
  | (k', v) :: r => if String.eqb k k' then Some v else assoc_get k r
  end.

(** [obj[k] = v] and [map.set(k, v)]: an existing key keeps its place. *)
Fixpoint assoc_set {A} (k : string) (v : A) (l : list (string * A))
  : list (string * A) :=
  match l with
  | [] => [(k, v)]
  | (k', v') :: r =>
      if String.eqb k k' then (k, v) :: r else (k', v') :: assoc_set k v r
  end.

(** [new Map(entries)]. *)
Definition Map_from {A} (entries : list (string * A)) : list (string * A) :=
  fold_left (fun m kv => assoc_set kv.1 kv.2 m) entries [].

(** [set.add(x)] on a [Set] of strings kept in insertion order. *)
Definition set_add (x : string) (s : list string) : list string :=
  if existsb (String.eqb x) s then s else s ++ [x].

(** [new Set(array)]. *)
Definition Set_from (xs : list string) : list string :=
  fold_left (fun s x => set_add x s) xs [].

(** Characters of a string as the indexed properties that object spread
    copies: [{..."ab"}] is [{0: "a", 1: "b"}]. *)
Fixpoint indexed_from (i : nat) (xs : list value) : list (string * value) :=
  match xs with
  | [] => []
  | x :: r => (pretty i, x) :: indexed_from (S i) r
  end.

(** A string is held as its UTF-8 bytes, while JavaScript indexes and
    spreads a string by UTF-16 code units. A character of one, two or
    three bytes is one code unit; a character of four bytes is a pair of
    surrogates. A surrogate on its own, which only a JavaScript string can
    hold, is kept as the three bytes that the scheme of UTF-8 gives to its
    code. *)
Definition is_cont (c : ascii) : bool :=
  (128 <=? N_of_ascii c)%N && (N_of_ascii c <=? 191)%N.

Definition is_lead2 (c : ascii) : bool :=
  (194 <=? N_of_ascii c)%N && (N_of_ascii c <=? 223)%N.

Definition is_lead3 (c : ascii) : bool :=
  (224 <=? N_of_ascii c)%N && (N_of_ascii c <=? 239)%N.

Definition is_lead4 (c : ascii) : bool :=
  (240 <=? N_of_ascii c)%N && (N_of_ascii c <=? 244)%N.

(** The code point that four bytes encode. *)
Definition code_point4 (c1 c2 c3 c4 : ascii) : N :=
  ((N_of_ascii c1 mod 8) * 262144 + (N_of_ascii c2 mod 64) * 4096
   + (N_of_ascii c3 mod 64) * 64 + N_of_ascii c4 mod 64)%N.

(** The three bytes of a code unit from [0x0800] up. *)
Definition unit3 (u : N) : string :=
  String (ascii_of_N (224 + u / 4096))
    (String (ascii_of_N (128 + (u / 64) mod 64))
       (String (ascii_of_N (128 + u mod 64)) EmptyString)).

Definition high_surrogate (cp : N) : string :=
  unit3 (55296 + (cp - 65536) / 1024)%N.

Definition low_surrogate (cp : N) : string :=
  unit3 (56320 + (cp - 65536) mod 1024)%N.

(** The UTF-16 code units of a string, each as a string of its own: what
    [s[0]], [s[1]], ... are. Bytes that are no UTF-8 are taken one by
    one. *)
Fixpoint units_of (s : string) : list string :=
  match s with
  | EmptyString => []
  | String c1 r1 =>
      match r1 with
      | String c2 r2 =>
          if is_lead2 c1 && is_cont c2
          then String c1 (String c2 EmptyString) :: units_of r2
          else
            match r2 with
            | String c3 r3 =>
                if is_lead3 c1 && is_cont c2 && is_cont c3
                then String c1 (String c2 (String c3 EmptyString))
                     :: units_of r3
                else
                  match r3 with
                  | String c4 r4 =>
                      if is_lead4 c1 && is_cont c2 && is_cont c3 && is_cont c4
                      then high_surrogate (code_point4 c1 c2 c3 c4)
                           :: low_surrogate (code_point4 c1 c2 c3 c4)
                           :: units_of r4
                      else String c1 EmptyString :: units_of r1
                  | EmptyString => String c1 EmptyString :: units_of r1
                  end
            | EmptyString => String c1 EmptyString :: units_of r1
            end
      | EmptyString => [String c1 EmptyString]
      end
  end.

Definition chars_of (s : string) : list value := map VStr (units_of s).

(** [{...v}]: the own enumerable properties of [v]. *)
Definition spread (v : value) : list (string * value) :=
  match v with
  | VObj props => props
  | VArr xs => indexed_from 0 xs
  | VStr s => indexed_from 0 (chars_of s)
  | _ => []
  end.

(** [JSON.parse(JSON.stringify(v))] for a value nested in a document:
    a [Set] has no enumerable property and becomes [{}], an [undefined]
    array element becomes [null], an [undefined] property is dropped. *)
Fixpoint json_roundtrip (v : value) : value :=
  match v with
  | VArr xs =>
      VArr (map (fun x => match x with
                          | VUndefined => VNull
                          | _ => json_roundtrip x
                          end) xs)
  | VObj props =>
      VObj ((fix props_roundtrip (ps : list (string * value)) :=
               match ps with
               | [] => []
               | (_, VUndefined) :: r => props_roundtrip r
               | (k, x) :: r => (k, json_roundtrip x) :: props_roundtrip r
               end) props)
  | VSet _ => VObj []
  | _ => v
  end.

(** Values that JSON represents as they are. *)
Fixpoint serializable (v : value) : bool :=
  match v with
  | VUndefined | VSet _ => false
  | VArr xs => forallb serializable xs
  | VObj props =>
      (fix props_ok (ps : list (string * value)) :=
         match ps with
         | [] => true
         | (_, x) :: r => serializable x && props_ok r
         end) props
  | _ => true
  end.

(** Truthiness of an optional string property: absent ([undefined]) and
    the empty string are falsy. *)
Definition truthy (o : option string) : bool :=
  match o with
  | Some s => negb (String.eqb s EmptyString)
  | None => false
  end.

(** [path.dirname]. *)
Fixpoint dirname_aux (s : string) : option string :=
  match s with
  | EmptyString => None
  | String c r =>
      match dirname_aux r with
      | Some d => Some (String c d)
      | None => if Ascii.eqb c "/"%char then Some EmptyString else None
      end
  end.

Definition dirname (s : string) : string :=
  match dirname_aux s with
  | Some EmptyString => "/"
  | Some d => d
  | None => "."
  end.

Definition newline : string := String (ascii_of_nat 10) EmptyString.

(** [array.join(sep)]. *)
Fixpoint join (sep : string) (xs : list string) : string :=
  match xs with
  | [] => EmptyString
  | [x] => x
  | x :: r => x +:+ sep +:+ join sep r
  end.

(** The double quote character. *)
Definition dq : string := String (ascii_of_nat 34) EmptyString.

Definition hex_digit (n : nat) : string :=
  match String.get n "0123456789abcdef" with
  | Some c => String c EmptyString
  | None => EmptyString
  end.

(** How [JSON.stringify] writes one character of a string. *)
Definition escape_char (c : ascii) : string :=
  let n := nat_of_ascii c in
  if Nat.eqb n 34 then "\" +:+ dq
  else if Nat.eqb n 92 then "\\"
  else if Nat.eqb n 8 then "\b"
  else if Nat.eqb n 9 then "\t"
  else if Nat.eqb n 10 then "\n"
  else if Nat.eqb n 12 then "\f"
  else if Nat.eqb n 13 then "\r"
  else if Nat.ltb n 32 then "\u00" +:+ hex_digit (n / 16) +:+ hex_digit (n mod 16)
  else String c EmptyString.

(** A surrogate on its own: the bytes [ED A0..BF 80..BF]. *)
Definition is_surrogate (c1 c2 c3 : ascii) : bool :=
  (N_of_ascii c1 =? 237)%N && (160 <=? N_of_ascii c2)%N
  && (N_of_ascii c2 <=? 191)%N && is_cont c3.

(** [JSON.stringify] writes a surrogate on its own as [\udXXX]. *)
Definition escape_surrogate (c2 c3 : ascii) : string :=
  let u := ((N_of_ascii c2 mod 64) * 64 + N_of_ascii c3 mod 64)%N in
  "\ud" +:+ hex_digit (N.to_nat (u / 256))
  +:+ hex_digit (N.to_nat ((u / 16) mod 16))
  +:+ hex_digit (N.to_nat (u mod 16)).

Fixpoint escape (s : string) : string :=
  match s with
  | EmptyString => EmptyString
  | String c r =>
      match r with
      | String c2 (String c3 r3) =>
          if is_surrogate c c2 c3 then escape_surrogate c2 c3 +:+ escape r3
          else escape_char c +:+ escape r
      | _ => escape_char c +:+ escape r
      end
  end.

Definition quote (s : string) : string := dq +:+ escape s +:+ dq.

(** [JSON.stringify(v)] without indentation, for a value inside an array
    or an object. *)
Fixpoint JSON_stringify (v : value) : string :=
  match v with
  | VUndefined | VNull => "null"
  | VBool b => if b then "true" else "false"
  | VNum n => pretty n
  | VStr s => quote s
  | VArr xs => "[" +:+ join "," (map JSON_stringify xs) +:+ "]"
  | VObj props =>
      "{" +:+
      join ","
        ((fix members (ps : list (string * value)) :=
            match ps with
            | [] => []
            | (_, VUndefined) :: r => members r
            | (k, x) :: r =>
                (quote k +:+ ":" +:+ JSON_stringify x) :: members r
            end) props)
      +:+ "}"
  | VSet _ => "{}"
  end.

(** [Array.from(map.entries())] as a value. *)
Definition entries_value (m : list (string * value)) : value :=
  VArr (map (fun kv => VArr [VStr kv.1; kv.2]) m).

(** [Array.from(set)] as a value. *)
Definition strings_value (s : list string) : value := VArr (map VStr s).

(** The entries of an object with integer keys, in the ascending order in
    which JavaScript enumerates them. *)
Definition ascending {A} (m : gmap nat A) : list (nat * A) :=
  omap (fun k => (fun v => (k, v)) <$> m !! k)
       (seq 0 (S (foldr (fun kv acc => Nat.max kv.1 acc) 0 (map_to_list m)))).

(** [bookContent] as a value. *)
Definition content_value (bc : gmap nat (gmap nat string)) : value :=
  VObj (map (fun cp =>
               (pretty cp.1,
                VObj (map (fun ps => (pretty ps.1, VStr ps.2)) (ascending cp.2))))
            (ascending bc)).

(** [`${v}`]: the text that a template literal makes of a value (for
    integers of fewer than 22 digits). *)
Fixpoint to_string (v : value) : string :=
  match v with
  | VUndefined => "undefined"
  | VNull => "null"
  | VBool b => if b then "true" else "false"
  | VNum n => pretty n
  | VStr s => s
  | VArr xs =>
      join ","
        (map (fun x => match x with
                       | VUndefined | VNull => EmptyString
                       | _ => to_string x
                       end) xs)
  | VObj _ => "[object Object]"
  | VSet _ => "[object Set]"
  end.

(** Truthiness of a value: [undefined], [null], [false], [0] and the
    empty string are falsy. *)
Definition truthy_value (v : value) : bool :=
  match v with
  | VUndefined | VNull => false
  | VBool b => b
  | VNum n => negb (Z.eqb n 0)
  | VStr s => negb (String.eqb s EmptyString)
  | _ => true
  end.

(** [a || b]. *)
Definition or_else (a b : value) : value :=
  if truthy_value a then a else b.

(** [obj.k] on an object given by its properties: [undefined] when the
    object has no property [k]. *)
Definition prop (k : string) (props : list (string * value)) : value :=
  default VUndefined (assoc_get k props).

(** [{...a, ...b}]. *)
Definition merge (a b : list (string * value)) : list (string * value) :=
  fold_left (fun acc kv => assoc_set kv.1 kv.2 acc) b a.

(** The code points that [trim] removes, [WhiteSpace] and
    [LineTerminator], in a string held as its UTF-8 bytes. *)
Definition is_space1 (c : ascii) : bool :=
  let n := nat_of_ascii c in
  (Nat.leb 9 n && Nat.leb n 13) || Nat.eqb n 32.

(** U+00A0. *)
Definition is_space2 (c1 c2 : ascii) : bool :=
  Nat.eqb (nat_of_ascii c1) 194 && Nat.eqb (nat_of_ascii c2) 160.

(** U+1680, U+2000 to U+200A, U+2028, U+2029, U+202F, U+205F, U+3000 and
    U+FEFF. *)
Definition is_space3 (c1 c2 c3 : ascii) : bool :=
  let a := nat_of_ascii c1 in
  let b := nat_of_ascii c2 in
  let c := nat_of_ascii c3 in
  (Nat.eqb a 225 && Nat.eqb b 154 && Nat.eqb c 128) ||
  (Nat.eqb a 226 && Nat.eqb b 128 &&
   ((Nat.leb 128 c && Nat.leb c 138) || Nat.eqb c 168 || Nat.eqb c 169 ||
    Nat.eqb c 175)) ||
  (Nat.eqb a 226 && Nat.eqb b 129 && Nat.eqb c 159) ||
  (Nat.eqb a 227 && Nat.eqb b 128 && Nat.eqb c 128) ||
  (Nat.eqb a 239 && Nat.eqb b 187 && Nat.eqb c 191).

(** [s.trimStart()]. *)
Fixpoint trimStart (s : string) : string :=
  match s with
  | EmptyString => EmptyString
  | String c1 r1 =>
      if is_space1 c1 then trimStart r1
      else
        match r1 with
        | EmptyString => s
        | String c2 r2 =>
            if is_space2 c1 c2 then trimStart r2
            else
              match r2 with
              | EmptyString => s
              | String c3 r3 =>
                  if is_space3 c1 c2 c3 then trimStart r3 else s
              end
        end
  end.

(** [s.trimEnd()]: what is left once the longest tail made of white
    space only is cut. *)
Fixpoint trimEnd (s : string) : string :=
  match s with
  | EmptyString => EmptyString
  | String c r =>
      if String.eqb (trimStart s) EmptyString then EmptyString
      else String c (trimEnd r)
  end.

(** [s.trim()]. *)
Definition trim (s : string) : string := trimEnd (trimStart s).

(** [s.split(sep)]. [skip] counts the characters of a separator just
    matched that are still to be passed over. *)
Fixpoint split_go (sep : string) (skip : nat) (s : string) : list string :=
  match s with
  | EmptyString => [EmptyString]
  | String c r =>
      match skip with
      | S k => split_go sep k r
      | 0 =>
          if String.prefix sep s
          then EmptyString :: split_go sep (String.length sep - 1) r
          else
            match split_go sep 0 r with
            | piece :: pieces => String c piece :: pieces
            | [] => [String c EmptyString]
            end
      end
  end.

End JS.

(* ================================================================== *)
(** ** Checkpoint documents and the disk *)
(* ================================================================== *)

(** [progressState]. *)
Record Progress := {
  lastCompletedChapter : nat;
  lastCompletedPage : nat;
  status : string
}.

(** [outline] starts as [{}] and becomes the text of the outline reply. *)
Inductive Outline :=
| OutlineEmpty
| OutlineText (s : string).

(** The object written to [book_state.json] by [saveState], as the JSON
    document it is stored as. [bookContent] maps chapter to page to text. *)
Record StateDoc := {
  doc_progress : Progress;
  doc_characters : list (string * JS.value);
  doc_plotPoints : list string;
  doc_bookContent : gmap nat (gmap nat string);
  doc_outline : Outline;
  doc_metadata : list (string * string)
}.

(** The per-page record [{chapter, page, content, timestamp}]. *)
Record PageDoc := {
  pd_chapter : nat;
  pd_page : nat;
  pd_content : string;
  pd_timestamp : string
}.

Record Disk := {
  state_file : option StateDoc;
  page_files : gmap (nat * nat) PageDoc
}.

Definition empty_disk : Disk := {| state_file := None; page_files := ∅ |}.

(** What is handed to a file write. *)
Inductive Content :=
| CState (d : StateDoc)
| CPage (d : PageDoc)
| COpaque.

(* ================================================================== *)
(** ** Failures, effects and the oracle *)
(* ================================================================== *)

Inductive error :=
| SystemError (code : string)   (* a Node [fs] error; [error.code] is [code] *)
| SyntaxError (msg : string)    (* [JSON.parse] *)
| TypeError (msg : string)
| Error (msg : string)          (* [new Error(msg)] *)
| APIError (msg : string).      (* a rejected request to the service *)

(** [error.code]. *)
Definition error_code (e : error) : option string :=
  match e with
  | SystemError c => Some c
  | _ => None
  end.

(** External operations other than chat and image requests. *)
Inductive Op :=
| OpMkdir (path : string)
| OpWrite (path : string)
| OpRead (path : string)
| OpDocx (what : string)          (* rendering through the docx library *)
| OpFetch (url : string)
| OpUpload
| OpBatchCreate
| OpBatchRetrieve.

Inductive Event :=
| EvChat (system user : string)
| EvImage (prompt : string)
| EvCallback (chapter page : nat)
| EvWrite (path : string) (c : Content) (ok : bool)
| EvOp (op : Op) (ok : bool).

(** What a property of the parsed reply is to the [if] and the
    [for ... of] loop that read it. *)
Inductive Iterable (A : Type) :=
| Falsy                  (* absent, [null], [false], [0] or [""]: no loop *)
| NotIterable            (* truthy, but no array: the loop throws *)
| Array (xs : list A).

Arguments Falsy {A}.
Arguments NotIterable {A}.
Arguments Array {A} xs.

(** The reply of the extraction request once parsed:
    [{characters: [{name, details}], plotPoints: [...]}]. An element of
    [characters] is [null], here [None], or has a [name] and [details].
    The model covers the replies in which the name of every character is
    a string and every plot point is a string. *)
Record Extracted := {
  ex_characters : Iterable (option (string * JS.value));
  ex_plotPoints : Iterable string
}.

Record Env := {
  chat_reply : nat -> string -> string -> error + string;
  image_reply : nat -> string -> error + string;
  fault : nat -> Op -> option error;
  clock : nat -> string;
  (** [JSON.parse] of an extraction reply; [None] is a [SyntaxError],
      after which the default is merged, or the value [null], whose
      properties cannot be read: either way the manager stays as it is
      and the default is returned. *)
  parse_extracted : string -> option Extracted;
  (** [status.status] of the n-th effect, a batch status request. *)
  batch_status : nat -> string;
  (** [id] and [output_file_id] of the batch created by the n-th effect. *)
  batch_job : nat -> string * JS.value
}.

Inductive outcome (A : Type) :=
| Ret (a : A)
| Throw (e : error)
| Pending.   (* the polling loop has not finished within the fuel given *)

Arguments Ret {A} a.
Arguments Throw {A} e.
Arguments Pending {A}.

Record World (Mgr : Type) := {
  mgr : Mgr;
  disk : Disk;
  log : list Event
}.

Arguments mgr {Mgr} w.
Arguments disk {Mgr} w.
Arguments log {Mgr} w.

Definition M (Mgr A : Type) : Type := World Mgr -> outcome A * World Mgr.

Definition ret {Mgr A} (a : A) : M Mgr A := fun w => (Ret a, w).

Definition throw {Mgr A} (e : error) : M Mgr A := fun w => (Throw e, w).

Definition bind {Mgr A B} (m : M Mgr A) (k : A -> M Mgr B) : M Mgr B :=
  fun w =>
    match m w with
    | (Ret a, w') => k a w'
    | (Throw e, w') => (Throw e, w')
    | (Pending, w') => (Pending, w')
    end.

(** [try { m } catch (error) { h(error) }]. *)
Definition try_catch {Mgr A} (m : M Mgr A) (h : error -> M Mgr A) : M Mgr A :=
  fun w =>
    match m w with
    | (Throw e, w') => h e w'
    | r => r
    end.

Notation "'do' x <- c1 ; c2" := (bind c1 (fun x => c2))
  (at level 10, x name, c1 at level 100, c2 at level 200,
   format "'[v' 'do'  x  <-  c1 ; '/' c2 ']'").
Notation "'run' c1 ; c2" := (bind c1 (fun _ => c2))
  (at level 10, c1 at level 100, c2 at level 200,
   format "'[v' 'run'  c1 ; '/' c2 ']'").

Definition get_mgr {Mgr} : M Mgr Mgr := fun w => (Ret (mgr w), w).

Definition modify_mgr {Mgr} (f : Mgr -> Mgr) : M Mgr unit :=
  fun w => (Ret tt, {| mgr := f (mgr w); disk := disk w; log := log w |}).

Definition emit {Mgr} (ev : Event) (w : World Mgr) : World Mgr :=
  {| mgr := mgr w; disk := disk w; log := log w ++ [ev] |}.

Definition store {Mgr} (c : Content) (w : World Mgr) : World Mgr :=
  match c with
  | CState d =>
      {| mgr := mgr w;
         disk := {| state_file := Some d; page_files := page_files (disk w) |};
         log := log w |}
  | CPage d =>
      {| mgr := mgr w;
         disk := {| state_file := state_file (disk w);
                    page_files := <[(pd_chapter d, pd_page d) := d]>
                                    (page_files (disk w)) |};
         log := log w |}
  | COpaque => w
  end.

(** [for (const x of xs) { body(x) }]. *)
Fixpoint for_each {Mgr A} (xs : list A) (body : A -> M Mgr unit) : M Mgr unit :=
  match xs with
  | [] => ret tt
  | x :: r => run body x; for_each r body
  end.

(** [for (let i = lo; i <= hi; i++) { body(i) }]. *)
Definition for_range {Mgr} (lo hi : nat) (body : nat -> M Mgr unit) : M Mgr unit :=
  for_each (seq lo (S hi - lo)) body.

Section Effects.
Context (env : Env) {Mgr : Type}.

(** [openai.chat.completions.create] with a system and a user message;
    the result is [choices[0].message.content]. *)
Definition chat (system user : string) : M Mgr string :=
  fun w =>
    let w' := emit (EvChat system user) w in
    match chat_reply env (length (log w)) system user with
    | inr s => (Ret s, w')
    | inl e => (Throw e, w')
    end.

(** [openai.images.generate]; the result is [data[0].url]. *)
Definition images_generate (prompt : string) : M Mgr string :=
  fun w =>
    let w' := emit (EvImage prompt) w in
    match image_reply env (length (log w)) prompt with
    | inr s => (Ret s, w')
    | inl e => (Throw e, w')
    end.

(** An external operation that only succeeds or fails. *)
Definition perform (op : Op) : M Mgr unit :=
  fun w =>
    match fault env (length (log w)) op with
    | None => (Ret tt, emit (EvOp op true) w)
    | Some e => (Throw e, emit (EvOp op false) w)
    end.

(** [fs.writeFile(path, content)]. *)
Definition fs_writeFile (path : string) (c : Content) : M Mgr unit :=
  fun w =>
    match fault env (length (log w)) (OpWrite path) with
    | None => (Ret tt, emit (EvWrite path c true) (store c w))
    | Some e => (Throw e, emit (EvWrite path c false) w)
    end.

(** [JSON.parse(await fs.readFile(path))] of the checkpoint file. The
    file, when there is one, holds a document that [saveState] wrote:
    [loadState] assigns the fields of whatever it reads without a check,
    and a file of another shape is outside the model. *)
Definition fs_read_state (path : string) : M Mgr StateDoc :=
  fun w =>
    match fault env (length (log w)) (OpRead path) with
    | Some e => (Throw e, emit (EvOp (OpRead path) false) w)
    | None =>
        match state_file (disk w) with
        | Some d => (Ret d, emit (EvOp (OpRead path) true) w)
        | None => (Throw (SystemError "ENOENT"),
                   emit (EvOp (OpRead path) false) w)
        end
    end.

(** [JSON.parse(await fs.readFile(path))] of a page record. *)
Definition fs_read_page (path : string) (chapter page : nat) : M Mgr PageDoc :=
  fun w =>
    match fault env (length (log w)) (OpRead path) with
    | Some e => (Throw e, emit (EvOp (OpRead path) false) w)
    | None =>
        match page_files (disk w) !! (chapter, page) with
        | Some d => (Ret d, emit (EvOp (OpRead path) true) w)
        | None => (Throw (SystemError "ENOENT"),
                   emit (EvOp (OpRead path) false) w)
        end
    end.

(** [new Date().toISOString()]. *)
Definition now : M Mgr string :=
  fun w => (Ret (clock env (length (log w))), w).
End Effects.

(** [try { m } catch (error) { console.error(...); throw error; }]. *)
Definition rethrow {Mgr A} (m : M Mgr A) : M Mgr A :=
  try_catch m (fun e => throw e).

(** [if (!bookContent[chapter]) bookContent[chapter] = {};
     bookContent[chapter][page] = pageContent]. *)
Definition record_page (chapter page : nat) (pageContent : string)
    (bc : gmap nat (gmap nat string)) : gmap nat (gmap nat string) :=
  <[chapter := <[page := pageContent]> (default ∅ (bc !! chapter))]> bc.

(** An [Outline] inside a template literal. *)
Definition outline_text (o : Outline) : string :=
  match o with
  | OutlineEmpty => "[object Object]"
  | OutlineText s => s
  end.

(** The progress callback: what it throws, if anything. *)
Definition ProgressCallback : Type := nat -> nat -> option error.

Definition call_progress {Mgr} (cb : option ProgressCallback)
    (chapter page : nat) : M Mgr unit :=
  match cb with
  | None => ret tt
  | Some f =>
      fun w =>
        match f chapter page with
        | None => (Ret tt, emit (EvCallback chapter page) w)
        | Some e => (Throw e, emit (EvCallback chapter page) w)
        end
  end.

(* ================================================================== *)
(** ** The modular pipeline: [createbook.mjs] and [book_manager.mjs] *)
(* ================================================================== *)

Module Modular.

Record BookManager := {
  bookName : string;
  outputPath : string;
  tempPath : string;
  progressState : Progress;
  characters : list (string * JS.value);
  plotPoints : list string;
  bookContent : gmap nat (gmap nat string);
  outline : Outline;
  metadata : list (string * string)
}.

(** [new BookManager(bookName)]. *)
Definition new_BookManager (name : string) : BookManager :=
  {| bookName := name;
     outputPath := "output/books/" +:+ name;
     tempPath := "temp";
     progressState := {| lastCompletedChapter := 0;
                         lastCompletedPage := 0;
                         status := "not_started" |};
     characters := [];
     plotPoints := [];
     bookContent := ∅;
     outline := OutlineEmpty;
     metadata := [] |}.

Definition set_progressState (p : Progress) (m : BookManager) : BookManager :=
  {| bookName := bookName m; outputPath := outputPath m;
     tempPath := tempPath m; progressState := p;
     characters := characters m; plotPoints := plotPoints m;
     bookContent := bookContent m; outline := outline m;
     metadata := metadata m |}.

Definition set_bookContent (bc : gmap nat (gmap nat string)) (m : BookManager)
  : BookManager :=
  {| bookName := bookName m; outputPath := outputPath m;
     tempPath := tempPath m; progressState := progressState m;
     characters := characters m; plotPoints := plotPoints m;
     bookContent := bc; outline := outline m;
     metadata := metadata m |}.

Definition set_outline (o : Outline) (m : BookManager) : BookManager :=
  {| bookName := bookName m; outputPath := outputPath m;
     tempPath := tempPath m; progressState := progressState m;
     characters := characters m; plotPoints := plotPoints m;
     bookContent := bookContent m; outline := o;
     metadata := metadata m |}.

Definition set_metadata (md : list (string * string)) (m : BookManager)
  : BookManager :=
  {| bookName := bookName m; outputPath := outputPath m;
     tempPath := tempPath m; progressState := progressState m;
     characters := characters m; plotPoints := plotPoints m;
     bookContent := bookContent m; outline := outline m;
     metadata := md |}.

Definition set_outputPath (p : string) (m : BookManager) : BookManager :=
  {| bookName := bookName m; outputPath := p;
     tempPath := tempPath m; progressState := progressState m;
     characters := characters m; plotPoints := plotPoints m;
     bookContent := bookContent m; outline := outline m;
     metadata := metadata m |}.

(** The assignments of [loadState]. *)
Definition restore (d : StateDoc) (m : BookManager) : BookManager :=
  {| bookName := bookName m; outputPath := outputPath m;
     tempPath := tempPath m;
     progressState := doc_progress d;
     characters := JS.Map_from (doc_characters d);
     plotPoints := JS.Set_from (doc_plotPoints d);
     bookContent := doc_bookContent d;
     outline := doc_outline d;
     metadata := doc_metadata d |}.

(** The [state] object of [saveState] once serialised. *)
Definition snapshot (m : BookManager) : StateDoc :=
  {| doc_progress := progressState m;
     doc_characters :=
       map (fun kv => (kv.1, JS.json_roundtrip kv.2)) (characters m);
     doc_plotPoints := plotPoints m;
     doc_bookContent := bookContent m;
     doc_outline := outline m;
     doc_metadata := metadata m |}.

(** The methods of the [Response] to which the [fetch] of Node resolves.
    [buffer] belongs to the [Response] of the package [node-fetch]. *)
Definition Response_methods : list string :=
  ["arrayBuffer"; "blob"; "bytes"; "clone"; "formData"; "json"; "text"].

(** Whether [response.name] finds a method. *)
Definition response_has (name : string) : bool :=
  existsb (String.eqb name) Response_methods.

(** What [createBookPageByPage] returns. *)
Record BookResult := {
  res_outline : Outline;
  res_coverImage : option string;
  res_compiledBook : string * string;
  res_metadata : list (string * string);
  res_outputPath : string
}.

Section WithEnv.
Context (env : Env).

#[local] Abbreviation M := (M BookManager).

(** *** [FileHandler] *)

Definition createDirectory (dirPath : string) : M unit :=
  rethrow (perform env (OpMkdir dirPath)).

Definition writeFile (filePath : string) (content : Content) : M unit :=
  rethrow (run createDirectory (JS.dirname filePath);
           fs_writeFile env filePath content).

Definition readFile_state (filePath : string) : M StateDoc :=
  rethrow (fs_read_state env filePath).

(** *** [StateManager] *)

Definition statePath (name : string) : string :=
  "output/books/" +:+ name +:+ "/metadata/book_state.json".

Definition StateManager_saveState (name : string) (state : StateDoc) : M unit :=
  rethrow (writeFile (statePath name) (CState state)).

(** [null] is [None]. *)
Definition StateManager_loadState (name : string) : M (option StateDoc) :=
  try_catch
    (do d <- readFile_state (statePath name); ret (Some d))
    (fun e =>
       match error_code e with
       | Some code => if String.eqb code "ENOENT" then ret None else throw e
       | None => throw e
       end).

(** *** [BookManager] *)

Definition ensureDirectories : M unit :=
  do m <- get_mgr;
  for_each [outputPath m +:+ "/chapters";
            outputPath m +:+ "/compiled";
            outputPath m +:+ "/metadata";
            outputPath m +:+ "/assets";
            tempPath m]
           createDirectory.

Definition saveState : M unit :=
  do m <- get_mgr;
  StateManager_saveState (bookName m) (snapshot m).

Definition createDocxDocument (content : string) (chapter page : nat) : M unit :=
  perform env (OpDocx ("Chapter " +:+ pretty chapter +:+ ", Page " +:+ pretty page)).

Definition saveProgress (content : string) (chapter page : nat) : M unit :=
  run ensureDirectories;
  do m <- get_mgr;
  let chapterDir := outputPath m +:+ "/chapters/chapter" +:+ pretty chapter in
  run createDirectory chapterDir;
  do stamp <- now env;
  run writeFile (chapterDir +:+ "/page" +:+ pretty page +:+ ".json")
        (CPage {| pd_chapter := chapter; pd_page := page;
                  pd_content := content; pd_timestamp := stamp |});
  run createDocxDocument content chapter page;
  run writeFile (chapterDir +:+ "/page" +:+ pretty page +:+ ".docx") COpaque;
  run modify_mgr (set_progressState
                    {| lastCompletedChapter := chapter;
                       lastCompletedPage := page;
                       status := "in_progress" |});
  saveState.

(** [true] when a checkpoint was found. *)
Definition loadState : M bool :=
  do m <- get_mgr;
  do state <- StateManager_loadState (bookName m);
  match state with
  | Some d => run modify_mgr (restore d); ret true
  | None => ret false
  end.

Definition compileJSON : M string :=
  do m <- get_mgr;
  let compiledPath := outputPath m +:+ "/compiled/complete.json" in
  run writeFile compiledPath COpaque;
  ret compiledPath.

Definition compileDOCX : M string :=
  do m <- get_mgr;
  let compiledPath := outputPath m +:+ "/compiled/complete.docx" in
  run perform env (OpDocx "complete");
  run writeFile compiledPath COpaque;
  ret compiledPath.

Definition compileBook : M (string * string) :=
  run ensureDirectories;
  do json <- compileJSON;
  do docx <- compileDOCX;
  ret (json, docx).

(** [fetch] is the one that Node provides, no file importing another: the
    call [response.buffer()] finds no such method. *)
Definition saveCoverImage (imageUrl : string) : M string :=
  run perform env (OpFetch imageUrl);
  run (if response_has "buffer" then ret tt
       else throw (TypeError "response.buffer is not a function"));
  do m <- get_mgr;
  run writeFile (outputPath m +:+ "/assets/cover.png") COpaque;
  ret (outputPath m +:+ "/assets/cover.png").

(** *** [createBookPageByPage] *)

Definition page_prompt (chapter page : nat) (o : Outline) : string :=
  "Write page " +:+ pretty page +:+ " of chapter " +:+ pretty chapter +:+
  ". Use the following outline as context: " +:+ outline_text o.

(** One turn of the inner loop. *)
Definition generate_unit (progressCallback : option ProgressCallback)
    (chapter page : nat) : M unit :=
  run call_progress progressCallback chapter page;
  do m <- get_mgr;
  do pageContent <- chat env "You are a professional book writer."
                      (page_prompt chapter page (outline m));
  run saveProgress pageContent chapter page;
  modify_mgr (fun m =>
    set_bookContent (record_page chapter page pageContent (bookContent m)) m).

Definition createBookPageByPage_try (theme : string) (chapters pagesPerChapter : nat)
    (progressCallback : option ProgressCallback) : M BookResult :=
  run ensureDirectories;
  do hasState <- loadState;
  run (if hasState then ret tt
       else
         do reply <- chat env "You are a professional book outliner."
                       ("Create a detailed outline for a book with the following theme: "
                        +:+ theme);
         modify_mgr (set_outline (OutlineText reply)));
  do m <- get_mgr;
  run (if negb (JS.truthy (JS.assoc_get "coverImage" (metadata m))) then
         do url <- images_generate env
                     ("Create a professional book cover for: " +:+ theme);
         run modify_mgr (fun m =>
               set_metadata (JS.assoc_set "coverImage" url (metadata m)) m);
         do _ <- saveCoverImage url;
         ret tt
       else ret tt);
  do m <- get_mgr;
  let startChapter := lastCompletedChapter (progressState m) + 1 in
  run for_range startChapter chapters (fun chapter =>
        run for_range 1 pagesPerChapter
              (generate_unit progressCallback chapter);
        saveState);
  do compiledBook <- compileBook;
  do m <- get_mgr;
  ret {| res_outline := outline m;
         res_coverImage := JS.assoc_get "coverImage" (metadata m);
         res_compiledBook := compiledBook;
         res_metadata := metadata m;
         res_outputPath := outputPath m |}.

Definition createBookPageByPage (theme : string) (chapters pagesPerChapter : nat)
    (progressCallback : option ProgressCallback) : M BookResult :=
  try_catch
    (createBookPageByPage_try theme chapters pagesPerChapter progressCallback)
    (fun e => run saveState; throw e).

(** A call of the controller on a given disk: the manager is fresh. *)
Definition start (name : string) (d : Disk) : World BookManager :=
  {| mgr := new_BookManager name; disk := d; log := [] |}.
(** *** [testBookWriter]: the controller on a book of two chapters of two
    pages, with a callback that only prints; a failure is printed and the
    function resolves to [undefined], here [None]. *)
Definition testBookWriter : M (option BookResult) :=
  try_catch
    (do result <- createBookPageByPage "Test book about a magical adventure"
                    2 2 (Some (fun _ _ => None));
     ret (Some result))
    (fun _ => ret None).
End WithEnv.

End Modular.

(** [for] loop that pushes what each turn yields, when it yields. *)
Fixpoint collect {Mgr A B} (xs : list A) (f : A -> M Mgr (option B))
  : M Mgr (list B) :=
  match xs with
  | [] => ret []
  | x :: r =>
      do o <- f x;
      do rest <- collect r f;
      ret (match o with Some b => b :: rest | None => rest end)
  end.

Definition pending {Mgr A} : M Mgr A := fun w => (Pending, w).

(* ================================================================== *)
(** ** The legacy single-file pipeline *)
(* ================================================================== *)

Module Legacy.

Import JS.

(** One line of the batch input file. *)
Record BatchTask := {
  custom_id : string;
  task_system : string;
  task_user : string
}.

(** One line of the batch output, as [processBatchResults] reads it:
    [result.response.body.choices[0].message.content], [result.chapterNum]. *)
Record BatchResult := {
  br_content : string;
  br_chapterNum : nat
}.

(** What [openai.batches.create] resolves to. *)
Record BatchJob := {
  job_id : string;
  output_file_id : value
}.

(** [BookManager] and the two fields that [BatchBookManager] adds. *)
Record BookManager := {
  currentChapter : nat;
  currentPage : nat;
  bookContent : gmap nat (gmap nat string);
  outline : Outline;
  metadata : list (string * string);
  conversationHistory : list (string * string);
  characters : list (string * value);
  plotPoints : list string;
  progressState : Progress;
  supportedLanguages : list string;
  currentLanguage : string;
  batchTasks : list BatchTask;
  batchResults : list BatchResult
}.

(** [new BookManager()] and [new BatchBookManager()], at time [stamp]. *)
Definition new_BookManager (stamp : string) : BookManager :=
  {| currentChapter := 1;
     currentPage := 1;
     bookContent := ∅;
     outline := OutlineEmpty;
     metadata := [("title", "Drake Legacy");
                  ("author", "AI Writer");
                  ("genre", "Urban Fantasy");
                  ("targetAudience", "Young Adult/Adult");
                  ("createdDate", stamp)];
     conversationHistory := [];
     characters := [];
     plotPoints := [];
     progressState := {| lastCompletedChapter := 0;
                         lastCompletedPage := 0;
                         status := "not_started" |};
     supportedLanguages := ["en"; "es"; "fr"; "de"; "it"; "ja"; "zh"];
     currentLanguage := "en";
     batchTasks := [];
     batchResults := [] |}.

Definition set_bookContent (bc : gmap nat (gmap nat string)) (m : BookManager)
  : BookManager :=
  {| currentChapter := currentChapter m; currentPage := currentPage m;
     bookContent := bc; outline := outline m; metadata := metadata m;
     conversationHistory := conversationHistory m;
     characters := characters m; plotPoints := plotPoints m;
     progressState := progressState m;
     supportedLanguages := supportedLanguages m;
     currentLanguage := currentLanguage m;
     batchTasks := batchTasks m; batchResults := batchResults m |}.

Definition set_outline (o : Outline) (m : BookManager) : BookManager :=
  {| currentChapter := currentChapter m; currentPage := currentPage m;
     bookContent := bookContent m; outline := o; metadata := metadata m;
     conversationHistory := conversationHistory m;
     characters := characters m; plotPoints := plotPoints m;
     progressState := progressState m;
     supportedLanguages := supportedLanguages m;
     currentLanguage := currentLanguage m;
     batchTasks := batchTasks m; batchResults := batchResults m |}.

Definition set_metadata (md : list (string * string)) (m : BookManager)
  : BookManager :=
  {| currentChapter := currentChapter m; currentPage := currentPage m;
     bookContent := bookContent m; outline := outline m; metadata := md;
     conversationHistory := conversationHistory m;
     characters := characters m; plotPoints := plotPoints m;
     progressState := progressState m;
     supportedLanguages := supportedLanguages m;
     currentLanguage := currentLanguage m;
     batchTasks := batchTasks m; batchResults := batchResults m |}.

Definition set_characters (cs : list (string * value)) (m : BookManager)
  : BookManager :=
  {| currentChapter := currentChapter m; currentPage := currentPage m;
     bookContent := bookContent m; outline := outline m;
     metadata := metadata m;
     conversationHistory := conversationHistory m;
     characters := cs; plotPoints := plotPoints m;
     progressState := progressState m;
     supportedLanguages := supportedLanguages m;
     currentLanguage := currentLanguage m;
     batchTasks := batchTasks m; batchResults := batchResults m |}.

Definition set_plotPoints (ps : list string) (m : BookManager) : BookManager :=
  {| currentChapter := currentChapter m; currentPage := currentPage m;
     bookContent := bookContent m; outline := outline m;
     metadata := metadata m;
     conversationHistory := conversationHistory m;
     characters := characters m; plotPoints := ps;
     progressState := progressState m;
     supportedLanguages := supportedLanguages m;
     currentLanguage := currentLanguage m;
     batchTasks := batchTasks m; batchResults := batchResults m |}.

Definition set_progressState (p : Progress) (m : BookManager) : BookManager :=
  {| currentChapter := currentChapter m; currentPage := currentPage m;
     bookContent := bookContent m; outline := outline m;
     metadata := metadata m;
     conversationHistory := conversationHistory m;
     characters := characters m; plotPoints := plotPoints m;
     progressState := p;
     supportedLanguages := supportedLanguages m;
     currentLanguage := currentLanguage m;
     batchTasks := batchTasks m; batchResults := batchResults m |}.

Definition set_batchTasks (ts : list BatchTask) (m : BookManager) : BookManager :=
  {| currentChapter := currentChapter m; currentPage := currentPage m;
     bookContent := bookContent m; outline := outline m;
     metadata := metadata m;
     conversationHistory := conversationHistory m;
     characters := characters m; plotPoints := plotPoints m;
     progressState := progressState m;
     supportedLanguages := supportedLanguages m;
     currentLanguage := currentLanguage m;
     batchTasks := ts; batchResults := batchResults m |}.

(** The assignments of [loadState]. *)
Definition restore (d : StateDoc) (m : BookManager) : BookManager :=
  {| currentChapter := currentChapter m; currentPage := currentPage m;
     bookContent := doc_bookContent d;
     outline := doc_outline d;
     metadata := doc_metadata d;
     conversationHistory := conversationHistory m;
     characters := Map_from (doc_characters d);
     plotPoints := Set_from (doc_plotPoints d);
     progressState := doc_progress d;
     supportedLanguages := supportedLanguages m;
     currentLanguage := currentLanguage m;
     batchTasks := batchTasks m; batchResults := batchResults m |}.

(** The [state] object of [saveState] once serialised. *)
Definition snapshot (m : BookManager) : StateDoc :=
  {| doc_progress := progressState m;
     doc_characters := map (fun kv => (kv.1, json_roundtrip kv.2)) (characters m);
     doc_plotPoints := plotPoints m;
     doc_bookContent := bookContent m;
     doc_outline := outline m;
     doc_metadata := metadata m |}.

(** The methods that [class BookManager] declares, in source order. *)
Definition BookManager_methods : list string :=
  ["initialize"; "saveProgress"; "saveAsDocx"; "formatContentWithStyles";
   "isDialogue"; "isSceneBreak"; "getChapterSubtitle"; "loadProgress";
   "compileBook"; "createOutline"; "continueStory"; "exportToFormat";
   "saveMetadata"; "loadMetadata"; "saveState"; "loadState"; "addCharacter";
   "checkConsistency"; "editAndProofread"; "translateContent";
   "formatContent"; "formatHTML"; "generatePage"; "extractMetadata";
   "generateChapterPages"; "saveOutline"; "generateTableOfContents";
   "generateTocEntries"; "initializeBookMetadata"].

(** Whether [super.name] finds a method: the lookup goes through
    [BookManager.prototype], whose parent [Object.prototype] has none of
    the names used here. *)
Definition super_has (name : string) : bool :=
  existsb (String.eqb name) BookManager_methods.

(** [this.outline[chapterNum] || 'No outline available']: indexing the
    outline text yields one UTF-16 code unit of it. *)
Definition outline_entry (o : Outline) (chapterNum : nat) : string :=
  match o with
  | OutlineEmpty => "No outline available"
  | OutlineText s =>
      match units_of s !! chapterNum with
      | Some c => c
      | None => "No outline available"
      end
  end.

(** The record that [addCharacter] stores. *)
Definition character_record (details : value) (chapter : nat) : value :=
  VObj (assoc_set "appearances" (VSet [VNum (Z.of_nat chapter)])
          (assoc_set "firstAppearance" (VNum (Z.of_nat chapter))
             (spread details))).

(** The default of [extractMetadata]. *)
Definition no_metadata : Extracted :=
  {| ex_characters := Array []; ex_plotPoints := Array [] |}.

(** What the legacy [createBookPageByPage] returns. *)
Record BookResult := {
  res_outline : Outline;
  res_coverImage : option string;
  res_bookContent : gmap nat (gmap nat string);
  res_metadata : list (string * string);
  res_progressState : Progress;
  res_compiledBook : string * string
}.

(** What [createBookWithBatch] returns. *)
Record BatchBookResult := {
  bres_outline : Outline;
  bres_coverImage : string;
  bres_bookContent : gmap nat (gmap nat string);
  bres_metadata : list (string * string);
  bres_progressState : Progress;
  bres_consistencyReport : string
}.

Definition systemPrompt : string :=
  "You are an advanced AI book writer assistant specialized in creating long-form chapter books.
Your capabilities include:
- Creating detailed book outlines
- Writing complete chapters
- Maintaining consistency across the narrative
- Handling document merging and page numbering
- Creating vivid story descriptions
- Working with existing manuscripts to continue the story

Please analyze any provided manuscript deeply before continuing the story.
When GPT-4 limits are reached, save progress and use prompt #2 (LET'S FINISH MY BOOK⭐) to continue later.".

Definition outlinePrompt (theme : string) (length : nat) : string :=
  "Create a detailed book outline for a "
  +:+ pretty length
  +:+ "-chapter book about "
  +:+ theme
  +:+ ". 
                             Include chapter summaries and key plot points.".

Definition consistencyPrompt (characters plotPoints content : string) : string :=
  "Check this content against known characters and plot points:
                             Characters: "
  +:+ characters
  +:+ "
                             Plot Points: "
  +:+ plotPoints
  +:+ "
                             Content: "
  +:+ content.

Definition translatePrompt (targetLanguage : string) : string :=
  "Translate the following text to "
  +:+ targetLanguage
  +:+ ", maintaining the style and tone:".

Definition pagePrompt (chapterNum pageNum : nat)
    (previousPages outlineEntry characters plotPoints : string) : string :=
  "
            You are writing page "
  +:+ pretty pageNum
  +:+ " of chapter "
  +:+ pretty chapterNum
  +:+ ".
            
            Context from previous pages:
            "
  +:+ previousPages
  +:+ "
            
            Current outline for this chapter:
            "
  +:+ outlineEntry
  +:+ "
            
            Known characters:
            "
  +:+ characters
  +:+ "
            
            Important plot points:
            "
  +:+ plotPoints
  +:+ "
            
            Write the next page maintaining consistency with the story. 
            Each page should be approximately 500 words.
            End the page at a natural break point.
            
            Format the response as a single page of prose.
        ".

Definition metadataPrompt (content : string) : string :=
  "
                Analyze this text and extract:
                1. Any new characters introduced
                2. Important plot points
                3. Key story developments
                
                Format the response as valid JSON with this structure:
                {
                    "
  +:+ dq
  +:+ "characters"
  +:+ dq
  +:+ ": [
                        {"
  +:+ dq
  +:+ "name"
  +:+ dq
  +:+ ": "
  +:+ dq
  +:+ "character name"
  +:+ dq
  +:+ ", "
  +:+ dq
  +:+ "details"
  +:+ dq
  +:+ ": "
  +:+ dq
  +:+ "character description"
  +:+ dq
  +:+ "}
                    ],
                    "
  +:+ dq
  +:+ "plotPoints"
  +:+ dq
  +:+ ": ["
  +:+ dq
  +:+ "plot point 1"
  +:+ dq
  +:+ ", "
  +:+ dq
  +:+ "plot point 2"
  +:+ dq
  +:+ "],
                    "
  +:+ dq
  +:+ "storyDevelopments"
  +:+ dq
  +:+ ": ["
  +:+ dq
  +:+ "development 1"
  +:+ dq
  +:+ ", "
  +:+ dq
  +:+ "development 2"
  +:+ dq
  +:+ "]
                }
                
                Text to analyze: "
  +:+ content
  +:+ "
            ".

Definition batchTaskPrompt (chapter : nat) (theme outline bookContent : string) : string :=
  "Write Chapter "
  +:+ pretty chapter
  +:+ " for a book about "
  +:+ theme
  +:+ ". 
                                      Use the following outline: "
  +:+ outline
  +:+ "
                                      Previous chapters context: "
  +:+ bookContent.

Definition set_conversationHistory (h : list (string * string))
    (m : BookManager) : BookManager :=
  {| currentChapter := currentChapter m; currentPage := currentPage m;
     bookContent := bookContent m; outline := outline m;
     metadata := metadata m;
     conversationHistory := h;
     characters := characters m; plotPoints := plotPoints m;
     progressState := progressState m;
     supportedLanguages := supportedLanguages m;
     currentLanguage := currentLanguage m;
     batchTasks := batchTasks m; batchResults := batchResults m |}.

(** The methods that [class BatchBookManager] adds. *)
Definition BatchBookManager_methods : list string :=
  ["createBatchTasks"; "submitBatchJob"; "processBatchResults"].

(** Whether [this.name] finds a method on a manager of either class. *)
Definition this_has (name : string) : bool :=
  existsb (String.eqb name) (BatchBookManager_methods ++ BookManager_methods).

(** [new Paragraph({text, style})]. *)
Record Paragraph := {
  para_text : string;
  para_style : string
}.

Definition isDialogue (text : string) : bool :=
  String.prefix dq (trim text) || String.prefix (dq +:+ "<") (trim text).

Definition isSceneBreak (text : string) : bool :=
  String.eqb (trim text) "***" || String.eqb (trim text) "---".

(** [content.split('\n\n')]. *)
Definition blocks (content : string) : list string :=
  split_go (newline +:+ newline) 0 content.

Definition formatContentWithStyles (content : string) (chapter page : nat)
  : list Paragraph :=
  map (fun line =>
         if isDialogue line then
           {| para_text := line; para_style := "dialogue" |}
         else if isSceneBreak line then
           {| para_text := "* * *"; para_style := "sceneBreak" |}
         else
           {| para_text := line; para_style := "bodyText" |})
      (blocks content).

(** The page that [formatHTML] builds around the rendered content. *)
Definition htmlPage (html : string) : string :=
  "
            <!DOCTYPE html>
            <html>
            <head>
                <meta charset="
  +:+ dq
  +:+ "UTF-8"
  +:+ dq
  +:+ ">
                <style>
                    body { max-width: 800px; margin: 0 auto; padding: 20px; }
                    h1 { color: #2c3e50; }
                    p { line-height: 1.6; }
                </style>
            </head>
            <body>
                "
  +:+ html
  +:+ "
            </body>
            </html>
        ".

(** What [exportToFormat] resolves to: the two paths of [compileBook], or
    what an exporter returns. *)
Inductive Exported :=
| Compiled (json docx : string)
| Converted (text : string).

Section WithEnv.
Context (env : Env).

(** What a parent class would run for [super.processBatchResults]; the
    class hierarchy decides through [super_has] whether it is ever called. *)
Context (inherited_processBatchResults : value -> M BookManager (list BatchResult)).

#[local] Abbreviation M := (M BookManager).

(** *** Persistence *)

Definition saveAsDocx (content : string) (chapter page : nat) : M unit :=
  run perform env (OpDocx ("chapter" +:+ pretty chapter +:+ "_page" +:+ pretty page));
  fs_writeFile env
    ("chapter" +:+ pretty chapter +:+ "_page" +:+ pretty page +:+ ".docx")
    COpaque.

Definition saveProgress (content : string) (chapter page : nat) : M unit :=
  do stamp <- now env;
  run fs_writeFile env
        ("chapter" +:+ pretty chapter +:+ "_page" +:+ pretty page +:+ ".json")
        (CPage {| pd_chapter := chapter; pd_page := page;
                  pd_content := content; pd_timestamp := stamp |});
  saveAsDocx content chapter page.

(** [null] is [None]. *)
Definition loadProgress (chapter page : nat) : M (option PageDoc) :=
  try_catch
    (do d <- fs_read_page env
               ("chapter" +:+ pretty chapter +:+ "_page" +:+ pretty page +:+ ".json")
               chapter page;
     ret (Some d))
    (fun _ => ret None).

Definition generateTableOfContents : M unit :=
  run perform env (OpDocx "table_of_contents");
  fs_writeFile env "table_of_contents.docx" COpaque.

(** The rendering is a step of the oracle: whether [new Document()]
    without options and [doc.addSection] succeed depends on the version
    of the [docx] package, which the program does not fix. *)
Definition compileBook : M (string * string) :=
  run generateTableOfContents;
  run fs_writeFile env "complete_book.json" COpaque;
  run perform env (OpDocx "complete_book");
  run fs_writeFile env "complete_book.docx" COpaque;
  ret ("complete_book.json", "complete_book.docx").

Definition saveOutline : M unit :=
  try_catch (fs_writeFile env "book_outline.json" COpaque) (fun _ => ret tt).

Definition saveMetadata : M unit :=
  fs_writeFile env "book_metadata.json" COpaque.

Definition saveState : M unit :=
  do m <- get_mgr;
  fs_writeFile env "book_state.json" (CState (snapshot m)).

(** [true] when a checkpoint was read; every failure yields [false]. *)
Definition loadState : M bool :=
  try_catch
    (do d <- fs_read_state env "book_state.json";
     run modify_mgr (restore d);
     ret true)
    (fun _ => ret false).

(** *** Narrative state and generation *)

Definition createOutline (theme : string) (length : nat) : M Outline :=
  do reply <- chat env systemPrompt (outlinePrompt theme length);
  run modify_mgr (set_outline (OutlineText reply));
  run saveOutline;
  ret (OutlineText reply).

Definition addCharacter (name : string) (details : value) : M unit :=
  modify_mgr (fun m =>
    set_characters
      (assoc_set name (character_record details (currentChapter m))
                 (characters m))
      m).

Definition checkConsistency (content : string) : M string :=
  do m <- get_mgr;
  chat env "Analyze the text for character and plot consistency."
    (consistencyPrompt (JSON_stringify (entries_value (characters m)))
                       (JSON_stringify (strings_value (plotPoints m)))
                       content).

Definition editAndProofread (content : string) : M string :=
  chat env
    "You are an expert editor and proofreader. Fix grammar, spelling, and style issues while maintaining the original voice."
    content.

Definition translateContent (content targetLanguage : string) : M string :=
  do m <- get_mgr;
  if negb (existsb (String.eqb targetLanguage) (supportedLanguages m)) then
    throw (Error ("Language " +:+ targetLanguage +:+ " not supported"))
  else
    chat env (translatePrompt targetLanguage) content.

Definition generatePage (chapterNum pageNum : nat) (previousPages : string)
  : M string :=
  do m <- get_mgr;
  chat env systemPrompt
    (pagePrompt chapterNum pageNum previousPages
       (outline_entry (outline m) chapterNum)
       (JSON_stringify (entries_value (characters m)))
       (JSON_stringify (strings_value (plotPoints m)))).

Definition extractMetadata (content : string) : M Extracted :=
  try_catch
    (do reply <- chat env
                   "You are a metadata extractor. Always respond with valid JSON."
                   (metadataPrompt content);
     let metadata := default no_metadata (parse_extracted env reply) in
     run match ex_characters metadata with
         | Falsy => ret tt
         | NotIterable =>
             throw (TypeError "metadata.characters is not iterable")
         | Array cs =>
             for_each cs (fun char =>
               match char with
               | Some (name, details) => addCharacter name details
               | None =>
                   throw (TypeError
                            "Cannot read properties of null (reading 'name')")
               end)
         end;
     run match ex_plotPoints metadata with
         | Falsy => ret tt
         | NotIterable =>
             throw (TypeError "metadata.plotPoints is not iterable")
         | Array ps =>
             for_each ps (fun point =>
               modify_mgr (fun m => set_plotPoints (set_add point (plotPoints m)) m))
         end;
     ret metadata)
    (fun _ => ret no_metadata).

(** The texts of the saved pages before [page] that can be read back. *)
Definition previous_pages (chapter page : nat) : M (list string) :=
  collect (seq 1 (page - 1))
    (fun p => do prevPage <- loadProgress chapter p;
              ret (pd_content <$> prevPage)).

(** One turn of the loop of [generateChapterPages]. *)
Definition generate_unit (chapter page : nat) : M unit :=
  do previousPages <- previous_pages chapter page;
  do pageContent <- generatePage chapter page (join newline previousPages);
  run saveProgress pageContent chapter page;
  run modify_mgr (fun m =>
        set_bookContent
          (record_page chapter page pageContent (bookContent m)) m);
  do _ <- extractMetadata pageContent;
  ret tt.

Definition generateChapterPages (chapter pagesPerChapter : nat) : M unit :=
  rethrow (for_range 1 pagesPerChapter (generate_unit chapter)).

Definition generateStoryImage (prompt : string) : M string :=
  images_generate env prompt.

(** *** [BatchBookManager] *)

Definition createBatchTasks (chapters : nat) (theme : string) : M unit :=
  for_range 1 chapters (fun chapter =>
    modify_mgr (fun m =>
      set_batchTasks
        (batchTasks m ++
         [{| custom_id := "chapter-" +:+ pretty chapter;
             task_system := systemPrompt;
             task_user :=
               batchTaskPrompt chapter theme (outline_text (outline m))
                 (JSON_stringify (content_value (bookContent m))) |}])
        m)).

Definition batches_create : M BatchJob :=
  fun w =>
    match fault env (length (log w)) OpBatchCreate with
    | None =>
        (Ret {| job_id := (batch_job env (length (log w))).1;
                output_file_id := (batch_job env (length (log w))).2 |},
         emit (EvOp OpBatchCreate true) w)
    | Some e => (Throw e, emit (EvOp OpBatchCreate false) w)
    end.

(** [(await openai.batches.retrieve(id)).status]. *)
Definition batches_retrieve (id : string) : M string :=
  fun w =>
    match fault env (length (log w)) OpBatchRetrieve with
    | None => (Ret (batch_status env (length (log w))),
               emit (EvOp OpBatchRetrieve true) w)
    | Some e => (Throw e, emit (EvOp OpBatchRetrieve false) w)
    end.

Definition submitBatchJob : M BatchJob :=
  do stamp <- now env;
  let batchFileName := "batch_tasks_" +:+ stamp +:+ ".jsonl" in
  run fs_writeFile env batchFileName COpaque;
  run perform env (OpRead batchFileName);
  run perform env OpUpload;
  batches_create.

Definition processBatchResults (resultFileId : value) : M unit :=
  do results <-
    (if super_has "processBatchResults"
     then inherited_processBatchResults resultFileId
     else throw (TypeError
                   "(intermediate value).processBatchResults is not a function"));
  for_each results (fun result =>
    let content := br_content result in
    do consistencyCheck <- checkConsistency content;
    do editedContent <- editAndProofread content;
    run modify_mgr (fun m =>
          set_progressState
            {| lastCompletedChapter :=
                 Nat.max (lastCompletedChapter (progressState m))
                         (br_chapterNum result);
               lastCompletedPage := lastCompletedPage (progressState m);
               status := status (progressState m) |}
            m);
    saveState).

(** The [do ... while (jobStatus !== 'completed')] loop, for at most
    [fuel] status requests. *)
Fixpoint poll (fuel : nat) (id : string) : M unit :=
  match fuel with
  | 0 => pending
  | S fuel' =>
      do jobStatus <- batches_retrieve id;
      if String.eqb jobStatus "completed" then ret tt else poll fuel' id
  end.

(** The translation step of [createBookWithBatch]. A chapter whose first
    page is missing hands [undefined] to [translateContent]. *)
Definition translate_book (language : string) : M unit :=
  do m0 <- get_mgr;
  for_each (map fst (ascending (bookContent m0))) (fun chapter =>
    do m <- get_mgr;
    do translatedContent <-
      translateContent
        (default "undefined" (bookContent m !! chapter ≫= (.!! 1)))
        language;
    modify_mgr (fun m =>
      set_bookContent (record_page chapter 1 translatedContent (bookContent m)) m)).

Definition coverPrompt (theme : string) : string :=
  "Create a professional book cover for: " +:+ theme.

(** The statements of the [try] block. The three concurrent formatting
    calls that follow the translation are one opaque step. *)
Definition createBookWithBatch_try (fuel : nat) (theme : string)
    (chapters : nat) (language : string) : M BatchBookResult :=
  do outline <- createOutline theme chapters;
  do coverImage <- generateStoryImage (coverPrompt theme);
  run createBatchTasks chapters theme;
  do batchJob <- submitBatchJob;
  run poll fuel (job_id batchJob);
  run processBatchResults (output_file_id batchJob);
  run (if negb (String.eqb language "en") then translate_book language
       else ret tt);
  run perform env (OpDocx "formatContent");
  do m <- get_mgr;
  do report <- checkConsistency (JSON_stringify (content_value (bookContent m)));
  ret {| bres_outline := outline;
         bres_coverImage := coverImage;
         bres_bookContent := bookContent m;
         bres_metadata := metadata m;
         bres_progressState := progressState m;
         bres_consistencyReport := report |}.

Definition createBookWithBatch (fuel : nat) (theme : string) (chapters : nat)
    (language : string) : M BatchBookResult :=
  do hasState <- loadState;
  try_catch (createBookWithBatch_try fuel theme chapters language)
            (fun e => run saveState; throw e).

(** *** [createBookPageByPage] *)

Definition createBookPageByPage_try (theme : string)
    (chapters pagesPerChapter : nat)
    (progressCallback : option ProgressCallback) : M BookResult :=
  do hasState <- loadState;
  run (if hasState then ret tt
       else do _ <- createOutline theme chapters; ret tt);
  do m <- get_mgr;
  run (if negb (truthy (assoc_get "coverImage" (metadata m))) then
         do url <- generateStoryImage (coverPrompt theme);
         run modify_mgr (fun m =>
               set_metadata (assoc_set "coverImage" url (metadata m)) m);
         saveMetadata
       else ret tt);
  do m <- get_mgr;
  let startChapter := lastCompletedChapter (progressState m) + 1 in
  run for_range startChapter chapters (fun chapter =>
        run call_progress progressCallback chapter 1;
        run generateChapterPages chapter pagesPerChapter;
        saveState);
  do compiledBook <- compileBook;
  do m <- get_mgr;
  ret {| res_outline := outline m;
         res_coverImage := assoc_get "coverImage" (metadata m);
         res_bookContent := bookContent m;
         res_metadata := metadata m;
         res_progressState := progressState m;
         res_compiledBook := compiledBook |}.

Definition createBookPageByPage (theme : string) (chapters pagesPerChapter : nat)
    (progressCallback : option ProgressCallback) : M BookResult :=
  try_catch
    (createBookPageByPage_try theme chapters pagesPerChapter progressCallback)
    (fun e => run saveState; throw e).

(** A call of a controller on a given disk: the manager is fresh. *)
Definition start (d : Disk) : World BookManager :=
  {| mgr := new_BookManager (clock env 0); disk := d; log := [] |}.
(** *** History, export and formats *)

(** What a method would do that neither class declares; [this_has]
    decides whether it is ever called. *)
Context (undeclared : forall A : Type, string -> M A).

(** [marked(content)], the rendering of Markdown as HTML. *)
Context (marked : string -> string).

(** [this.name(...)]. *)
Definition call_method {A} (name : string) (body : M A) : M A :=
  if this_has name then body
  else throw (TypeError ("this." +:+ name +:+ " is not a function")).

Definition continueStory (previousContent : string)
  : M (list (string * string)) :=
  run modify_mgr (fun m =>
        set_conversationHistory
          (conversationHistory m ++ [("assistant", previousContent)]) m);
  do m <- get_mgr;
  run (if Nat.ltb 10 (length (conversationHistory m)) then
         modify_mgr
           (set_conversationHistory
              (drop (length (conversationHistory m) - 10)
                    (conversationHistory m)))
       else ret tt);
  do m <- get_mgr;
  ret (conversationHistory m).

Definition exportToFormat (format : string) : M Exported :=
  do content <- compileBook;
  if String.eqb format "html" then
    call_method "exportToHTML" (undeclared Exported "exportToHTML")
  else if String.eqb format "markdown" then
    call_method "exportToMarkdown" (undeclared Exported "exportToMarkdown")
  else if String.eqb format "epub" then
    call_method "exportToEPUB" (undeclared Exported "exportToEPUB")
  else ret (Compiled content.1 content.2).

Definition formatHTML (content : string) : M string :=
  ret (htmlPage (marked content)).

Definition formatContent (content format : string) : M string :=
  if String.eqb format "html" then call_method "formatHTML" (formatHTML content)
  else if String.eqb format "epub" then
    call_method "formatEPUB" (undeclared string "formatEPUB")
  else if String.eqb format "pdf" then
    call_method "formatPDF" (undeclared string "formatPDF")
  else ret content.

(** [generateBookContent(userPrompt, bookManager)]. *)
Definition generateBookContent (userPrompt : string) : M string :=
  do content <- chat env systemPrompt userPrompt;
  do m <- get_mgr;
  run saveProgress content (currentChapter m) (currentPage m);
  ret content.
End WithEnv.

End Legacy.

(* ================================================================== *)
(** ** Book templates and the scripts that start a run from them *)
(* ================================================================== *)

(** [createDrakeConfig] as the template file next to [book_config.js]
    has it: the options are merged over five defaults. An object is the
    list of its properties. *)
Module DrakeConfig.

Import JS.

Definition defaultConfig : list (string * value) :=
  [("pagesPerChapter", VNum 5);
   ("totalChapters", VNum 12);
   ("tone", VStr "Serious with moments of levity");
   ("pacing", VStr "Dynamic");
   ("pageLength", VNum 500)].

Definition metadata : value :=
  VObj
    [("title", VStr "Drake Legacy");
     ("author", VStr "AI Writer");
     ("genre", VStr "Urban Fantasy");
     ("subgenre", VArr [VStr "Supernatural"; VStr "Martial Arts";
                        VStr "Coming of Age"]);
     ("targetAudience", VStr "Young Adult/Adult");
     ("series", VObj [("name", VStr "Drake Legacy");
                      ("book", VNum 1);
                      ("subtitle", VStr "The Fighter's Awakening")]);
     ("mainCharacter",
      VObj [("name", VStr "John Drake");
            ("description",
             VStr "A skilled fighter with hearing impairment who discovers supernatural abilities");
            ("traits", VArr [VStr "Determined"; VStr "Resilient";
                             VStr "Intuitive"])]);
     ("setting", VObj [("primary", VStr "Ridgemont Boys & Girls Club");
                       ("time", VStr "Contemporary");
                       ("location", VStr "Urban America")]);
     ("themes", VArr [VStr "Self-discovery";
                      VStr "Overcoming limitations";
                      VStr "Hidden powers";
                      VStr "Mentor relationships"]);
     ("synopsis",
      VStr "John Drake, a skilled fighter with hearing impairment, discovers he possesses supernatural abilities that allow him to perceive the world in ways others cannot. Training at the Ridgemont Boys & Girls Club under the mysterious Mr. Reynolds, John must learn to control his emerging powers while confronting both personal demons and unknown threats.");
     ("keywords", VArr [VStr "martial arts";
                        VStr "supernatural abilities";
                        VStr "disability representation";
                        VStr "coming of age";
                        VStr "urban fantasy"])].

Definition systemPrompt (tone pacing : string) : string :=
  "You are writing "
  +:+ dq
  +:+ "Drake Legacy"
  +:+ dq
  +:+ ", a story about John Drake, a skilled fighter with hearing impairment who discovers supernatural abilities.
        
        Key elements to maintain:
        - Focus on martial arts and supernatural abilities
        - Show John's unique way of perceiving the world through movement
        - Include sign language dialogue marked with "
  +:+ dq
  +:+ "<>"
  +:+ dq
  +:+ " symbols
        - Balance action scenes with character development
        - Maintain "
  +:+ tone
  +:+ " tone and "
  +:+ pacing
  +:+ " pacing".

Definition createDrakeConfig (options : list (string * value))
  : list (string * value) :=
  let config := merge defaultConfig options in
  [("metadata", metadata);
   ("systemPrompt",
    VStr (systemPrompt (to_string (prop "tone" config))
                       (to_string (prop "pacing" config))));
   ("chapterStructure",
    VObj [("pagesPerChapter", prop "pagesPerChapter" config);
          ("totalChapters", prop "totalChapters" config);
          ("format", VObj [("pageLength", prop "pageLength" config);
                           ("dialogueStyle", VStr "signed");
                           ("sceneBreakMarker", VStr "* * *")])]);
   ("styleGuide",
    VObj [("tone", prop "tone" config);
          ("pacing", prop "pacing" config);
          ("pointOfView", VStr "Third person limited");
          ("dialogueFormat", VObj [("signed", VStr "<>");
                                   ("spoken", VStr (dq +:+ dq))])])].

End DrakeConfig.

(** [createDrakeConfig] as the second template file has it: four options
    replace a default when they are truthy. *)
Module DrakeDefaults.

Import JS.

Definition defaultConfig (options : list (string * value))
  : list (string * value) :=
  [("metadata",
    VObj
      [("title", VStr "Drake Legacy");
       ("author", VStr "Charlie Reeves");
       ("genre", VStr "Fantasy");
       ("subgenre", VArr [VStr "Supernatural"; VStr "Martial Arts";
                          VStr "Coming of Age"]);
       ("targetAudience", VStr "Young Adult");
       ("series", VObj [("name", VStr "Drake Legacy");
                        ("book", VNum 1);
                        ("subtitle", VStr "The Fighter's Awakening")]);
       ("mainCharacter",
        VObj [("name", VStr "John Drake");
              ("description",
               VStr "A 13-year-old Deaf boy with a muscular build, training in Jeet-Kune-Do");
              ("traits", VArr [VStr "Determined"; VStr "Resilient";
                               VStr "Gentle"])]);
       ("setting", VObj [("primary", VStr "Small town outside Detroit");
                         ("secondary", VStr "Lili'Van (pocket dimension)");
                         ("time", VStr "Contemporary")]);
       ("synopsis",
        VStr "John Drake, a 13-year-old Deaf boy, discovers his deceased father's connection to Lilian, a secret society in a pocket dimension called Lili'Van. Training in martial arts and uncovering mystical abilities, John must navigate both worlds while seeking the truth about his father's past.")]);
   ("chapterStructure",
    VObj [("totalChapters", VNum 25);
          ("pagesPerChapter", VNum 7);
          ("format", VObj [("pageLength", VNum 500);
                           ("dialogueStyle", VStr "signed");
                           ("sceneBreakMarker", VStr "* * *")])]);
   ("styleGuide",
    VObj [("tone", VStr "Serious and dramatic");
          ("pacing", or_else (prop "pacing" options) (VStr "Balanced"));
          ("pointOfView", VStr "Third person limited");
          ("dialogueFormat", VObj [("signed", VStr "<>");
                                   ("spoken", VStr (dq +:+ dq))])])].

Definition createDrakeConfig (options : list (string * value))
  : list (string * value) :=
  let defaultConfig := defaultConfig options in
  let chapterStructure := prop "chapterStructure" defaultConfig in
  let styleGuide := prop "styleGuide" defaultConfig in
  assoc_set "styleGuide"
    (VObj
       (assoc_set "pacing"
          (or_else (prop "pacing" options) (prop "pacing" (spread styleGuide)))
          (assoc_set "tone"
             (or_else (prop "tone" options) (prop "tone" (spread styleGuide)))
             (spread styleGuide))))
    (assoc_set "chapterStructure"
       (VObj
          (assoc_set "pagesPerChapter"
             (or_else (prop "pagesPerChapter" options)
                      (prop "pagesPerChapter" (spread chapterStructure)))
             (assoc_set "totalChapters"
                (or_else (prop "totalChapters" options)
                         (prop "totalChapters" (spread chapterStructure)))
                (spread chapterStructure))))
       defaultConfig).

End DrakeDefaults.

(** [TemplateLoader] and the two [createDrakeLegacy] scripts. *)
Module TemplateLoader.

Import JS.

(** The property names that every object inherits. *)
Definition Object_prototype : list string :=
  ["constructor"; "__defineGetter__"; "__defineSetter__"; "hasOwnProperty";
   "__lookupGetter__"; "__lookupSetter__"; "isPrototypeOf";
   "propertyIsEnumerable"; "toString"; "valueOf"; "__proto__";
   "toLocaleString"].

(** [v.k] for a name [k] that is no built-in property of strings, arrays
    or sets; [undefined] and [null] have no properties. *)
Definition member (k : string) (v : value) : error + value :=
  match v with
  | VUndefined =>
      inl (TypeError
             ("Cannot read properties of undefined (reading '" +:+ k +:+ "')"))
  | VNull =>
      inl (TypeError
             ("Cannot read properties of null (reading '" +:+ k +:+ "')"))
  | VObj props => inr (prop k props)
  | _ => inr VUndefined
  end.

(** The arguments of a call of [createBookPageByPage]. *)
Record Call := {
  call_theme : value;
  call_chapters : value;
  call_pagesPerChapter : value;
  call_bookName : value
}.

Section WithCreator.

(** What [./templates/drake_legacy.js] exports. *)
Context (createDrakeConfig : list (string * value) -> list (string * value)).

(** What calling a member inherited from [Object.prototype] as a template
    creator does. *)
Context (inherited : string -> list (string * value) -> error + value).

(** [this.templateCreators] has the one key [drake_legacy]; any other
    name is looked up in [Object.prototype]. *)
Definition loadTemplate (templateName : string)
    (config : list (string * value)) : error + value :=
  if String.eqb templateName "drake_legacy" then
    inr (VObj (createDrakeConfig config))
  else if existsb (String.eqb templateName) Object_prototype then
    inherited templateName config
  else inl (Error ("Template " +:+ templateName +:+ " not found")).

Definition initializeBook (templateName : string)
    (config : list (string * value)) : error + value :=
  loadTemplate templateName config.

(** The arguments that a script hands to the controller, with [bookName]
    made from the loaded template. *)
Definition arguments_from (bookName : value -> value) (bookConfig : value)
  : error + Call :=
  match member "metadata" bookConfig with
  | inl e => inl e
  | inr metadata =>
      match member "synopsis" metadata with
      | inl e => inl e
      | inr synopsis =>
          match member "chapterStructure" bookConfig with
          | inl e => inl e
          | inr chapterStructure =>
              match member "totalChapters" chapterStructure with
              | inl e => inl e
              | inr totalChapters =>
                  match member "pagesPerChapter" chapterStructure with
                  | inl e => inl e
                  | inr pagesPerChapter =>
                      inr {| call_theme := synopsis;
                             call_chapters := totalChapters;
                             call_pagesPerChapter := pagesPerChapter;
                             call_bookName := bookName bookConfig |}
                  end
              end
          end
      end
  end.

(** [createDrakeLegacy(options)] up to its call of the controller, in the
    script that names the book [drake_legacy]. *)
Definition createDrakeLegacy (options : list (string * value)) : error + Call :=
  let drakeConfig := createDrakeConfig options in
  match initializeBook "drake_legacy" drakeConfig with
  | inl e => inl e
  | inr bookConfig => arguments_from (fun _ => VStr "drake_legacy") bookConfig
  end.

(** The same in the script that passes the loaded template as the book
    name. *)
Definition createDrakeLegacy' (options : list (string * value)) : error + Call :=
  let drakeConfig := createDrakeConfig options in
  match initializeBook "drake_legacy" drakeConfig with
  | inl e => inl e
  | inr bookConfig => arguments_from (fun bookConfig => bookConfig) bookConfig
  end.

End WithCreator.

End TemplateLoader.

(** [TestMode] and the manager that the unit tests build before each
    test. *)
Module TestMode.

Definition outputPath : string := "tests/output".

Definition getTestOutputPath (bookName : string) : string :=
  outputPath +:+ "/books/" +:+ bookName.

Definition beforeEach : Modular.BookManager :=
  Modular.set_outputPath (getTestOutputPath "test_book")
    (Modular.new_BookManager "test_book").

End TestMode.

(* ================================================================== *)
(** ** Reading a log *)
(* ================================================================== *)

(** The user prompts of the chat requests, oldest first. *)
Definition chat_prompts (l : list Event) : list string :=
  omap (fun ev => match ev with EvChat _ user => Some user | _ => None end) l.

(** The prompts of the image requests. *)
Definition image_prompts (l : list Event) : list string :=
  omap (fun ev => match ev with EvImage p => Some p | _ => None end) l.

(** The checkpoints that reached the disk, oldest first. *)
Definition checkpoints (l : list Event) : list StateDoc :=
  omap (fun ev => match ev with
                  | EvWrite _ (CState d) true => Some d
                  | _ => None
                  end) l.

(** A request to the generation service, text or image. *)
Definition is_generation_call (ev : Event) : bool :=
  match ev with
  | EvChat _ _ | EvImage _ => true
  | _ => false
  end.

Definition is_image_call (ev : Event) : bool :=
  match ev with
  | EvImage _ => true
  | _ => false
  end.

(** [hay.includes(needle)]. *)
Fixpoint contains (needle hay : string) : bool :=
  String.prefix needle hay ||
  match hay with
  | EmptyString => false
  | String _ r => contains needle r
  end.

(** [content[chapter][page]]. *)
Definition page_of (bc : gmap nat (gmap nat string)) (chapter page : nat)
  : option string :=
  bc !! chapter ≫= (.!! page).

(** [error.code === 'ENOENT']. *)
Definition is_not_found (e : error) : bool :=
  match error_code e with
  | Some code => String.eqb code "ENOENT"
  | None => false
  end.

(** A [Map] or a [Set] never holds a key twice. *)
Definition Map_wf {A} (m : list (string * A)) : Prop := NoDup (map fst m).
Definition Set_wf (s : list string) : Prop := NoDup s.

(** A world that keeps the disk and the log of [w] under manager [m]. *)
Definition reopen {Mgr Mgr'} (m : Mgr') (w : World Mgr) : World Mgr' :=
  {| mgr := m; disk := disk w; log := log w |}.


(** [bc'] has what [bc] has in every chapter up to [c]. *)
Definition keeps_chapters (c : nat) (bc bc' : gmap nat (gmap nat string)) : Prop :=
  forall k, k <= c -> bc' !! k = bc !! k.

(** Events that are neither a chat request nor a checkpoint that reached
    the disk. *)
Definition plain (ev : Event) : Prop :=
  match ev with
  | EvChat _ _ => False
  | EvWrite _ (CState _) true => False
  | _ => True
  end.

(** The chat requests of a log satisfy [ok]. *)
Definition chats_are (ok : string -> string -> Prop) (l : list Event) : Prop :=
  Forall (fun ev => match ev with
                    | EvChat system user => ok system user
                    | _ => True
                    end) l.

(** A computation keeps a property of the world. *)
Definition preserves {Mgr A} (I : World Mgr -> Prop) (m : M Mgr A) : Prop :=
  forall w r w', I w -> m w = (r, w') -> I w'.

(** A property holds where the run that starts in [w] ends. *)
Definition reaches {Mgr A} (I : World Mgr -> Prop) (m : M Mgr A)
    (w : World Mgr) : Prop :=
  forall r w', m w = (r, w') -> I w'.

(** What a run resumed from checkpoint [d] maintains, with [c] the
    chapter of the cursor of [d]: the outline is the one of [d]; the
    manager, and every checkpoint written so far, has the content of [d]
    in the chapters up to [c]; every chat request made so far is one that
    [ok] allows. *)
Definition resumed {Mgr} (outline_of : Mgr -> Outline)
    (content_of : Mgr -> gmap nat (gmap nat string))
    (ok : string -> string -> Prop) (d : StateDoc) (w : World Mgr) : Prop :=
  outline_of (mgr w) = doc_outline d /\
  keeps_chapters (lastCompletedChapter (doc_progress d)) (doc_bookContent d)
    (content_of (mgr w)) /\
  Forall (fun d' =>
            keeps_chapters (lastCompletedChapter (doc_progress d))
              (doc_bookContent d) (doc_bookContent d'))
         (checkpoints (log w)) /\
  chats_are ok (log w).

(** The page requests that the modular pipeline may make after resuming
    from a checkpoint with outline [o] and cursor chapter [c]. *)
Definition modular_request (o : Outline) (c : nat) (system user : string)
  : Prop :=
  exists chapter page,
    c < chapter /\ user = Modular.page_prompt chapter page o.

(** The chat requests that the legacy pipeline may make after resuming
    from a checkpoint with cursor chapter [c]: extraction requests, and
    page requests for later chapters. *)
Definition legacy_request (c : nat) (system user : string) : Prop :=
  system = "You are a metadata extractor. Always respond with valid JSON." \/
  exists chapter page previousPages outlineEntry characters plotPoints,
    c < chapter /\
    user = Legacy.pagePrompt chapter page previousPages outlineEntry
             characters plotPoints.

(** [emits], for the run that starts in world [w]. *)
Definition emits_from {Mgr A} (P : Event -> Prop) (m : M Mgr A)
    (w : World Mgr) : Prop :=
  forall r w', m w = (r, w') ->
    exists l, log w' = (log w ++ l)%list /\ Forall P l.

(** The events that [w'] has and [w] had not. *)
Definition new_events {Mgr} (w w' : World Mgr) : list Event :=
  drop (length (log w)) (log w').

(** The texts of the page records of pages [1 .. page - 1] of a chapter
    that are on disk, in increasing page order. *)
Definition saved_texts (d : Disk) (chapter page : nat) : list string :=
  omap (fun p => pd_content <$> page_files d !! (chapter, p))
       (seq 1 (page - 1)).

(** Events that are no request to the generation service. *)
Definition quiet (ev : Event) : Prop := is_generation_call ev = false.

(** Events that are no image request. *)
Definition no_image (ev : Event) : Prop := is_image_call ev = false.

(** Events that are no chat request. *)
Definition no_chat (ev : Event) : Prop :=
  match ev with EvChat _ _ => False | _ => True end.

(** A computation only appends events, all of which satisfy [P]. *)
Definition emits {Mgr A} (P : Event -> Prop) (m : M Mgr A) : Prop :=
  forall w r w', m w = (r, w') ->
    exists l, log w' = (log w ++ l)%list /\ Forall P l.

(** An outcome that is a result. *)
Definition returned {A} (r : outcome A) : Prop :=
  match r with Ret _ => True | _ => False end.

(** An outcome that is a result or a failure: the computation is over. *)
Definition settled {A} (r : outcome A) : Prop :=
  match r with Pending => False | _ => True end.

(** An outcome that is no result. *)
Definition unfinished {A} (r : outcome A) : Prop :=
  match r with Ret _ => False | _ => True end.

(** Wherever it starts, the computation ends in an outcome that [ok]
    accepts. *)
Definition ends_in {Mgr A} (ok : outcome A -> Prop) (m : M Mgr A) : Prop :=
  forall w, ok (m w).1.

(** The service answers every request and no operation on files, on the
    network or on batches fails. *)
Definition obliging (env : Env) : Prop :=
  (forall n system user, exists reply, chat_reply env n system user = inr reply) /\
  (forall n prompt, exists url, image_reply env n prompt = inr url) /\
  (forall n op, fault env n op = None).

(** A progress callback that never throws. *)
Definition silent (callback : option ProgressCallback) : Prop :=
  forall f chapter page, callback = Some f -> f chapter page = None.

(** The paths of the files written with success, oldest first. *)
Definition written (l : list Event) : list string :=
  omap (fun ev => match ev with
                  | EvWrite path _ true => Some path
                  | _ => None
                  end) l.

(** The path of the first write of a page record, attempted or done. *)
Definition page_file (l : list Event) : option string :=
  head (omap (fun ev => match ev with
                        | EvWrite path (CPage _) _ => Some path
                        | _ => None
                        end) l).

(** A string of decimal digits. *)
Definition is_digit (c : ascii) : bool :=
  Nat.leb 48 (nat_of_ascii c) && Nat.leb (nat_of_ascii c) 57.

Fixpoint digits (s : string) : bool :=
  match s with
  | EmptyString => true
  | String c r => is_digit c && digits r
  end.

(** Every write of a log comes right after the successful creation of
    the directory of the file written. *)
Fixpoint prepared_after (prev : option Event) (l : list Event) : bool :=
  match l with
  | [] => true
  | ev :: r =>
      match ev with
      | EvWrite path _ _ =>
          match prev with
          | Some (EvOp (OpMkdir dir) true) => String.eqb dir (JS.dirname path)
          | _ => false
          end
      | _ => true
      end && prepared_after (Some ev) r
  end.

Definition prepared (l : list Event) : Prop := prepared_after None l = true.

(** Every write of a log, attempted or done, has a path and a content
    that [ok] accepts. *)
Definition writes_are (ok : string -> Content -> Prop) (l : list Event) : Prop :=
  Forall (fun ev => match ev with
                    | EvWrite path c _ => ok path c
                    | _ => True
                    end) l.

(** Every file that a log writes or tries to write lies under [root]. *)
Definition inside (root : string) (l : list Event) : Prop :=
  writes_are (fun path _ => String.prefix root path = true) l.

(** The page records that a log writes or tries to write go to [file]. *)
Definition pages_go_to (file : string) (l : list Event) : Prop :=
  writes_are (fun path c => match c with
                            | CPage _ => path = file
                            | _ => True
                            end) l.

(** A computation that starts with a manager satisfying [Inv] ends with
    one that does, and appends to the log events that satisfy [Q]. *)
Definition steps {Mgr A} (Inv : Mgr -> Prop) (Q : list Event -> Prop)
    (m : M Mgr A) : Prop :=
  forall w r w', Inv (mgr w) -> m w = (r, w') ->
    Inv (mgr w') /\ exists l, log w' = (log w ++ l)%list /\ Q l.

(** The characters that the loop of [extractMetadata] reaches: those
    before the first [null]. *)
Fixpoint read_characters (cs : list (option (string * JS.value)))
  : list (string * JS.value) :=
  match cs with
  | Some c :: r => c :: read_characters r
  | _ => []
  end.

(** An element of [characters] that is not [null]. *)
Definition not_null (c : option (string * JS.value)) : bool :=
  match c with
  | Some _ => true
  | None => false
  end.

(** Whether the loop over the characters of a reply runs to its end, and
    whether both loops do. *)
Definition characters_merge (md : Extracted) : bool :=
  match ex_characters md with
  | Falsy => true
  | NotIterable => false
  | Array cs => forallb not_null cs
  end.

Definition merges (md : Extracted) : bool :=
  characters_merge md &&
  match ex_plotPoints md with
  | NotIterable => false
  | _ => true
  end.

(** The characters and the plot points of a reply that the loops merge
    before they end or throw. *)
Definition merged_characters (md : Extracted) : list (string * JS.value) :=
  match ex_characters md with
  | Array cs => read_characters cs
  | _ => []
  end.

Definition merged_plotPoints (md : Extracted) : list string :=
  if characters_merge md then
    match ex_plotPoints md with
    | Array ps => ps
    | _ => []
    end
  else [].

(** The manager once the characters, then the plot points, that the
    loops reach have been merged into it. *)
Definition merge_extracted (md : Extracted) (m : Legacy.BookManager)
  : Legacy.BookManager :=
  fold_left
    (fun m point =>
       Legacy.set_plotPoints (JS.set_add point (Legacy.plotPoints m)) m)
    (merged_plotPoints md)
    (fold_left
       (fun m c =>
          Legacy.set_characters
            (JS.assoc_set c.1
               (Legacy.character_record c.2 (Legacy.currentChapter m))
               (Legacy.characters m)) m)
       (merged_characters md) m).

(** Whatever happens next, the first event that the computation logs is
    the chat request with messages [system] and [user]. *)
Definition opens {Mgr A} (system user : string) (m : M Mgr A) : Prop :=
  forall w, exists l, log (m w).2 = (log w ++ EvChat system user :: l)%list.

(** The page requests of a book of [chapters] chapters of [pages] pages
    written from outline [o], in the order of the book. *)
Definition book_prompts (o : Outline) (first chapters pages : nat) : list string :=
  flat_map (fun chapter =>
              map (fun page => Modular.page_prompt chapter page o)
                  (seq 1 pages))
           (seq first (S chapters - first)).

(** Where a run of the modular controller stands while it writes the
    pages: the manager is [m0] but for its cursor and its content, the
    chat and image requests made so far are [chats] and [images], and the
    pages that [have] names are in the content held by the manager. *)
Definition writing (m0 : Modular.BookManager) (chats images : list string)
    (have : nat -> nat -> Prop) (w : World Modular.BookManager) : Prop :=
  (exists cursor content,
     mgr w = Modular.set_bookContent content
               (Modular.set_progressState cursor m0)) /\
  chat_prompts (log w) = chats /\
  image_prompts (log w) = images /\
  forall chapter page,
    have chapter page ->
    is_Some (page_of (Modular.bookContent (mgr w)) chapter page).

(* ================================================================== *)
(** ** Scenarios *)
(* ================================================================== *)

Module Scenario.

(** A service that always answers and a disk that never fails. *)
Definition calm : Env :=
  {| chat_reply := fun n _ _ => inr ("reply-" +:+ pretty n);
     image_reply := fun _ _ => inr "https://img.example/cover.png";
     fault := fun _ _ => None;
     clock := fun _ => "2024-01-01T00:00:00.000Z";
     parse_extracted := fun _ => None;
     batch_status := fun _ => "completed";
     batch_job := fun _ => ("batch_1", JS.VNull) |}.

(** The service rejects the request for page 2 of chapter 1. *)
Definition interrupted : Env :=
  {| chat_reply := fun n _ user =>
       if contains "page 2 of chapter 1." user
       then inl (APIError "rate limit")
       else inr ("reply-" +:+ pretty n);
     image_reply := image_reply calm;
     fault := fault calm;
     clock := clock calm;
     parse_extracted := parse_extracted calm;
     batch_status := batch_status calm;
     batch_job := batch_job calm |}.


(** The image service is down. *)
Definition no_images : Env :=
  {| chat_reply := chat_reply calm;
     image_reply := fun _ _ => inl (APIError "image service unavailable");
     fault := fault calm;
     clock := clock calm;
     parse_extracted := parse_extracted calm;
     batch_status := batch_status calm;
     batch_job := batch_job calm |}.

(** Every read is refused for lack of permission. *)
Definition unreadable : Env :=
  {| chat_reply := chat_reply calm;
     image_reply := image_reply calm;
     fault := fun _ op =>
       match op with
       | OpRead _ => Some (SystemError "EACCES")
       | _ => None
       end;
     clock := clock calm;
     parse_extracted := parse_extracted calm;
     batch_status := batch_status calm;
     batch_job := batch_job calm |}.

(** A checkpoint left by an earlier run that already has a cover. *)
Definition with_cover : StateDoc :=
  {| doc_progress := {| lastCompletedChapter := 0;
                        lastCompletedPage := 0;
                        status := "not_started" |};
     doc_characters := [];
     doc_plotPoints := [];
     doc_bookContent := ∅;
     doc_outline := OutlineText "An outline.";
     doc_metadata := [("coverImage", "https://img.example/old.png")] |}.

Definition disk_with_cover : Disk :=
  {| state_file := Some with_cover; page_files := ∅ |}.

(** A manager holding a character whose record is plain JSON, and two
    plot points. *)
Definition sample_manager : Modular.BookManager :=
  Modular.restore
    {| doc_progress := {| lastCompletedChapter := 1;
                          lastCompletedPage := 2;
                          status := "in_progress" |};
       doc_characters :=
         [("Ada", JS.VObj [("description", JS.VStr "an engineer");
                           ("firstAppearance", JS.VNum 1);
                           ("appearances", JS.VObj [])])];
       doc_plotPoints := ["the letter"; "the storm"];
       doc_bookContent := {[ 1 := {[ 1 := "page one"; 2 := "page two" ]} ]};
       doc_outline := OutlineText "An outline.";
       doc_metadata := [("coverImage", "https://img.example/old.png")] |}
    (Modular.new_BookManager "book").

Definition sample_legacy_manager : Legacy.BookManager :=
  Legacy.restore (Modular.snapshot sample_manager)
                 (Legacy.new_BookManager "2024-01-01T00:00:00.000Z").

Definition sample_world : World Modular.BookManager :=
  {| mgr := sample_manager; disk := empty_disk; log := [] |}.

Definition sample_legacy_world : World Legacy.BookManager :=
  {| mgr := sample_legacy_manager; disk := empty_disk; log := [] |}.

(** The legacy manager of the sample with the record of page 1 of
    chapter 1 on disk. *)
Definition sample_legacy_world_with_page : World Legacy.BookManager :=
  {| mgr := sample_legacy_manager;
     disk := {| state_file := None;
                page_files :=
                  {[ (1, 1) := {| pd_chapter := 1; pd_page := 1;
                                  pd_content := "Once upon a time.";
                                  pd_timestamp := "2024-01-01T00:00:00.000Z" |} ]} |};
     log := [] |}.


(** A checkpoint taken after chapter 1 of the sample book. *)
Definition disk_after_chapter_one : Disk :=
  {| state_file := Some (Modular.snapshot sample_manager); page_files := ∅ |}.

(** A batch that the service never reports as completed. *)
Definition stalled : Env :=
  {| chat_reply := chat_reply calm;
     image_reply := image_reply calm;
     fault := fault calm;
     clock := clock calm;
     parse_extracted := parse_extracted calm;
     batch_status := fun _ => "failed";
     batch_job := batch_job calm |}.

(** A batch that is reported as completed at the third status request
    after the log has reached length [n]. *)
Definition slow_batch (n : nat) : Env :=
  {| chat_reply := chat_reply calm;
     image_reply := image_reply calm;
     fault := fault calm;
     clock := clock calm;
     parse_extracted := parse_extracted calm;
     batch_status := fun k => if Nat.leb (n + 2) k then "completed" else "in_progress";
     batch_job := batch_job calm |}.

(** The disk refuses to render documents. *)
Definition no_docx : Env :=
  {| chat_reply := chat_reply calm;
     image_reply := image_reply calm;
     fault := fun _ op =>
       match op with
       | OpDocx _ => Some (Error "cannot render")
       | _ => None
       end;
     clock := clock calm;
     parse_extracted := parse_extracted calm;
     batch_status := batch_status calm;
     batch_job := batch_job calm |}.

End Scenario.

(* ================================================================== *)
(** * Properties *)
(* ================================================================== *)

(** ** Objects, [Map] and [Set] *)



Lemma assoc_set_keys {A} (k k' : string) (v : A) (l : list (string * A)) :
  In k' (map fst l) -> In k' (map fst (JS.assoc_set k v l)).
Proof.
  induction l as [|[k0 v0] r IH]; simpl; [tauto|].
  intros [<-|Hin]; destruct (String.eqb_spec k k0) as [->|Hk]; simpl; auto.
Qed.

Lemma assoc_set_fresh {A} (k : string) (v : A) (l : list (string * A)) :
  ~ In k (map fst l) -> JS.assoc_set k v l = (l ++ [(k, v)])%list.
Proof.
  induction l as [|[k0 v0] r IH]; simpl; intros Hnin; [reflexivity|].
  destruct (String.eqb_spec k k0) as [->|Hk]; [tauto|].
  rewrite IH; [reflexivity | tauto].
Qed.

Lemma assoc_set_keys_inv {A} (k k' : string) (v : A) (l : list (string * A)) :
  In k' (map fst (JS.assoc_set k v l)) -> k' = k \/ In k' (map fst l).
Proof.
  induction l as [|[k0 v0] r IH]; simpl.
  - intros [<-|[]]; auto.
  - destruct (String.eqb_spec k k0) as [->|Hk]; simpl.
    + intros [<-|Hin]; auto.
    + intros [<-|Hin]; auto. destruct (IH Hin); auto.
Qed.

Lemma assoc_set_wf {A} (k : string) (v : A) (l : list (string * A)) :
  Map_wf l -> Map_wf (JS.assoc_set k v l).
Proof.
  unfold Map_wf. induction l as [|[k0 v0] r IH]; simpl; intros Hnd.
  - repeat constructor. intros Hin; inversion Hin.
  - apply NoDup_cons in Hnd as [Hnin Hnd].
    destruct (String.eqb_spec k k0) as [->|Hk]; simpl.
    + apply NoDup_cons; split; assumption.
    + apply NoDup_cons; split; [|auto].
      rewrite list_elem_of_In in *. intros Hin.
      apply assoc_set_keys_inv in Hin as [->|Hin]; tauto.
Qed.

Lemma Map_from_acc {A} (l acc : list (string * A)) :
  NoDup (map fst (acc ++ l)) ->
  fold_left (fun m kv => JS.assoc_set kv.1 kv.2 m) l acc = (acc ++ l)%list.
Proof.
  revert acc. induction l as [|[k v] r IH]; intros acc Hnd; simpl.
  - now rewrite app_nil_r.
  - rewrite assoc_set_fresh.
    + rewrite IH; rewrite <- app_assoc; [reflexivity | exact Hnd].
    + rewrite map_app in Hnd. simpl in Hnd.
      apply NoDup_app in Hnd as (_ & Hdisj & _).
      intros Hin. apply (Hdisj k); [now apply list_elem_of_In | left].
Qed.

(** [new Map(Array.from(m.entries()))] is [m]. *)
Lemma Map_from_entries {A} (m : list (string * A)) :
  Map_wf m -> JS.Map_from m = m.
Proof. intros Hwf. unfold JS.Map_from. now rewrite Map_from_acc. Qed.

Lemma Map_from_wf {A} (l : list (string * A)) : Map_wf (JS.Map_from l).
Proof.
  unfold JS.Map_from.
  assert (Hgen : forall acc, Map_wf acc ->
            Map_wf (fold_left (fun m kv => JS.assoc_set kv.1 kv.2 m) l acc)).
  { induction l as [|[k v] r IH]; intros acc Hacc; simpl; [assumption|].
    apply IH. now apply assoc_set_wf. }
  apply Hgen. constructor.
Qed.

Lemma existsb_eqb_In (x : string) (s : list string) :
  existsb (String.eqb x) s = true <-> In x s.
Proof.
  rewrite existsb_exists. split.
  - intros (y & Hin & Heq). apply String.eqb_eq in Heq. now subst.
  - intros Hin. exists x. split; [assumption | apply String.eqb_refl].
Qed.

Lemma set_add_fresh (x : string) (s : list string) :
  ~ In x s -> JS.set_add x s = (s ++ [x])%list.
Proof.
  intros Hnin. unfold JS.set_add.
  destruct (existsb (String.eqb x) s) eqn:E; [|reflexivity].
  apply existsb_eqb_In in E. contradiction.
Qed.

Lemma set_add_wf (x : string) (s : list string) :
  Set_wf s -> Set_wf (JS.set_add x s).
Proof.
  unfold Set_wf, JS.set_add. intros Hnd.
  destruct (existsb (String.eqb x) s) eqn:E; [assumption|].
  apply NoDup_app. repeat split; [assumption | | apply NoDup_singleton].
  intros y Hy Hin. apply list_elem_of_singleton in Hin as ->.
  apply list_elem_of_In, existsb_eqb_In in Hy. congruence.
Qed.

Lemma Set_from_acc (l acc : list string) :
  NoDup (acc ++ l) ->
  fold_left (fun s x => JS.set_add x s) l acc = (acc ++ l)%list.
Proof.
  revert acc. induction l as [|x r IH]; intros acc Hnd; simpl.
  - now rewrite app_nil_r.
  - rewrite set_add_fresh.
    + rewrite IH; rewrite <- app_assoc; [reflexivity | exact Hnd].
    + apply NoDup_app in Hnd as (_ & Hdisj & _).
      intros Hin. apply (Hdisj x); [now apply list_elem_of_In | left].
Qed.

(** [new Set(Array.from(s))] is [s]. *)
Lemma Set_from_elements (s : list string) : Set_wf s -> JS.Set_from s = s.
Proof. intros Hwf. unfold JS.Set_from. now rewrite Set_from_acc. Qed.

Lemma Set_from_wf (l : list string) : Set_wf (JS.Set_from l).
Proof.
  unfold JS.Set_from.
  assert (Hgen : forall acc, Set_wf acc ->
            Set_wf (fold_left (fun s x => JS.set_add x s) l acc)).
  { induction l as [|x r IH]; intros acc Hacc; simpl; [assumption|].
    apply IH. now apply set_add_wf. }
  apply Hgen. constructor.
Qed.

(** JSON data survives serialisation unchanged. *)
Lemma json_roundtrip_serializable :
  forall v, JS.serializable v = true -> JS.json_roundtrip v = v.
Proof.
  fix IH 1.
  intros [ | | b | n | s | xs | ps | xs]; simpl;
    try reflexivity; try discriminate.
  - intros H. f_equal.
    induction xs as [|x r IHr]; simpl in *; [reflexivity|].
    apply andb_prop in H as [Hx Hr].
    rewrite (IHr Hr). f_equal.
    rewrite (IH x Hx). destruct x; try reflexivity; discriminate.
  - intros H. f_equal.
    induction ps as [|[k x] r IHr]; simpl in *; [reflexivity|].
    apply andb_prop in H as [Hx Hr].
    rewrite (IHr Hr), (IH x Hx).
    destruct x; try reflexivity; discriminate.
Qed.

Lemma snapshot_characters_serializable (cs : list (string * JS.value)) :
  Forall (fun kv => JS.serializable kv.2 = true) cs ->
  map (fun kv => (kv.1, JS.json_roundtrip kv.2)) cs = cs.
Proof.
  induction 1 as [|[k v] r Hv _ IH]; simpl; [reflexivity|].
  simpl in Hv. now rewrite IH, json_roundtrip_serializable.
Qed.

(** ** Writing and reading the checkpoint *)

Lemma checkpoints_app (l1 l2 : list Event) :
  checkpoints (l1 ++ l2) = (checkpoints l1 ++ checkpoints l2)%list.
Proof. apply omap_app. Qed.

Ltac unfold_monad :=
  unfold rethrow, try_catch, bind, ret, throw, get_mgr, modify_mgr, now,
    perform, fs_writeFile, fs_read_state, chat, images_generate in *.

(** A checkpoint write of the modular manager either stores the snapshot
    of the manager or fails and leaves the disk as it was; the manager is
    untouched in both cases. *)
Lemma Modular_saveState_cases env (w : World Modular.BookManager) :
  exists r w',
    Modular.saveState env w = (r, w') /\ mgr w' = mgr w /\
    ((r = Ret tt /\
      disk w' = {| state_file := Some (Modular.snapshot (mgr w));
                   page_files := page_files (disk w) |} /\
      checkpoints (log w')
        = (checkpoints (log w) ++ [Modular.snapshot (mgr w)])%list) \/
     (exists e, r = Throw e /\ disk w' = disk w /\
                checkpoints (log w') = checkpoints (log w))).
Proof.
  unfold Modular.saveState, Modular.StateManager_saveState, Modular.writeFile,
    Modular.createDirectory.
  unfold_monad.
  destruct (fault env (length (log w)) _) as [e|] eqn:Hmk; simpl.
  - eexists _, _. split; [reflexivity|]. split; [reflexivity|].
    right. exists e. simpl. rewrite checkpoints_app, app_nil_r. auto.
  - destruct (fault env _ (OpWrite _)) as [e|] eqn:Hwr; simpl.
    + eexists _, _. split; [reflexivity|]. split; [reflexivity|].
      right. exists e. simpl. rewrite !checkpoints_app, !app_nil_r. auto.
    + eexists _, _. split; [reflexivity|]. split; [reflexivity|].
      left. simpl. rewrite !checkpoints_app, app_nil_r. auto.
Qed.

Lemma Legacy_saveState_cases env (w : World Legacy.BookManager) :
  exists r w',
    Legacy.saveState env w = (r, w') /\ mgr w' = mgr w /\
    ((r = Ret tt /\
      disk w' = {| state_file := Some (Legacy.snapshot (mgr w));
                   page_files := page_files (disk w) |} /\
      checkpoints (log w')
        = (checkpoints (log w) ++ [Legacy.snapshot (mgr w)])%list) \/
     (exists e, r = Throw e /\ disk w' = disk w /\
                checkpoints (log w') = checkpoints (log w))).
Proof.
  unfold Legacy.saveState. unfold_monad.
  destruct (fault env (length (log w)) _) as [e|] eqn:Hwr; simpl.
  - eexists _, _. split; [reflexivity|]. split; [reflexivity|].
    right. exists e. simpl. rewrite checkpoints_app, app_nil_r. auto.
  - eexists _, _. split; [reflexivity|]. split; [reflexivity|].
    left. simpl. rewrite checkpoints_app. auto.
Qed.

(** Restoring the snapshot of a manager gives back its saved fields. *)
Lemma Modular_restore_snapshot (m m0 : Modular.BookManager) :
  Forall (fun kv => JS.serializable kv.2 = true) (Modular.characters m) ->
  Map_wf (Modular.characters m) ->
  Set_wf (Modular.plotPoints m) ->
  Modular.progressState (Modular.restore (Modular.snapshot m) m0) = Modular.progressState m /\
  Modular.bookContent (Modular.restore (Modular.snapshot m) m0) = Modular.bookContent m /\
  Modular.outline (Modular.restore (Modular.snapshot m) m0) = Modular.outline m /\
  Modular.metadata (Modular.restore (Modular.snapshot m) m0) = Modular.metadata m /\
  Modular.characters (Modular.restore (Modular.snapshot m) m0) = Modular.characters m /\
  Modular.plotPoints (Modular.restore (Modular.snapshot m) m0) = Modular.plotPoints m.
Proof.
  intros Hser Hmap Hset. simpl.
  rewrite snapshot_characters_serializable by assumption.
  rewrite Map_from_entries, Set_from_elements by assumption.
  repeat split.
Qed.

Lemma Legacy_restore_snapshot (m m0 : Legacy.BookManager) :
  Forall (fun kv => JS.serializable kv.2 = true) (Legacy.characters m) ->
  Map_wf (Legacy.characters m) ->
  Set_wf (Legacy.plotPoints m) ->
  Legacy.progressState (Legacy.restore (Legacy.snapshot m) m0) = Legacy.progressState m /\
  Legacy.bookContent (Legacy.restore (Legacy.snapshot m) m0) = Legacy.bookContent m /\
  Legacy.outline (Legacy.restore (Legacy.snapshot m) m0) = Legacy.outline m /\
  Legacy.metadata (Legacy.restore (Legacy.snapshot m) m0) = Legacy.metadata m /\
  Legacy.characters (Legacy.restore (Legacy.snapshot m) m0) = Legacy.characters m /\
  Legacy.plotPoints (Legacy.restore (Legacy.snapshot m) m0) = Legacy.plotPoints m.
Proof.
  intros Hser Hmap Hset. simpl.
  rewrite snapshot_characters_serializable by assumption.
  rewrite Map_from_entries, Set_from_elements by assumption.
  repeat split.
Qed.

(** C10. When the character records are plain JSON, [saveState] followed
    by [loadState] in a fresh manager restores [progress], [bookContent],
    [outline] and [metadata] to the values saved, the character [Map] with
    the same entries and the plot-point [Set] with the same elements, in
    the modular manager and in the legacy one alike. The [Map] and the
    [Set] are well formed, as JavaScript keeps them. *)
Theorem save_load_roundtrip (env : Env) :
  (forall (w w1 : World Modular.BookManager),
     Forall (fun kv => JS.serializable kv.2 = true) (Modular.characters (mgr w)) ->
     Map_wf (Modular.characters (mgr w)) ->
     Set_wf (Modular.plotPoints (mgr w)) ->
     Modular.saveState env w = (Ret tt, w1) ->
     fault env (length (log w1))
       (OpRead (Modular.statePath (Modular.bookName (mgr w)))) = None ->
     exists w2,
       Modular.loadState env
         (reopen (Modular.new_BookManager (Modular.bookName (mgr w))) w1)
       = (Ret true, w2) /\
       Modular.progressState (mgr w2) = Modular.progressState (mgr w) /\
       Modular.bookContent (mgr w2) = Modular.bookContent (mgr w) /\
       Modular.outline (mgr w2) = Modular.outline (mgr w) /\
       Modular.metadata (mgr w2) = Modular.metadata (mgr w) /\
       Modular.characters (mgr w2) = Modular.characters (mgr w) /\
       Modular.plotPoints (mgr w2) = Modular.plotPoints (mgr w)) /\
  (forall (w w1 : World Legacy.BookManager) (stamp : string),
     Forall (fun kv => JS.serializable kv.2 = true) (Legacy.characters (mgr w)) ->
     Map_wf (Legacy.characters (mgr w)) ->
     Set_wf (Legacy.plotPoints (mgr w)) ->
     Legacy.saveState env w = (Ret tt, w1) ->
     fault env (length (log w1)) (OpRead "book_state.json") = None ->
     exists w2,
       Legacy.loadState env (reopen (Legacy.new_BookManager stamp) w1)
       = (Ret true, w2) /\
       Legacy.progressState (mgr w2) = Legacy.progressState (mgr w) /\
       Legacy.bookContent (mgr w2) = Legacy.bookContent (mgr w) /\
       Legacy.outline (mgr w2) = Legacy.outline (mgr w) /\
       Legacy.metadata (mgr w2) = Legacy.metadata (mgr w) /\
       Legacy.characters (mgr w2) = Legacy.characters (mgr w) /\
       Legacy.plotPoints (mgr w2) = Legacy.plotPoints (mgr w)).
Proof.
  split.
  - intros w w1 Hser Hmap Hset Hsave Hread.
    destruct (Modular_saveState_cases env w) as (r & w' & Heq & _ & Hcases).
    rewrite Hsave in Heq. injection Heq as <- <-.
    destruct Hcases as [(_ & Hdisk & _) | (e & He & _)]; [|discriminate].
    unfold Modular.loadState, Modular.StateManager_loadState,
      Modular.readFile_state, reopen.
    unfold_monad. simpl. rewrite Hread, Hdisk. simpl.
    eexists. split; [reflexivity|]. cbn [mgr].
    now apply Modular_restore_snapshot.
  - intros w w1 stamp Hser Hmap Hset Hsave Hread.
    destruct (Legacy_saveState_cases env w) as (r & w' & Heq & _ & Hcases).
    rewrite Hsave in Heq. injection Heq as <- <-.
    destruct Hcases as [(_ & Hdisk & _) | (e & He & _)]; [|discriminate].
    unfold Legacy.loadState, reopen.
    unfold_monad. simpl. rewrite Hread, Hdisk. simpl.
    eexists. split; [reflexivity|]. cbn [mgr].
    now apply Legacy_restore_snapshot.
Qed.

Lemma save_load_roundtrip_witness :
  (exists w2,
     Modular.loadState Scenario.calm
       (reopen (Modular.new_BookManager "book")
               (Modular.saveState Scenario.calm Scenario.sample_world).2)
     = (Ret true, w2) /\
     Modular.progressState (mgr w2) = Modular.progressState Scenario.sample_manager /\
     Modular.bookContent (mgr w2) = Modular.bookContent Scenario.sample_manager /\
     Modular.outline (mgr w2) = Modular.outline Scenario.sample_manager /\
     Modular.metadata (mgr w2) = Modular.metadata Scenario.sample_manager /\
     Modular.characters (mgr w2) = Modular.characters Scenario.sample_manager /\
     Modular.plotPoints (mgr w2) = Modular.plotPoints Scenario.sample_manager) /\
  (exists w2,
     Legacy.loadState Scenario.calm
       (reopen (Legacy.new_BookManager "2024-02-02T00:00:00.000Z")
               (Legacy.saveState Scenario.calm Scenario.sample_legacy_world).2)
     = (Ret true, w2) /\
     Legacy.progressState (mgr w2) = Legacy.progressState Scenario.sample_legacy_manager /\
     Legacy.bookContent (mgr w2) = Legacy.bookContent Scenario.sample_legacy_manager /\
     Legacy.outline (mgr w2) = Legacy.outline Scenario.sample_legacy_manager /\
     Legacy.metadata (mgr w2) = Legacy.metadata Scenario.sample_legacy_manager /\
     Legacy.characters (mgr w2) = Legacy.characters Scenario.sample_legacy_manager /\
     Legacy.plotPoints (mgr w2) = Legacy.plotPoints Scenario.sample_legacy_manager).
Proof.
  split.
  - apply (proj1 (save_load_roundtrip Scenario.calm) Scenario.sample_world).
    + repeat constructor.
    + apply Map_from_wf.
    + apply Set_from_wf.
    + vm_compute. reflexivity.
    + reflexivity.
  - apply (proj2 (save_load_roundtrip Scenario.calm) Scenario.sample_legacy_world).
    + repeat constructor.
    + apply Map_from_wf.
    + apply Set_from_wf.
    + vm_compute. reflexivity.
    + reflexivity.
Defined.

(** ** Loading a checkpoint *)

(** C9, as the code has it. In the modular checkpoint store a read that
    fails with code [ENOENT] yields the absent result ([null] from
    [StateManager.loadState], [false] from [BookManager.loadState]) and no
    error, a missing file being one such failure; a read failure of any
    other cause is raised unchanged. The legacy [loadState] answers
    [false] to every read failure. *)
Theorem loadState_read_failure (env : Env) (e : error) :
  (forall name (w w' : World Modular.BookManager),
     fs_read_state env (Modular.statePath name) w = (Throw e, w') ->
     Modular.StateManager_loadState env name w
       = ((if is_not_found e then Ret None else Throw e), w') /\
     (name = Modular.bookName (mgr w) ->
      Modular.loadState env w
        = ((if is_not_found e then Ret false else Throw e), w'))) /\
  (forall name (w : World Modular.BookManager),
     state_file (disk w) = None ->
     fault env (length (log w)) (OpRead (Modular.statePath name)) = None ->
     Modular.StateManager_loadState env name w
       = (Ret None, emit (EvOp (OpRead (Modular.statePath name)) false) w)) /\
  (forall (w w' : World Legacy.BookManager),
     fs_read_state env "book_state.json" w = (Throw e, w') ->
     Legacy.loadState env w = (Ret false, w')).
Proof.
  split; [|split].
  - intros name w w' Hread.
    assert (Hsm : Modular.StateManager_loadState env name w
                  = ((if is_not_found e then Ret None else Throw e), w')).
    { unfold Modular.StateManager_loadState, Modular.readFile_state,
        rethrow, try_catch, bind, throw, ret, is_not_found.
      rewrite Hread.
      destruct (error_code e) as [code|]; [|reflexivity].
      destruct (String.eqb code "ENOENT"); reflexivity. }
    split; [exact Hsm|].
    intros ->. unfold Modular.loadState, bind, get_mgr.
    rewrite Hsm. destruct (is_not_found e); reflexivity.
  - intros name w Hnone Hfault.
    unfold Modular.StateManager_loadState, Modular.readFile_state,
      rethrow, try_catch, bind, throw, ret, fs_read_state.
    rewrite Hfault, Hnone. reflexivity.
  - intros w w' Hread.
    unfold Legacy.loadState, try_catch, bind, ret.
    rewrite Hread. reflexivity.
Qed.

Lemma loadState_read_failure_witness :
  (Modular.StateManager_loadState Scenario.unreadable "book"
     (Modular.start "book" Scenario.disk_with_cover)).1
    = Throw (SystemError "EACCES") /\
  (Modular.StateManager_loadState Scenario.calm "book"
     (Modular.start "book" empty_disk)).1 = Ret None /\
  (Legacy.loadState Scenario.unreadable
     (Legacy.start Scenario.unreadable Scenario.disk_with_cover)).1 = Ret false.
Proof.
  split; [|split].
  - rewrite (proj1 (proj1 (loadState_read_failure Scenario.unreadable
                             (SystemError "EACCES")) "book"
                          (Modular.start "book" Scenario.disk_with_cover) _
                          eq_refl)).
    reflexivity.
  - rewrite (proj1 (proj2 (loadState_read_failure Scenario.calm
                             (SystemError "ENOENT"))) "book"
                   (Modular.start "book" empty_disk) eq_refl eq_refl).
    reflexivity.
  - rewrite (proj2 (proj2 (loadState_read_failure Scenario.unreadable
                             (SystemError "EACCES")))
                   (Legacy.start Scenario.unreadable Scenario.disk_with_cover) _
                   eq_refl).
    reflexivity.
Defined.

(** C9 as stated fails on the legacy manager: the checkpoint exists, the
    read is refused with [EACCES], and [loadState] reports [false] as if
    there were no checkpoint; the error does not reach the caller. *)
Lemma legacy_loadState_hides_read_failure :
  state_file Scenario.disk_with_cover = Some Scenario.with_cover /\
  (fs_read_state Scenario.unreadable "book_state.json"
     (Legacy.start Scenario.unreadable Scenario.disk_with_cover)).1
    = Throw (SystemError "EACCES") /\
  (Legacy.loadState Scenario.unreadable
     (Legacy.start Scenario.unreadable Scenario.disk_with_cover)).1 = Ret false.
Proof. repeat split. Qed.

(** ** The batch manager *)

(** C4. Whatever its argument, [processBatchResults] throws the
    [TypeError] of the call to the missing [super.processBatchResults]
    and leaves the world as it found it: no request is made, nothing is
    merged into the manager and nothing is written. *)
Theorem processBatchResults_always_throws (env : Env)
    (inherited : JS.value -> M Legacy.BookManager (list Legacy.BatchResult))
    (resultFileId : JS.value) (w : World Legacy.BookManager) :
  Legacy.processBatchResults env inherited resultFileId w
  = (Throw (TypeError
              "(intermediate value).processBatchResults is not a function"),
     w).
Proof.
  unfold Legacy.processBatchResults, bind.
  replace (Legacy.super_has "processBatchResults") with false
    by (vm_compute; reflexivity).
  reflexivity.
Qed.

(** ** The character table *)


(** The record of a character whose details are a text: one property for
    each UTF-16 code unit of the text, here [n] and [e] with an acute
    accent, which is two bytes. *)
Example character_record_of_text :
  let e_acute := String (ascii_of_nat 195) (String (ascii_of_nat 169) EmptyString) in
  Legacy.character_record (JS.VStr ("n" +:+ e_acute)) 2
  = JS.VObj [("0", JS.VStr "n"); ("1", JS.VStr e_acute);
             ("firstAppearance", JS.VNum 2);
             ("appearances", JS.VSet [JS.VNum 2])].
Proof. reflexivity. Qed.




(** ** Failures in a controller *)





(** ** What a computation adds to the log *)

Section Emits.
Context {Mgr : Type} (P : Event -> Prop).

Lemma emits_ret {A} (a : A) : emits (Mgr:=Mgr) P (ret a).
Proof.
  intros w r w' H. injection H as <- <-.
  exists []. now rewrite app_nil_r.
Qed.

Lemma emits_throw {A} (e : error) : emits (Mgr:=Mgr) (A:=A) P (throw e).
Proof.
  intros w r w' H. injection H as <- <-.
  exists []. now rewrite app_nil_r.
Qed.

Lemma emits_pending {A} : emits (Mgr:=Mgr) (A:=A) P pending.
Proof.
  intros w r w' H. injection H as <- <-.
  exists []. now rewrite app_nil_r.
Qed.

Lemma emits_get_mgr : emits (Mgr:=Mgr) P get_mgr.
Proof.
  intros w r w' H. injection H as <- <-.
  exists []. now rewrite app_nil_r.
Qed.

Lemma emits_modify_mgr (f : Mgr -> Mgr) : emits P (modify_mgr f).
Proof.
  intros w r w' H. injection H as <- <-.
  exists []. simpl. now rewrite app_nil_r.
Qed.

Lemma emits_now env : emits (Mgr:=Mgr) P (now env).
Proof.
  intros w r w' H. injection H as <- <-.
  exists []. now rewrite app_nil_r.
Qed.

Lemma emits_bind {A B} (m : M Mgr A) (k : A -> M Mgr B) :
  emits P m -> (forall a, emits P (k a)) -> emits P (bind m k).
Proof.
  intros Hm Hk w r w' H. unfold bind in H.
  destruct (m w) as [[a|e|] w1] eqn:E; destruct (Hm _ _ _ E) as (l1 & Hl1 & HP1).
  - destruct (Hk a _ _ _ H) as (l2 & Hl2 & HP2).
    exists (l1 ++ l2)%list. rewrite Hl2, Hl1, app_assoc.
    split; [reflexivity | now apply Forall_app].
  - injection H as <- <-. eauto.
  - injection H as <- <-. eauto.
Qed.

Lemma emits_try_catch {A} (m : M Mgr A) (h : error -> M Mgr A) :
  emits P m -> (forall e, emits P (h e)) -> emits P (try_catch m h).
Proof.
  intros Hm Hh w r w' H. unfold try_catch in H.
  destruct (m w) as [[a|e|] w1] eqn:E; destruct (Hm _ _ _ E) as (l1 & Hl1 & HP1).
  - injection H as <- <-. eauto.
  - destruct (Hh e _ _ _ H) as (l2 & Hl2 & HP2).
    exists (l1 ++ l2)%list. rewrite Hl2, Hl1, app_assoc.
    split; [reflexivity | now apply Forall_app].
  - injection H as <- <-. eauto.
Qed.

Lemma emits_rethrow {A} (m : M Mgr A) : emits P m -> emits P (rethrow m).
Proof.
  intros Hm. apply emits_try_catch; [assumption|]. intros e. apply emits_throw.
Qed.

Lemma emits_for_each {A} (xs : list A) (body : A -> M Mgr unit) :
  (forall x, emits P (body x)) -> emits P (for_each xs body).
Proof.
  intros Hbody. induction xs as [|x r IH]; simpl.
  - apply emits_ret.
  - apply emits_bind; [apply Hbody | intros _; exact IH].
Qed.

Lemma emits_for_range (lo hi : nat) (body : nat -> M Mgr unit) :
  (forall x, emits P (body x)) -> emits P (for_range lo hi body).
Proof. intros Hbody. now apply emits_for_each. Qed.

Lemma emits_collect {A B} (xs : list A) (f : A -> M Mgr (option B)) :
  (forall x, emits P (f x)) -> emits P (collect xs f).
Proof.
  intros Hf. induction xs as [|x r IH]; simpl.
  - apply emits_ret.
  - apply emits_bind; [apply Hf | intros o].
    apply emits_bind; [exact IH | intros rest; apply emits_ret].
Qed.

Lemma emits_one {A} (m : M Mgr A) (ev : World Mgr -> Event) :
  (forall w, P (ev w)) ->
  (forall w r w', m w = (r, w') -> log w' = (log w ++ [ev w])%list) ->
  emits P m.
Proof.
  intros HP Hm w r w' H. exists [ev w]. split; [eauto | repeat constructor; auto].
Qed.

Lemma emits_call_progress (cb : option ProgressCallback) (chapter page : nat) :
  P (EvCallback chapter page) -> emits (Mgr:=Mgr) P (call_progress cb chapter page).
Proof.
  intros HP. destruct cb as [f|]; simpl; [|apply emits_ret].
  apply (emits_one _ (fun _ => EvCallback chapter page)); [auto|].
  intros w r w' H. destruct (f chapter page); injection H as <- <-; reflexivity.
Qed.

Lemma emits_perform env (op : Op) :
  (forall ok, P (EvOp op ok)) -> emits (Mgr:=Mgr) P (perform env op).
Proof.
  intros HP w r w' H. unfold perform in H.
  destruct (fault env _ _); injection H as <- <-;
    eexists [_]; (split; [reflexivity | repeat constructor; apply HP]).
Qed.

Lemma emits_fs_writeFile env (path : string) (c : Content) :
  (forall ok, P (EvWrite path c ok)) -> emits (Mgr:=Mgr) P (fs_writeFile env path c).
Proof.
  intros HP w r w' H. unfold fs_writeFile in H.
  destruct (fault env _ _); injection H as <- <-;
    eexists [_]; (split; [|repeat constructor; apply HP]);
    [reflexivity | destruct c; reflexivity].
Qed.

Lemma emits_fs_read_state env (path : string) :
  (forall ok, P (EvOp (OpRead path) ok)) ->
  emits (Mgr:=Mgr) P (fs_read_state env path).
Proof.
  intros HP w r w' H. unfold fs_read_state in H.
  destruct (fault env _ _); [|destruct (state_file _)];
    injection H as <- <-;
    eexists [_]; (split; [reflexivity | repeat constructor; apply HP]).
Qed.

Lemma emits_fs_read_page env (path : string) (chapter page : nat) :
  (forall ok, P (EvOp (OpRead path) ok)) ->
  emits (Mgr:=Mgr) P (fs_read_page env path chapter page).
Proof.
  intros HP w r w' H. unfold fs_read_page in H.
  destruct (fault env _ _); [|destruct (page_files _ !! _)];
    injection H as <- <-;
    eexists [_]; (split; [reflexivity | repeat constructor; apply HP]).
Qed.

Lemma emits_chat env (system user : string) :
  P (EvChat system user) -> emits (Mgr:=Mgr) P (chat env system user).
Proof.
  intros HP w r w' H. unfold chat in H.
  destruct (chat_reply env _ _ _); injection H as <- <-;
    eexists [_]; (split; [reflexivity | repeat constructor; apply HP]).
Qed.

Lemma emits_images_generate env (prompt : string) :
  P (EvImage prompt) -> emits (Mgr:=Mgr) P (images_generate env prompt).
Proof.
  intros HP w r w' H. unfold images_generate in H.
  destruct (image_reply env _ _); injection H as <- <-;
    eexists [_]; (split; [reflexivity | repeat constructor; apply HP]).
Qed.

End Emits.

Lemma emits_weaken {Mgr A} (P Q : Event -> Prop) (m : M Mgr A) :
  (forall ev, P ev -> Q ev) -> emits P m -> emits Q m.
Proof.
  intros HPQ Hm w r w' H. destruct (Hm _ _ _ H) as (l & Hl & HP).
  exists l. split; [assumption|]. eapply Forall_impl; eauto.
Qed.


Lemma quiet_no_image (ev : Event) : quiet ev -> no_image ev.
Proof. destruct ev; unfold quiet, no_image; simpl; congruence. Qed.

Lemma quiet_no_chat (ev : Event) : quiet ev -> no_chat ev.
Proof. destruct ev; unfold quiet, no_chat; simpl; auto; discriminate. Qed.

Create HintDb emits.

Ltac emits_step :=
  lazymatch goal with
  | |- emits _ (bind _ _) => apply emits_bind; [|intros ?]
  | |- emits _ (try_catch _ _) => apply emits_try_catch; [|intros ?]
  | |- emits _ (rethrow _) => apply emits_rethrow
  | |- emits _ (ret _) => apply emits_ret
  | |- emits _ (throw _) => apply emits_throw
  | |- emits _ pending => apply emits_pending
  | |- emits _ get_mgr => apply emits_get_mgr
  | |- emits _ (modify_mgr _) => apply emits_modify_mgr
  | |- emits _ (now _) => apply emits_now
  | |- emits _ (for_each _ _) => apply emits_for_each; intros ?
  | |- emits _ (for_range _ _ _) => apply emits_for_range; intros ?
  | |- emits _ (collect _ _) => apply emits_collect; intros ?
  | |- emits _ (call_progress _ _ _) => apply emits_call_progress
  | |- emits _ (perform _ _) => apply emits_perform; intros ?
  | |- emits _ (fs_writeFile _ _ _) => apply emits_fs_writeFile; intros ?
  | |- emits _ (fs_read_state _ _) => apply emits_fs_read_state; intros ?
  | |- emits _ (fs_read_page _ _ _ _) => apply emits_fs_read_page; intros ?
  | |- emits _ (chat _ _ _) => apply emits_chat
  | |- emits _ (images_generate _ _) => apply emits_images_generate
  | |- emits _ (if ?b then _ else _) => destruct b
  | |- emits _ (match ?x with _ => _ end) => destruct x
  | |- emits _ (let _ := _ in _) => cbv zeta
  | |- quiet _ => reflexivity
  | |- no_image _ => reflexivity
  | |- no_chat _ => exact I
  | |- plain _ => exact I
  end.

Ltac emits_auto :=
  repeat first
    [ solve [auto with emits]
    | solve [apply (emits_weaken quiet no_image);
             [exact quiet_no_image | auto with emits]]
    | solve [apply (emits_weaken quiet no_chat);
             [exact quiet_no_chat | auto with emits]]
    | emits_step ].

(** *** The modular manager *)

Lemma Modular_createDirectory_quiet env dirPath :
  emits quiet (Modular.createDirectory env dirPath).
Proof. unfold Modular.createDirectory. emits_auto. Qed.
#[export] Hint Resolve Modular_createDirectory_quiet : emits.

Lemma Modular_writeFile_quiet env filePath content :
  emits quiet (Modular.writeFile env filePath content).
Proof. unfold Modular.writeFile. emits_auto. Qed.
#[export] Hint Resolve Modular_writeFile_quiet : emits.

Lemma Modular_StateManager_loadState_quiet env name :
  emits quiet (Modular.StateManager_loadState env name).
Proof.
  unfold Modular.StateManager_loadState, Modular.readFile_state. emits_auto.
Qed.
#[export] Hint Resolve Modular_StateManager_loadState_quiet : emits.

Lemma Modular_ensureDirectories_quiet env :
  emits quiet (Modular.ensureDirectories env).
Proof. unfold Modular.ensureDirectories. emits_auto. Qed.
#[export] Hint Resolve Modular_ensureDirectories_quiet : emits.

Lemma Modular_saveState_quiet env : emits quiet (Modular.saveState env).
Proof.
  unfold Modular.saveState, Modular.StateManager_saveState. emits_auto.
Qed.
#[export] Hint Resolve Modular_saveState_quiet : emits.

Lemma Modular_saveProgress_quiet env content chapter page :
  emits quiet (Modular.saveProgress env content chapter page).
Proof.
  unfold Modular.saveProgress, Modular.createDocxDocument. emits_auto.
Qed.
#[export] Hint Resolve Modular_saveProgress_quiet : emits.

Lemma Modular_loadState_quiet env : emits quiet (Modular.loadState env).
Proof. unfold Modular.loadState. emits_auto. Qed.
#[export] Hint Resolve Modular_loadState_quiet : emits.

Lemma Modular_compileBook_quiet env : emits quiet (Modular.compileBook env).
Proof.
  unfold Modular.compileBook, Modular.compileJSON, Modular.compileDOCX.
  emits_auto.
Qed.
#[export] Hint Resolve Modular_compileBook_quiet : emits.

Lemma Modular_saveCoverImage_quiet env url :
  emits quiet (Modular.saveCoverImage env url).
Proof. unfold Modular.saveCoverImage. emits_auto. Qed.
#[export] Hint Resolve Modular_saveCoverImage_quiet : emits.

Lemma Modular_generate_unit_no_image env callback chapter page :
  emits no_image (Modular.generate_unit env callback chapter page).
Proof. unfold Modular.generate_unit. emits_auto. Qed.
#[export] Hint Resolve Modular_generate_unit_no_image : emits.

(** *** The legacy manager *)

Lemma Legacy_saveProgress_quiet env content chapter page :
  emits quiet (Legacy.saveProgress env content chapter page).
Proof. unfold Legacy.saveProgress, Legacy.saveAsDocx. emits_auto. Qed.
#[export] Hint Resolve Legacy_saveProgress_quiet : emits.

Lemma Legacy_loadProgress_quiet env chapter page :
  emits quiet (Legacy.loadProgress env chapter page).
Proof. unfold Legacy.loadProgress. emits_auto. Qed.
#[export] Hint Resolve Legacy_loadProgress_quiet : emits.

Lemma Legacy_previous_pages_quiet env chapter page :
  emits quiet (Legacy.previous_pages env chapter page).
Proof. unfold Legacy.previous_pages. emits_auto. Qed.
#[export] Hint Resolve Legacy_previous_pages_quiet : emits.

Lemma Legacy_compileBook_quiet env : emits quiet (Legacy.compileBook env).
Proof.
  unfold Legacy.compileBook, Legacy.generateTableOfContents. emits_auto.
Qed.
#[export] Hint Resolve Legacy_compileBook_quiet : emits.

Lemma Legacy_saveState_quiet env : emits quiet (Legacy.saveState env).
Proof. unfold Legacy.saveState. emits_auto. Qed.
#[export] Hint Resolve Legacy_saveState_quiet : emits.

Lemma Legacy_loadState_quiet env : emits quiet (Legacy.loadState env).
Proof. unfold Legacy.loadState. emits_auto. Qed.
#[export] Hint Resolve Legacy_loadState_quiet : emits.

Lemma Legacy_createOutline_no_image env theme length :
  emits no_image (Legacy.createOutline env theme length).
Proof. unfold Legacy.createOutline, Legacy.saveOutline. emits_auto. Qed.
#[export] Hint Resolve Legacy_createOutline_no_image : emits.

Lemma Legacy_extractMetadata_no_image env content :
  emits no_image (Legacy.extractMetadata env content).
Proof. unfold Legacy.extractMetadata, Legacy.addCharacter. emits_auto. Qed.
#[export] Hint Resolve Legacy_extractMetadata_no_image : emits.

Lemma Legacy_generate_unit_no_image env chapter page :
  emits no_image (Legacy.generate_unit env chapter page).
Proof. unfold Legacy.generate_unit, Legacy.generatePage. emits_auto. Qed.
#[export] Hint Resolve Legacy_generate_unit_no_image : emits.

Lemma Legacy_generateChapterPages_no_image env chapter pagesPerChapter :
  emits no_image (Legacy.generateChapterPages env chapter pagesPerChapter).
Proof. unfold Legacy.generateChapterPages. emits_auto. Qed.
#[export] Hint Resolve Legacy_generateChapterPages_no_image : emits.

Lemma emits_from_all {Mgr A} (P : Event -> Prop) (m : M Mgr A) (w : World Mgr) :
  emits P m -> emits_from P m w.
Proof. intros Hm r w' H. eauto. Qed.

Lemma emits_from_bind {Mgr A B} (P : Event -> Prop) (m : M Mgr A)
    (k : A -> M Mgr B) (w : World Mgr) :
  emits_from P m w ->
  (forall a w1, m w = (Ret a, w1) -> emits_from P (k a) w1) ->
  emits_from P (bind m k) w.
Proof.
  intros Hm Hk r w' H. unfold bind in H.
  destruct (m w) as [[a|e|] w1] eqn:E; destruct (Hm _ _ E) as (l1 & Hl1 & HP1).
  - destruct (Hk a w1 eq_refl _ _ H) as (l2 & Hl2 & HP2).
    exists (l1 ++ l2)%list. rewrite Hl2, Hl1, app_assoc.
    split; [reflexivity | now apply Forall_app].
  - injection H as <- <-. eauto.
  - injection H as <- <-. eauto.
Qed.

Lemma emits_from_try_catch {Mgr A} (P : Event -> Prop) (m : M Mgr A)
    (h : error -> M Mgr A) (w : World Mgr) :
  emits_from P m w -> (forall e, emits P (h e)) ->
  emits_from P (try_catch m h) w.
Proof.
  intros Hm Hh r w' H. unfold try_catch in H.
  destruct (m w) as [[a|e|] w1] eqn:E; destruct (Hm _ _ E) as (l1 & Hl1 & HP1).
  - injection H as <- <-. eauto.
  - destruct (Hh e _ _ _ H) as (l2 & Hl2 & HP2).
    exists (l1 ++ l2)%list. rewrite Hl2, Hl1, app_assoc.
    split; [reflexivity | now apply Forall_app].
  - injection H as <- <-. eauto.
Qed.

(** ** The cover *)

(** Creating directories touches neither the manager nor the files. *)
Lemma Modular_ensureDirectories_frame env (w w' : World Modular.BookManager) r :
  Modular.ensureDirectories env w = (r, w') ->
  mgr w' = mgr w /\ disk w' = disk w.
Proof.
  unfold Modular.ensureDirectories, Modular.createDirectory. simpl.
  unfold_monad.
  repeat (match goal with
          | |- context [fault ?e ?n ?o] => destruct (fault e n o)
          end; simpl);
    intros H; injection H as <- <-; split; reflexivity.
Qed.

(** With a checkpoint on disk that can be read, [loadState] restores it. *)
Lemma Modular_loadState_found env (w : World Modular.BookManager) d :
  state_file (disk w) = Some d ->
  fault env (length (log w))
    (OpRead (Modular.statePath (Modular.bookName (mgr w)))) = None ->
  exists w', Modular.loadState env w = (Ret true, w') /\
             mgr w' = Modular.restore d (mgr w).
Proof.
  intros Hd Hf.
  unfold Modular.loadState, Modular.StateManager_loadState,
    Modular.readFile_state.
  unfold_monad. simpl. rewrite Hf, Hd. simpl. eauto.
Qed.

Lemma Legacy_loadState_found env (w : World Legacy.BookManager) d :
  state_file (disk w) = Some d ->
  fault env (length (log w)) (OpRead "book_state.json") = None ->
  exists w', Legacy.loadState env w = (Ret true, w') /\
             mgr w' = Legacy.restore d (mgr w).
Proof.
  intros Hd Hf. unfold Legacy.loadState.
  unfold_monad. simpl. rewrite Hf, Hd. simpl. eauto.
Qed.

(** X1. The sequential controllers honour a cover that the checkpoint
    already has: when the checkpoint read at start-up carries a non-empty
    [coverImage], the run makes no image request, whatever else happens. *)
Lemma sequential_run_keeps_cover (env : Env) (theme : string)
    (chapters pagesPerChapter : nat) (callback : option ProgressCallback)
    (d : StateDoc) :
  JS.truthy (JS.assoc_get "coverImage" (doc_metadata d)) = true ->
  (forall name dk,
     state_file dk = Some d ->
     (forall n, fault env n (OpRead (Modular.statePath name)) = None) ->
     Forall no_image
       (log (Modular.createBookPageByPage env theme chapters pagesPerChapter
               callback (Modular.start name dk)).2)) /\
  (forall dk,
     state_file dk = Some d ->
     (forall n, fault env n (OpRead "book_state.json") = None) ->
     Forall no_image
       (log (Legacy.createBookPageByPage env theme chapters pagesPerChapter
               callback (Legacy.start env dk)).2)).
Proof.
  intros Hcover. split.
  - intros name dk Hdk Hread.
    set (w0 := Modular.start name dk).
    assert (Hfrom : emits_from no_image
              (Modular.createBookPageByPage env theme chapters pagesPerChapter
                 callback) w0).
    { unfold Modular.createBookPageByPage.
      apply emits_from_try_catch; [|intros e; emits_auto].
      unfold Modular.createBookPageByPage_try.
      apply emits_from_bind; [apply emits_from_all; emits_auto|].
      intros [] w1 H1. apply Modular_ensureDirectories_frame in H1 as [Hm1 Hd1].
      destruct (Modular_loadState_found env w1 d) as (w2 & Hload & Hm2).
      { now rewrite Hd1. }
      { rewrite Hm1. apply Hread. }
      apply emits_from_bind; [apply emits_from_all; emits_auto|].
      intros b w2' Hb. rewrite Hload in Hb. injection Hb as <- <-.
      apply emits_from_bind; [apply emits_from_all; emits_auto|].
      intros [] w3 H3. injection H3 as <-.
      apply emits_from_bind; [apply emits_from_all; emits_auto|].
      intros m w4 H4. injection H4 as <- <-.
      rewrite Hm2. simpl Modular.metadata. rewrite Hcover. simpl negb.
      apply emits_from_all. emits_auto. }
    destruct (Modular.createBookPageByPage env theme chapters pagesPerChapter
                callback w0) as [r w'] eqn:E.
    destruct (Hfrom _ _ E) as (l & Hl & HP). simpl. now rewrite Hl.
  - intros dk Hdk Hread.
    set (w0 := Legacy.start env dk).
    assert (Hfrom : emits_from no_image
              (Legacy.createBookPageByPage env theme chapters pagesPerChapter
                 callback) w0).
    { unfold Legacy.createBookPageByPage.
      apply emits_from_try_catch; [|intros e; emits_auto].
      unfold Legacy.createBookPageByPage_try.
      destruct (Legacy_loadState_found env w0 d) as (w2 & Hload & Hm2);
        [assumption | apply Hread |].
      apply emits_from_bind; [apply emits_from_all; emits_auto|].
      intros b w2' Hb. rewrite Hload in Hb. injection Hb as <- <-.
      apply emits_from_bind; [apply emits_from_all; emits_auto|].
      intros [] w3 H3. injection H3 as <-.
      apply emits_from_bind; [apply emits_from_all; emits_auto|].
      intros m w4 H4. injection H4 as <- <-.
      rewrite Hm2. simpl Legacy.metadata. rewrite Hcover. simpl negb.
      apply emits_from_all. emits_auto. }
    destruct (Legacy.createBookPageByPage env theme chapters pagesPerChapter
                callback w0) as [r w'] eqn:E.
    destruct (Hfrom _ _ E) as (l & Hl & HP). simpl. now rewrite Hl.
Qed.

(** ** The prompt of a generation unit *)

Lemma chat_prompts_app (l1 l2 : list Event) :
  chat_prompts (l1 ++ l2) = (chat_prompts l1 ++ chat_prompts l2)%list.
Proof. apply omap_app. Qed.

Lemma chat_prompts_no_chat (l : list Event) :
  Forall no_chat l -> chat_prompts l = [].
Proof.
  induction 1 as [|ev l Hev _ IH]; [reflexivity|].
  destruct ev; simpl in *; try assumption. contradiction.
Qed.

Lemma Legacy_read_back env chapter p (w : World Legacy.BookManager) :
  (forall n path, fault env n (OpRead path) = None) ->
  exists ev,
    (do prevPage <- Legacy.loadProgress env chapter p;
     ret (pd_content <$> prevPage)) w
      = (Ret (pd_content <$> page_files (disk w) !! (chapter, p)), emit ev w) /\
    quiet ev.
Proof.
  intros Hread.
  unfold Legacy.loadProgress, try_catch, bind, ret, fs_read_page.
  rewrite Hread.
  destruct (page_files (disk w) !! (chapter, p)) as [d|]; simpl;
    eexists; split; reflexivity.
Qed.

(** Reading back the earlier pages of a chapter, when no read is refused:
    the texts found on disk, in page order; nothing else changes. *)
Lemma Legacy_previous_pages_spec env chapter page (w : World Legacy.BookManager) :
  (forall n path, fault env n (OpRead path) = None) ->
  exists w1 l,
    Legacy.previous_pages env chapter page w
      = (Ret (saved_texts (disk w) chapter page), w1) /\
    mgr w1 = mgr w /\ disk w1 = disk w /\
    log w1 = (log w ++ l)%list /\ Forall quiet l.
Proof.
  intros Hread. unfold Legacy.previous_pages, saved_texts.
  generalize (seq 1 (page - 1)) as ps. intros ps. revert w.
  induction ps as [|p ps IH]; intros w; simpl.
  - exists w, []. rewrite app_nil_r. repeat split. constructor.
  - destruct (Legacy_read_back env chapter p w Hread) as (ev & Hstep & Hev).
    unfold bind at 1. rewrite Hstep.
    destruct (IH (emit ev w)) as (w1 & l & Hc & Hm & Hd & Hl & Hq).
    unfold bind at 1. rewrite Hc. simpl in *.
    exists w1, (ev :: l).
    split; [|split; [assumption|split; [assumption|split]]].
    + unfold ret. destruct (page_files (disk w) !! (chapter, p)); reflexivity.
    + rewrite Hl, <- app_assoc. reflexivity.
    + constructor; assumption.
Qed.

(** C5, as the code has it. The two pipelines build different prompts.
    In the modular pipeline a unit whose progress callback does not throw
    makes one chat request, which carries the page number, the chapter
    number and the whole outline, and nothing of the earlier pages, the
    characters or the plot points. In the legacy pipeline, when no read is
    refused, the first chat request of a unit is the page template filled,
    in this order, with the texts of the page records of pages
    [1 .. page - 1] of the chapter found on disk, joined by newlines; a
    text for the outline of the chapter, which the statement leaves open;
    the JSON of the character entries; and the JSON of the plot points. *)
Theorem unit_prompt (env : Env) (chapter page : nat) :
  (forall callback (w w' : World Modular.BookManager) r,
     (forall f, callback = Some f -> f chapter page = None) ->
     Modular.generate_unit env callback chapter page w = (r, w') ->
     chat_prompts (new_events w w')
       = [Modular.page_prompt chapter page (Modular.outline (mgr w))]) /\
  (forall (w w' : World Legacy.BookManager) r,
     (forall n path, fault env n (OpRead path) = None) ->
     Legacy.generate_unit env chapter page w = (r, w') ->
     exists entry,
       head (chat_prompts (new_events w w'))
         = Some (Legacy.pagePrompt chapter page
                   (JS.join JS.newline (saved_texts (disk w) chapter page))
                   entry
                   (JS.JSON_stringify
                      (JS.entries_value (Legacy.characters (mgr w))))
                   (JS.JSON_stringify
                      (JS.strings_value (Legacy.plotPoints (mgr w)))))).
Proof.
  split.
  - intros callback w w' r Hcb Hrun.
    unfold Modular.generate_unit in Hrun. unfold bind at 1 in Hrun.
    assert (Hcall : exists w1 l0,
              call_progress callback chapter page w = (Ret tt, w1) /\
              mgr w1 = mgr w /\ log w1 = (log w ++ l0)%list /\
              chat_prompts l0 = []).
    { destruct callback as [f|]; simpl.
      - rewrite (Hcb f eq_refl). eexists _, [_]. repeat split.
      - exists w, []. rewrite app_nil_r. repeat split. }
    destruct Hcall as (w1 & l0 & Hcall & Hm1 & Hl1 & Hc0).
    rewrite Hcall in Hrun. unfold bind at 1, get_mgr in Hrun.
    unfold bind at 1, chat in Hrun. rewrite Hm1 in Hrun.
    destruct (chat_reply env _ _ _) as [e|content].
    + injection Hrun as <- <-.
      unfold new_events. simpl log.
      rewrite Hl1, <- app_assoc, drop_app_length, chat_prompts_app, Hc0.
      reflexivity.
    + assert (Hrest : emits quiet
                (run Modular.saveProgress env content chapter page;
                 modify_mgr (fun m =>
                   Modular.set_bookContent
                     (record_page chapter page content (Modular.bookContent m))
                     m))) by emits_auto.
      destruct (Hrest _ _ _ Hrun) as (l3 & Hl3 & Hq3).
      unfold new_events. rewrite Hl3. simpl log.
      rewrite Hl1, <- !app_assoc, drop_app_length, !chat_prompts_app, Hc0.
      simpl. rewrite chat_prompts_no_chat; [reflexivity|].
      eapply Forall_impl; [exact Hq3 | exact quiet_no_chat].
  - intros w w' r Hread Hrun.
    exists (Legacy.outline_entry (Legacy.outline (mgr w)) chapter).
    unfold Legacy.generate_unit in Hrun. unfold bind at 1 in Hrun.
    destruct (Legacy_previous_pages_spec env chapter page w Hread)
      as (w1 & l0 & Hprev & Hm1 & Hd1 & Hl1 & Hq0).
    rewrite Hprev in Hrun.
    unfold bind at 1, Legacy.generatePage in Hrun.
    unfold bind at 1, get_mgr, chat in Hrun. rewrite Hm1 in Hrun.
    assert (Hc0 : chat_prompts l0 = []).
    { apply chat_prompts_no_chat.
      eapply Forall_impl; [exact Hq0 | exact quiet_no_chat]. }
    destruct (chat_reply env _ _ _) as [e|content].
    + injection Hrun as <- <-.
      unfold new_events. simpl log.
      rewrite Hl1, <- app_assoc, drop_app_length, chat_prompts_app, Hc0.
      reflexivity.
    + assert (Hrest : emits (fun _ => True)
                (run Legacy.saveProgress env content chapter page;
                 run modify_mgr (fun m =>
                       Legacy.set_bookContent
                         (record_page chapter page content (Legacy.bookContent m))
                         m);
                 do _ <- Legacy.extractMetadata env content;
                 ret tt)).
      { apply (emits_weaken no_image); [auto | emits_auto]. }
      destruct (Hrest _ _ _ Hrun) as (l3 & Hl3 & _).
      unfold new_events. rewrite Hl3. simpl log.
      rewrite Hl1, <- !app_assoc, drop_app_length, !chat_prompts_app, Hc0.
      reflexivity.
Qed.

Lemma unit_prompt_witness :
  chat_prompts
    (new_events Scenario.sample_world
       (Modular.generate_unit Scenario.calm None 1 2 Scenario.sample_world).2)
  = ["Write page 2 of chapter 1. Use the following outline as context: An outline."] /\
  (exists entry,
     head (chat_prompts
             (new_events Scenario.sample_legacy_world_with_page
                (Legacy.generate_unit Scenario.calm 1 2
                   Scenario.sample_legacy_world_with_page).2))
     = Some (Legacy.pagePrompt 1 2 "Once upon a time." entry
               ("[[" +:+ JS.dq +:+ "Ada" +:+ JS.dq +:+ ",{" +:+
                JS.dq +:+ "description" +:+ JS.dq +:+ ":" +:+
                JS.dq +:+ "an engineer" +:+ JS.dq +:+ "," +:+
                JS.dq +:+ "firstAppearance" +:+ JS.dq +:+ ":1," +:+
                JS.dq +:+ "appearances" +:+ JS.dq +:+ ":{}}]]")
               ("[" +:+ JS.dq +:+ "the letter" +:+ JS.dq +:+ "," +:+
                JS.dq +:+ "the storm" +:+ JS.dq +:+ "]"))).
Proof.
  split.
  - apply (proj1 (unit_prompt Scenario.calm 1 2) None Scenario.sample_world
             (Modular.generate_unit Scenario.calm None 1 2 Scenario.sample_world).2
             (Modular.generate_unit Scenario.calm None 1 2 Scenario.sample_world).1).
    + intros f Hf. discriminate Hf.
    + apply surjective_pairing.
  - apply (proj2 (unit_prompt Scenario.calm 1 2)
             Scenario.sample_legacy_world_with_page
             (Legacy.generate_unit Scenario.calm 1 2
                Scenario.sample_legacy_world_with_page).2
             (Legacy.generate_unit Scenario.calm 1 2
                Scenario.sample_legacy_world_with_page).1).
    + intros n path. reflexivity.
    + apply surjective_pairing.
Defined.

(** C5 as stated fails on the modular pipeline: in a run that starts
    from a checkpoint with an outline and a cover, the request for page 2
    of chapter 1 consists of the two numbers and the outline; the text of
    page 1, generated just before, is not part of it. *)
Lemma modular_prompt_omits_previous_page :
  let r := Modular.createBookPageByPage Scenario.calm "a lighthouse keeper"
             1 2 None (Modular.start "book" Scenario.disk_with_cover) in
  page_of (Modular.bookContent (mgr r.2)) 1 1 = Some "reply-6" /\
  chat_prompts (log r.2) !! 1
    = Some "Write page 2 of chapter 1. Use the following outline as context: An outline." /\
  contains "reply-6"
    "Write page 2 of chapter 1. Use the following outline as context: An outline."
    = false.
Proof. vm_compute. repeat split. Qed.

(** ** Resuming *)

(** C1 on an interrupted chapter. The call on the empty directory gets
    the outline and stops at the download of the cover. The first run
    after it is stopped by the service at page 2 of chapter 1 and leaves
    the checkpoint at chapter 1, page 1. The second run, on the disk the
    first one left, asks for the two pages of chapter 2 and finishes:
    page 2 of chapter 1 is never generated. *)
Theorem resume_skips_rest_of_interrupted_chapter :
  let opening := Modular.createBookPageByPage Scenario.calm
                   "a lighthouse keeper" 2 2 None
                   (Modular.start "book" empty_disk) in
  let first := Modular.createBookPageByPage Scenario.interrupted
                 "a lighthouse keeper" 2 2 None
                 (Modular.start "book" (disk opening.2)) in
  let second := Modular.createBookPageByPage Scenario.calm
                  "a lighthouse keeper" 2 2 None
                  (Modular.start "book" (disk first.2)) in
  opening.1 = Throw (TypeError "response.buffer is not a function") /\
  chat_prompts (log first.2)
    = ["Write page 1 of chapter 1. Use the following outline as context: reply-6";
       "Write page 2 of chapter 1. Use the following outline as context: reply-6"] /\
  first.1 = Throw (APIError "rate limit") /\
  doc_progress <$> state_file (disk first.2)
    = Some {| lastCompletedChapter := 1; lastCompletedPage := 1;
              status := "in_progress" |} /\
  chat_prompts (log second.2)
    = ["Write page 1 of chapter 2. Use the following outline as context: reply-6";
       "Write page 2 of chapter 2. Use the following outline as context: reply-6"] /\
  (exists result, second.1 = Ret result) /\
  page_of (Modular.bookContent (mgr second.2)) 1 1 = Some "reply-6" /\
  page_of (Modular.bookContent (mgr second.2)) 1 2 = None.
Proof.
  vm_compute. repeat split. eexists. reflexivity.
Qed.

(** ** Checkpoints during a run *)

(** C2 on a run of one chapter of two pages. The call on the empty
    directory gets the outline and stops at the download of the cover;
    the run after it, on the disk that this call left, writes the book.
    Three checkpoints of that run reach the disk. The two written by
    [saveProgress] carry the cursor of the page just generated and a
    content map without that page; only the checkpoint at the end of the
    chapter has the page its cursor names. *)
Theorem page_checkpoint_lacks_its_page :
  let opening := Modular.createBookPageByPage Scenario.calm
                   "a lighthouse keeper" 1 2 None
                   (Modular.start "book" empty_disk) in
  let r := Modular.createBookPageByPage Scenario.calm "a lighthouse keeper"
             1 2 None (Modular.start "book" (disk opening.2)) in
  opening.1 = Throw (TypeError "response.buffer is not a function") /\
  (exists result, r.1 = Ret result) /\
  map (fun d =>
         (lastCompletedChapter (doc_progress d),
          lastCompletedPage (doc_progress d),
          page_of (doc_bookContent d)
            (lastCompletedChapter (doc_progress d))
            (lastCompletedPage (doc_progress d))))
      (checkpoints (log r.2))
  = [(1, 1, None); (1, 2, None); (1, 2, Some "reply-20")].
Proof. vm_compute. repeat split. eexists. reflexivity. Qed.

(** C8 on a batch run. The checkpoint on disk has a cover, [loadState]
    restores it, and the run still asks the image service for a cover. *)
Theorem batch_run_requests_cover_again
    (inherited : JS.value -> M Legacy.BookManager (list Legacy.BatchResult)) :
  let w0 := Legacy.start Scenario.calm Scenario.disk_with_cover in
  let loaded := Legacy.loadState Scenario.calm w0 in
  let r := Legacy.createBookWithBatch Scenario.calm inherited 3
             "a lighthouse keeper" 2 "en" w0 in
  loaded.1 = Ret true /\
  JS.assoc_get "coverImage" (Legacy.metadata (mgr loaded.2))
    = Some "https://img.example/old.png" /\
  image_prompts (log r.2)
    = ["Create a professional book cover for: a lighthouse keeper"].
Proof. vm_compute. repeat split. Qed.

(** ** What a computation keeps *)

Section Preserves.
Context {Mgr : Type} (Inv : World Mgr -> Prop).
Hypothesis Hemit : forall ev w, plain ev -> Inv w -> Inv (emit ev w).
Hypothesis Hdisk :
  forall w dk, Inv w -> Inv {| mgr := mgr w; disk := dk; log := log w |}.

Lemma preserves_ret {A} (a : A) : preserves Inv (ret a).
Proof. intros w r w' HI H. injection H as <- <-. exact HI. Qed.

Lemma preserves_throw {A} (e : error) : preserves (A:=A) Inv (throw e).
Proof. intros w r w' HI H. injection H as <- <-. exact HI. Qed.

Lemma preserves_get_mgr : preserves Inv get_mgr.
Proof. intros w r w' HI H. injection H as <- <-. exact HI. Qed.

Lemma preserves_now env : preserves Inv (now env).
Proof. intros w r w' HI H. injection H as <- <-. exact HI. Qed.

Lemma preserves_bind {A B} (m : M Mgr A) (k : A -> M Mgr B) :
  preserves Inv m -> (forall a, preserves Inv (k a)) -> preserves Inv (bind m k).
Proof.
  intros Hm Hk w r w' HI H. unfold bind in H.
  destruct (m w) as [[a|e|] w1] eqn:E; pose proof (Hm _ _ _ HI E) as H1.
  - exact (Hk a _ _ _ H1 H).
  - now injection H as <- <-.
  - now injection H as <- <-.
Qed.

Lemma preserves_try_catch {A} (m : M Mgr A) (h : error -> M Mgr A) :
  preserves Inv m -> (forall e, preserves Inv (h e)) -> preserves Inv (try_catch m h).
Proof.
  intros Hm Hh w r w' HI H. unfold try_catch in H.
  destruct (m w) as [[a|e|] w1] eqn:E; pose proof (Hm _ _ _ HI E) as H1.
  - now injection H as <- <-.
  - exact (Hh e _ _ _ H1 H).
  - now injection H as <- <-.
Qed.

Lemma preserves_rethrow {A} (m : M Mgr A) : preserves Inv m -> preserves Inv (rethrow m).
Proof.
  intros Hm. apply preserves_try_catch; [assumption|].
  intros e. apply preserves_throw.
Qed.

Lemma preserves_for_each {A} (xs : list A) (body : A -> M Mgr unit) :
  (forall x, In x xs -> preserves Inv (body x)) -> preserves Inv (for_each xs body).
Proof.
  induction xs as [|x r IH]; simpl; intros Hbody.
  - apply preserves_ret.
  - apply preserves_bind; [apply Hbody; now left|].
    intros _. apply IH. intros y Hy. apply Hbody. now right.
Qed.

Lemma preserves_for_range (lo hi : nat) (body : nat -> M Mgr unit) :
  (forall x, lo <= x -> preserves Inv (body x)) ->
  preserves Inv (for_range lo hi body).
Proof.
  intros Hbody. apply preserves_for_each. intros x Hx.
  apply Hbody. apply in_seq in Hx. lia.
Qed.

Lemma preserves_call_progress (cb : option ProgressCallback) (chapter page : nat) :
  preserves Inv (call_progress cb chapter page).
Proof.
  destruct cb as [f|]; simpl; [|apply preserves_ret].
  intros w r w' HI H.
  destruct (f chapter page); injection H as <- <-; now apply Hemit.
Qed.

Lemma preserves_perform env (op : Op) : preserves Inv (perform env op).
Proof.
  intros w r w' HI H. unfold perform in H.
  destruct (fault env _ _); injection H as <- <-; now apply Hemit.
Qed.

Lemma preserves_fs_writeFile env (path : string) (c : Content) :
  (forall d, c <> CState d) -> preserves Inv (fs_writeFile env path c).
Proof.
  intros Hc w r w' HI H. unfold fs_writeFile in H.
  destruct (fault env _ _); injection H as <- <-.
  - apply Hemit; [destruct c; exact I | exact HI].
  - apply Hemit.
    + destruct c as [d| |]; [now destruct (Hc d) | exact I | exact I].
    + destruct c as [d| |]; [now destruct (Hc d) | now apply Hdisk | exact HI].
Qed.

Lemma preserves_images_generate env (prompt : string) :
  preserves Inv (images_generate env prompt).
Proof.
  intros w r w' HI H. unfold images_generate in H.
  destruct (image_reply env _ _); injection H as <- <-; now apply Hemit.
Qed.

Lemma preserves_modify_mgr (f : Mgr -> Mgr) :
  (forall w, Inv w -> Inv {| mgr := f (mgr w); disk := disk w; log := log w |}) ->
  preserves Inv (modify_mgr f).
Proof. intros Hf w r w' HI H. injection H as <- <-. now apply Hf. Qed.

Lemma preserves_chat env (system user : string) :
  (forall w, Inv w -> Inv (emit (EvChat system user) w)) ->
  preserves Inv (chat env system user).
Proof.
  intros Hc w r w' HI H. unfold chat in H.
  destruct (chat_reply env _ _ _); injection H as <- <-; now apply Hc.
Qed.

Lemma preserves_fs_read_state env (path : string) :
  preserves Inv (fs_read_state env path).
Proof.
  intros w r w' HI H. unfold fs_read_state in H.
  destruct (fault env _ _); [|destruct (state_file _)];
    injection H as <- <-; now apply Hemit.
Qed.

Lemma preserves_fs_read_page env (path : string) (chapter page : nat) :
  preserves Inv (fs_read_page env path chapter page).
Proof.
  intros w r w' HI H. unfold fs_read_page in H.
  destruct (fault env _ _); [|destruct (page_files _ !! _)];
    injection H as <- <-; now apply Hemit.
Qed.

Lemma preserves_collect {A B} (xs : list A) (f : A -> M Mgr (option B)) :
  (forall x, preserves Inv (f x)) -> preserves Inv (collect xs f).
Proof.
  intros Hf. induction xs as [|x r IH]; simpl.
  - apply preserves_ret.
  - apply preserves_bind; [apply Hf | intros o].
    apply preserves_bind; [exact IH | intros rest; apply preserves_ret].
Qed.

Lemma reaches_preserves {A} (m : M Mgr A) (w : World Mgr) :
  preserves Inv m -> Inv w -> reaches Inv m w.
Proof. intros Hm HI r w' H. exact (Hm _ _ _ HI H). Qed.

Lemma reaches_bind {A B} (m : M Mgr A) (k : A -> M Mgr B) (w : World Mgr) :
  reaches Inv m w ->
  (forall a w1, m w = (Ret a, w1) -> reaches Inv (k a) w1) ->
  reaches Inv (bind m k) w.
Proof.
  intros Hm Hk r w' H. unfold bind in H.
  destruct (m w) as [[a|e|] w1] eqn:E; pose proof (Hm _ _ E) as H1.
  - exact (Hk a w1 eq_refl _ _ H).
  - now injection H as <- <-.
  - now injection H as <- <-.
Qed.

Lemma reaches_try_catch {A} (m : M Mgr A) (h : error -> M Mgr A) (w : World Mgr) :
  reaches Inv m w -> (forall e, preserves Inv (h e)) ->
  reaches Inv (try_catch m h) w.
Proof.
  intros Hm Hh r w' H. unfold try_catch in H.
  destruct (m w) as [[a|e|] w1] eqn:E; pose proof (Hm _ _ E) as H1.
  - now injection H as <- <-.
  - exact (Hh e _ _ _ H1 H).
  - now injection H as <- <-.
Qed.

End Preserves.

Section Resumed.
Context {Mgr : Type} (outline_of : Mgr -> Outline)
  (content_of : Mgr -> gmap nat (gmap nat string))
  (ok : string -> string -> Prop) (d : StateDoc).

Lemma resumed_emit (ev : Event) (w : World Mgr) :
  plain ev ->
  resumed outline_of content_of ok d w ->
  resumed outline_of content_of ok d (emit ev w).
Proof.
  intros Hev (Ho & Hc & Hcp & Hch). unfold resumed. simpl.
  split; [assumption|]. split; [assumption|]. split.
  - rewrite checkpoints_app.
    replace (checkpoints [ev]) with (@nil StateDoc);
      [now rewrite app_nil_r|].
    destruct ev as [| | |path [d'| |] [|]|]; try reflexivity. destruct Hev.
  - apply Forall_app. split; [assumption|].
    constructor; [|constructor]. destruct ev; try exact I. destruct Hev.
Qed.

Lemma resumed_disk (w : World Mgr) (dk : Disk) :
  resumed outline_of content_of ok d w ->
  resumed outline_of content_of ok d
    {| mgr := mgr w; disk := dk; log := log w |}.
Proof. intros H. exact H. Qed.

Lemma resumed_mgr (w : World Mgr) (m' : Mgr) :
  outline_of m' = outline_of (mgr w) ->
  (forall k, k <= lastCompletedChapter (doc_progress d) ->
             content_of m' !! k = content_of (mgr w) !! k) ->
  resumed outline_of content_of ok d w ->
  resumed outline_of content_of ok d
    {| mgr := m'; disk := disk w; log := log w |}.
Proof.
  intros Ho' Hc' (Ho & Hc & Hcp & Hch). unfold resumed. simpl.
  split; [congruence|]. split; [|split; assumption].
  intros k Hk. rewrite Hc' by assumption. now apply Hc.
Qed.

Lemma resumed_chat (system user : string) (w : World Mgr) :
  ok system user ->
  resumed outline_of content_of ok d w ->
  resumed outline_of content_of ok d (emit (EvChat system user) w).
Proof.
  intros Hok (Ho & Hc & Hcp & Hch). unfold resumed. simpl.
  split; [assumption|]. split; [assumption|]. split.
  - rewrite checkpoints_app. simpl. now rewrite app_nil_r.
  - apply Forall_app. split; [assumption|]. repeat constructor. exact Hok.
Qed.

Lemma resumed_checkpoint (path : string) (d' : StateDoc) (w : World Mgr) :
  keeps_chapters (lastCompletedChapter (doc_progress d)) (doc_bookContent d)
    (doc_bookContent d') ->
  resumed outline_of content_of ok d w ->
  resumed outline_of content_of ok d
    (emit (EvWrite path (CState d') true) (store (CState d') w)).
Proof.
  intros Hd' (Ho & Hc & Hcp & Hch). unfold resumed. simpl.
  split; [assumption|]. split; [assumption|]. split.
  - rewrite checkpoints_app. simpl. apply Forall_app. split; [assumption|].
    repeat constructor. exact Hd'.
  - apply Forall_app. split; [assumption|]. repeat constructor.
Qed.

End Resumed.

(** One step of a proof of [preserves]; [emit_tac], [disk_tac] and
    [mgr_tac] show that the property survives a plain event, a change of
    the disk and a change of the manager that is plainly harmless. *)
Ltac preserves_step emit_tac disk_tac mgr_tac :=
  lazymatch goal with
  | |- preserves _ (bind _ _) => apply preserves_bind; [|intros ?]
  | |- preserves _ (try_catch _ _) => apply preserves_try_catch; [|intros ?]
  | |- preserves _ (rethrow _) => apply preserves_rethrow
  | |- preserves _ (ret _) => apply preserves_ret
  | |- preserves _ (throw _) => apply preserves_throw
  | |- preserves _ get_mgr => apply preserves_get_mgr
  | |- preserves _ (now _) => apply preserves_now
  | |- preserves _ (for_each _ _) => apply preserves_for_each; intros ? _
  | |- preserves _ (collect _ _) => apply preserves_collect; intros ?
  | |- preserves _ (call_progress _ _ _) =>
      apply preserves_call_progress; emit_tac
  | |- preserves _ (perform _ _) => apply preserves_perform; emit_tac
  | |- preserves _ (fs_writeFile _ _ _) =>
      apply preserves_fs_writeFile;
      [emit_tac | disk_tac | intros ?; discriminate]
  | |- preserves _ (fs_read_state _ _) =>
      apply preserves_fs_read_state; emit_tac
  | |- preserves _ (fs_read_page _ _ _ _) =>
      apply preserves_fs_read_page; emit_tac
  | |- preserves _ (images_generate _ _) =>
      apply preserves_images_generate; emit_tac
  | |- preserves _ (modify_mgr _) => apply preserves_modify_mgr; mgr_tac
  | |- preserves _ (if ?b then _ else _) => destruct b
  | |- preserves _ (match ?x with _ => _ end) => destruct x
  | |- preserves _ (let _ := _ in _) => cbv zeta
  end.

Create HintDb resumed.

(** [preserves] for the invariant of a resumed run. *)
Ltac preserves_auto :=
  repeat first
    [ solve [auto with resumed]
    | preserves_step
        ltac:(apply resumed_emit)
        ltac:(apply resumed_disk)
        ltac:(intros ? ?; apply resumed_mgr;
              [reflexivity | intros ? ?; reflexivity | assumption]) ].

(** [preserves] for a property of the manager that the step leaves as
    it is. *)
Ltac preserves_field :=
  repeat preserves_step
    ltac:(intros ? ? _ ?; assumption)
    ltac:(intros ? ? ?; assumption)
    ltac:(intros ? ?; assumption).

(** *** The modular pipeline after a resume *)

Lemma Modular_saveState_resumed env ok d :
  preserves (resumed Modular.outline Modular.bookContent ok d)
    (Modular.saveState env).
Proof.
  intros w r w' HI H.
  unfold Modular.saveState, Modular.StateManager_saveState, Modular.writeFile,
    Modular.createDirectory in H.
  unfold_monad.
  destruct (fault env (length (log w)) _); simpl in H.
  - injection H as <- <-. now apply resumed_emit.
  - destruct (fault env _ (OpWrite _)); simpl in H; injection H as <- <-.
    + apply resumed_emit; [exact I|]. now apply resumed_emit.
    + pose proof (resumed_emit _ _ _ _
                    (EvOp (OpMkdir (JS.dirname
                             (Modular.statePath (Modular.bookName (mgr w)))))
                          true)
                    w I HI) as H1.
      exact (resumed_checkpoint _ _ _ _ _ (Modular.snapshot (mgr w)) _
               (proj1 (proj2 HI)) H1).
Qed.
#[export] Hint Resolve Modular_saveState_resumed : resumed.

Lemma Modular_saveProgress_resumed env ok d content chapter page :
  preserves (resumed Modular.outline Modular.bookContent ok d)
    (Modular.saveProgress env content chapter page).
Proof.
  unfold Modular.saveProgress, Modular.ensureDirectories,
    Modular.writeFile, Modular.createDirectory, Modular.createDocxDocument.
  preserves_auto.
Qed.
#[export] Hint Resolve Modular_saveProgress_resumed : resumed.

Lemma keeps_record_page (c chapter page : nat) (content : string)
    (bc : gmap nat (gmap nat string)) (k : nat) :
  c < chapter -> k <= c ->
  record_page chapter page content bc !! k = bc !! k.
Proof.
  intros Hlt Hk. unfold record_page. apply lookup_insert_ne. lia.
Qed.

Lemma Modular_generate_unit_resumed env d callback chapter page :
  lastCompletedChapter (doc_progress d) < chapter ->
  preserves
    (resumed Modular.outline Modular.bookContent
       (modular_request (doc_outline d) (lastCompletedChapter (doc_progress d)))
       d)
    (Modular.generate_unit env callback chapter page).
Proof.
  intros Hlt. unfold Modular.generate_unit.
  apply preserves_bind; [preserves_auto|]. intros _.
  intros w r w' HI H. unfold bind at 1, get_mgr in H.
  revert H. apply preserves_bind; [| |exact HI].
  - apply preserves_chat. intros w0. apply resumed_chat.
    exists chapter, page. split; [assumption|].
    destruct HI as (Ho & _). now rewrite Ho.
  - intros content. apply preserves_bind; [preserves_auto|]. intros _.
    apply preserves_modify_mgr. intros w0 Hw0.
    apply resumed_mgr; [reflexivity | | assumption].
    intros k Hk. simpl.
    now apply keeps_record_page
      with (c := lastCompletedChapter (doc_progress d)).
Qed.

Lemma plain_checkpoints (l : list Event) : Forall plain l -> checkpoints l = [].
Proof.
  induction 1 as [|ev l Hev _ IH]; [reflexivity|].
  destruct ev as [| | |path [d'| |] [|]|]; simpl in *; try assumption.
  destruct Hev.
Qed.

Lemma plain_chats (ok : string -> string -> Prop) (l : list Event) :
  Forall plain l -> chats_are ok l.
Proof.
  intros H. eapply Forall_impl; [exact H|].
  intros ev Hev. destruct ev; try exact I. destruct Hev.
Qed.

(** Right after the checkpoint has been restored, the invariant holds. *)
Lemma resumed_init {Mgr} (outline_of : Mgr -> Outline)
    (content_of : Mgr -> gmap nat (gmap nat string))
    (ok : string -> string -> Prop) (d : StateDoc) (w : World Mgr) :
  Forall plain (log w) ->
  outline_of (mgr w) = doc_outline d ->
  content_of (mgr w) = doc_bookContent d ->
  resumed outline_of content_of ok d w.
Proof.
  intros Hlog Ho Hc. unfold resumed.
  split; [assumption|]. split; [intros k _; now rewrite Hc|].
  split; [now rewrite plain_checkpoints | now apply plain_chats].
Qed.

Lemma reaches_bind_ret {Mgr A B} (Inv : World Mgr -> Prop) (m : M Mgr A)
    (k : A -> M Mgr B) (w w1 : World Mgr) (a : A) :
  m w = (Ret a, w1) -> reaches Inv (k a) w1 -> reaches Inv (bind m k) w.
Proof.
  intros Hm Hk r w' H. unfold bind in H. rewrite Hm in H. exact (Hk _ _ H).
Qed.

Lemma Modular_ensureDirectories_ok env (w : World Modular.BookManager) :
  (forall n path, fault env n (OpMkdir path) = None) ->
  exists w1 l,
    Modular.ensureDirectories env w = (Ret tt, w1) /\
    mgr w1 = mgr w /\ disk w1 = disk w /\
    log w1 = (log w ++ l)%list /\ Forall plain l.
Proof.
  intros Hmk.
  destruct (Modular.ensureDirectories env w) as [r w1] eqn:E.
  assert (Hemits : emits plain (Modular.ensureDirectories env)).
  { unfold Modular.ensureDirectories, Modular.createDirectory. emits_auto. }
  destruct (Hemits _ _ _ E) as (l & Hl & Hpl).
  destruct (Modular_ensureDirectories_frame env _ _ _ E) as [Hm Hd].
  exists w1, l. split; [|auto].
  revert E. unfold Modular.ensureDirectories, Modular.createDirectory. simpl.
  unfold_monad. rewrite !Hmk. simpl. intros E. now injection E as <- <-.
Qed.

Lemma Modular_loadState_restores env (w : World Modular.BookManager) d :
  state_file (disk w) = Some d ->
  fault env (length (log w))
    (OpRead (Modular.statePath (Modular.bookName (mgr w)))) = None ->
  exists w' ev,
    Modular.loadState env w = (Ret true, w') /\
    mgr w' = Modular.restore d (mgr w) /\
    log w' = (log w ++ [ev])%list /\ plain ev.
Proof.
  intros Hd Hf.
  unfold Modular.loadState, Modular.StateManager_loadState,
    Modular.readFile_state.
  unfold_monad. simpl. rewrite Hf, Hd. simpl.
  eexists _, _. repeat split.
Qed.

(** The rest of the modular controller, from the cover on, keeps the
    cursor it has while it deals with the cover. *)
Lemma Modular_cover_step_keeps_progress env theme (p : Progress)
    (m : Modular.BookManager) :
  preserves (fun w => Modular.progressState (mgr w) = p)
    (if negb (JS.truthy (JS.assoc_get "coverImage" (Modular.metadata m))) then
       do url <- images_generate env
                   ("Create a professional book cover for: " +:+ theme);
       run modify_mgr (fun m =>
             Modular.set_metadata
               (JS.assoc_set "coverImage" url (Modular.metadata m)) m);
       do _ <- Modular.saveCoverImage env url;
       ret tt
     else ret tt).
Proof.
  unfold Modular.saveCoverImage, Modular.writeFile, Modular.createDirectory.
  preserves_field.
Qed.

Lemma Modular_cover_step_resumed env theme ok d (m : Modular.BookManager) :
  preserves (resumed Modular.outline Modular.bookContent ok d)
    (if negb (JS.truthy (JS.assoc_get "coverImage" (Modular.metadata m))) then
       do url <- images_generate env
                   ("Create a professional book cover for: " +:+ theme);
       run modify_mgr (fun m =>
             Modular.set_metadata
               (JS.assoc_set "coverImage" url (Modular.metadata m)) m);
       do _ <- Modular.saveCoverImage env url;
       ret tt
     else ret tt).
Proof.
  unfold Modular.saveCoverImage, Modular.writeFile, Modular.createDirectory.
  preserves_auto.
Qed.

Lemma Modular_generation_resumed env d chapters pagesPerChapter callback :
  preserves
    (resumed Modular.outline Modular.bookContent
       (modular_request (doc_outline d) (lastCompletedChapter (doc_progress d)))
       d)
    (for_range (lastCompletedChapter (doc_progress d) + 1) chapters
       (fun chapter =>
          run for_range 1 pagesPerChapter
                (Modular.generate_unit env callback chapter);
          Modular.saveState env)).
Proof.
  apply preserves_for_range. intros chapter Hch.
  apply preserves_bind; [|intros _; auto with resumed].
  apply preserves_for_range. intros page _.
  apply Modular_generate_unit_resumed. lia.
Qed.

Lemma Modular_compileBook_resumed env ok d :
  preserves (resumed Modular.outline Modular.bookContent ok d)
    (Modular.compileBook env).
Proof.
  unfold Modular.compileBook, Modular.compileJSON, Modular.compileDOCX,
    Modular.ensureDirectories, Modular.writeFile, Modular.createDirectory.
  preserves_auto.
Qed.
#[export] Hint Resolve Modular_compileBook_resumed : resumed.

(** X2. A modular run that resumes from checkpoint [d] asks the service
    only for pages of chapters after the cursor chapter of [d], and leaves the
    content of the chapters up to it as [d] has it, in the manager and in
    every checkpoint it writes. Directories can be created and the
    checkpoint can be read; any other step may fail. *)
Lemma Modular_resumed_run (env : Env) (theme : string)
    (chapters pagesPerChapter : nat) (callback : option ProgressCallback)
    (name : string) (dk : Disk) (d : StateDoc) :
  (forall n path, fault env n (OpMkdir path) = None) ->
  (forall n path, fault env n (OpRead path) = None) ->
  state_file dk = Some d ->
  resumed Modular.outline Modular.bookContent
    (modular_request (doc_outline d) (lastCompletedChapter (doc_progress d))) d
    (Modular.createBookPageByPage env theme chapters pagesPerChapter callback
       (Modular.start name dk)).2.
Proof.
  intros Hmk Hrd Hdk.
  set (Inv := resumed Modular.outline Modular.bookContent
                (modular_request (doc_outline d)
                   (lastCompletedChapter (doc_progress d))) d).
  set (w0 := Modular.start name dk).
  assert (Hreach : reaches Inv
            (Modular.createBookPageByPage env theme chapters pagesPerChapter
               callback) w0).
  { unfold Modular.createBookPageByPage.
    apply reaches_try_catch; [|intros e; unfold Inv; preserves_auto].
    unfold Modular.createBookPageByPage_try.
    destruct (Modular_ensureDirectories_ok env w0 Hmk)
      as (w1 & l1 & H1 & Hm1 & Hd1 & Hl1 & Hp1).
    apply (reaches_bind_ret _ _ _ _ _ _ H1).
    destruct (Modular_loadState_restores env w1 d)
      as (w2 & ev & H2 & Hm2 & Hl2 & Hp2).
    { now rewrite Hd1. }
    { apply Hrd. }
    apply (reaches_bind_ret _ _ _ _ _ _ H2).
    assert (HI2 : Inv w2).
    { apply resumed_init.
      - rewrite Hl2, Hl1. simpl. apply Forall_app. split; [assumption|].
        repeat constructor. assumption.
      - now rewrite Hm2.
      - now rewrite Hm2. }
    assert (Hp2' : Modular.progressState (mgr w2) = doc_progress d)
      by now rewrite Hm2.
    apply (reaches_bind_ret _ _ _ w2 w2 tt); [reflexivity|].
    apply (reaches_bind_ret _ _ _ w2 w2 (mgr w2)); [reflexivity|].
    apply reaches_bind.
    - apply reaches_preserves; [apply Modular_cover_step_resumed | exact HI2].
    - intros [] w3 H3.
      pose proof (Modular_cover_step_resumed env theme _ d _ _ _ _ HI2 H3) as HI3.
      pose proof (Modular_cover_step_keeps_progress env theme _ _ _ _ _ Hp2' H3)
        as Hp3.
      apply (reaches_bind_ret _ _ _ w3 w3 (mgr w3)); [reflexivity|].
      cbv zeta. rewrite Hp3.
      apply reaches_preserves; [|exact HI3].
      apply preserves_bind; [apply Modular_generation_resumed|]. intros _.
      unfold Inv. preserves_auto. }
  destruct (Modular.createBookPageByPage env theme chapters pagesPerChapter
              callback w0) as [r w'] eqn:E.
  exact (Hreach _ _ E).
Qed.

(** *** The legacy pipeline after a resume *)

Lemma Legacy_saveState_resumed env ok d :
  preserves (resumed Legacy.outline Legacy.bookContent ok d)
    (Legacy.saveState env).
Proof.
  intros w r w' HI H. unfold Legacy.saveState in H. unfold_monad.
  destruct (fault env (length (log w)) _); simpl in H; injection H as <- <-.
  - now apply resumed_emit.
  - exact (resumed_checkpoint _ _ _ _ _ (Legacy.snapshot (mgr w)) w
             (proj1 (proj2 HI)) HI).
Qed.
#[export] Hint Resolve Legacy_saveState_resumed : resumed.

Lemma Legacy_saveProgress_resumed env ok d content chapter page :
  preserves (resumed Legacy.outline Legacy.bookContent ok d)
    (Legacy.saveProgress env content chapter page).
Proof. unfold Legacy.saveProgress, Legacy.saveAsDocx. preserves_auto. Qed.
#[export] Hint Resolve Legacy_saveProgress_resumed : resumed.

Lemma Legacy_previous_pages_resumed env ok d chapter page :
  preserves (resumed Legacy.outline Legacy.bookContent ok d)
    (Legacy.previous_pages env chapter page).
Proof. unfold Legacy.previous_pages, Legacy.loadProgress. preserves_auto. Qed.
#[export] Hint Resolve Legacy_previous_pages_resumed : resumed.

Lemma Legacy_compileBook_resumed env ok d :
  preserves (resumed Legacy.outline Legacy.bookContent ok d)
    (Legacy.compileBook env).
Proof.
  unfold Legacy.compileBook, Legacy.generateTableOfContents. preserves_auto.
Qed.
#[export] Hint Resolve Legacy_compileBook_resumed : resumed.

Lemma Legacy_extractMetadata_resumed env c d content :
  preserves (resumed Legacy.outline Legacy.bookContent (legacy_request c) d)
    (Legacy.extractMetadata env content).
Proof.
  unfold Legacy.extractMetadata, Legacy.addCharacter.
  apply preserves_try_catch; [|intros _; apply preserves_ret].
  apply preserves_bind.
  - apply preserves_chat. intros w. apply resumed_chat. now left.
  - intros reply. preserves_auto.
Qed.
#[export] Hint Resolve Legacy_extractMetadata_resumed : resumed.

Lemma Legacy_generate_unit_resumed env d chapter page :
  lastCompletedChapter (doc_progress d) < chapter ->
  preserves
    (resumed Legacy.outline Legacy.bookContent
       (legacy_request (lastCompletedChapter (doc_progress d))) d)
    (Legacy.generate_unit env chapter page).
Proof.
  intros Hlt. unfold Legacy.generate_unit.
  apply preserves_bind; [preserves_auto|]. intros previousPages.
  apply preserves_bind.
  - unfold Legacy.generatePage.
    apply preserves_bind; [apply preserves_get_mgr|]. intros m.
    apply preserves_chat. intros w. apply resumed_chat. right.
    exists chapter, page. eexists _, _, _, _. split; [exact Hlt | reflexivity].
  - intros pageContent.
    apply preserves_bind; [preserves_auto|]. intros _.
    apply preserves_bind; [|intros _; preserves_auto].
    apply preserves_modify_mgr. intros w0 Hw0.
    apply resumed_mgr; [reflexivity | | assumption].
    intros k Hk. simpl.
    now apply keeps_record_page
      with (c := lastCompletedChapter (doc_progress d)).
Qed.

Lemma Legacy_generation_resumed env d chapters pagesPerChapter callback :
  preserves
    (resumed Legacy.outline Legacy.bookContent
       (legacy_request (lastCompletedChapter (doc_progress d))) d)
    (for_range (lastCompletedChapter (doc_progress d) + 1) chapters
       (fun chapter =>
          run call_progress callback chapter 1;
          run Legacy.generateChapterPages env chapter pagesPerChapter;
          Legacy.saveState env)).
Proof.
  apply preserves_for_range. intros chapter Hch.
  apply preserves_bind; [preserves_auto|]. intros _.
  apply preserves_bind; [|intros _; auto with resumed].
  unfold Legacy.generateChapterPages. apply preserves_rethrow.
  apply preserves_for_range. intros page _.
  apply Legacy_generate_unit_resumed. lia.
Qed.

Lemma Legacy_cover_step_keeps_progress env theme (p : Progress)
    (m : Legacy.BookManager) :
  preserves (fun w => Legacy.progressState (mgr w) = p)
    (if negb (JS.truthy (JS.assoc_get "coverImage" (Legacy.metadata m))) then
       do url <- Legacy.generateStoryImage env (Legacy.coverPrompt theme);
       run modify_mgr (fun m =>
             Legacy.set_metadata
               (JS.assoc_set "coverImage" url (Legacy.metadata m)) m);
       Legacy.saveMetadata env
     else ret tt).
Proof.
  unfold Legacy.generateStoryImage, Legacy.saveMetadata. preserves_field.
Qed.

Lemma Legacy_cover_step_resumed env theme ok d (m : Legacy.BookManager) :
  preserves (resumed Legacy.outline Legacy.bookContent ok d)
    (if negb (JS.truthy (JS.assoc_get "coverImage" (Legacy.metadata m))) then
       do url <- Legacy.generateStoryImage env (Legacy.coverPrompt theme);
       run modify_mgr (fun m =>
             Legacy.set_metadata
               (JS.assoc_set "coverImage" url (Legacy.metadata m)) m);
       Legacy.saveMetadata env
     else ret tt).
Proof.
  unfold Legacy.generateStoryImage, Legacy.saveMetadata. preserves_auto.
Qed.

Lemma Legacy_loadState_restores env (w : World Legacy.BookManager) d :
  state_file (disk w) = Some d ->
  fault env (length (log w)) (OpRead "book_state.json") = None ->
  exists w' ev,
    Legacy.loadState env w = (Ret true, w') /\
    mgr w' = Legacy.restore d (mgr w) /\
    log w' = (log w ++ [ev])%list /\ plain ev.
Proof.
  intros Hd Hf. unfold Legacy.loadState.
  unfold_monad. simpl. rewrite Hf, Hd. simpl.
  eexists _, _. repeat split.
Qed.

(** X3. The same for a legacy run that resumes from checkpoint [d]:
    apart from extraction requests, it asks the service only for pages of
    chapters after the cursor chapter of [d], and the content of the
    chapters up to it stays as [d] has it. *)
Lemma Legacy_resumed_run (env : Env) (theme : string)
    (chapters pagesPerChapter : nat) (callback : option ProgressCallback)
    (dk : Disk) (d : StateDoc) :
  (forall n path, fault env n (OpRead path) = None) ->
  state_file dk = Some d ->
  resumed Legacy.outline Legacy.bookContent
    (legacy_request (lastCompletedChapter (doc_progress d))) d
    (Legacy.createBookPageByPage env theme chapters pagesPerChapter callback
       (Legacy.start env dk)).2.
Proof.
  intros Hrd Hdk.
  set (Inv := resumed Legacy.outline Legacy.bookContent
                (legacy_request (lastCompletedChapter (doc_progress d))) d).
  set (w0 := Legacy.start env dk).
  assert (Hreach : reaches Inv
            (Legacy.createBookPageByPage env theme chapters pagesPerChapter
               callback) w0).
  { unfold Legacy.createBookPageByPage.
    apply reaches_try_catch; [|intros e; unfold Inv; preserves_auto].
    unfold Legacy.createBookPageByPage_try.
    destruct (Legacy_loadState_restores env w0 d Hdk (Hrd _ _))
      as (w2 & ev & H2 & Hm2 & Hl2 & Hp2).
    apply (reaches_bind_ret _ _ _ _ _ _ H2).
    assert (HI2 : Inv w2).
    { apply resumed_init.
      - rewrite Hl2. simpl. repeat constructor. assumption.
      - now rewrite Hm2.
      - now rewrite Hm2. }
    assert (Hp2' : Legacy.progressState (mgr w2) = doc_progress d)
      by now rewrite Hm2.
    apply (reaches_bind_ret _ _ _ w2 w2 tt); [reflexivity|].
    apply (reaches_bind_ret _ _ _ w2 w2 (mgr w2)); [reflexivity|].
    apply reaches_bind.
    - apply reaches_preserves; [apply Legacy_cover_step_resumed | exact HI2].
    - intros [] w3 H3.
      pose proof (Legacy_cover_step_resumed env theme _ d _ _ _ _ HI2 H3) as HI3.
      pose proof (Legacy_cover_step_keeps_progress env theme _ _ _ _ _ Hp2' H3)
        as Hp3.
      apply (reaches_bind_ret _ _ _ w3 w3 (mgr w3)); [reflexivity|].
      cbv zeta. rewrite Hp3.
      apply reaches_preserves; [|exact HI3].
      apply preserves_bind; [apply Legacy_generation_resumed|]. intros _.
      unfold Inv. preserves_auto. }
  destruct (Legacy.createBookPageByPage env theme chapters pagesPerChapter
              callback w0) as [r w'] eqn:E.
  exact (Hreach _ _ E).
Qed.

(* ================================================================== *)
(** * Further properties of the pipeline *)
(* ================================================================== *)

(** ** Runs that keep what a checkpoint holds *)

Lemma sequential_run_keeps_cover_witness :
  Forall no_image
    (log (Modular.createBookPageByPage Scenario.calm "a lighthouse keeper"
            1 1 None (Modular.start "book" Scenario.disk_with_cover)).2) /\
  Forall no_image
    (log (Legacy.createBookPageByPage Scenario.calm "a lighthouse keeper"
            1 1 None (Legacy.start Scenario.calm Scenario.disk_with_cover)).2).
Proof.
  split.
  - apply (proj1 (sequential_run_keeps_cover Scenario.calm
                    "a lighthouse keeper" 1 1 None Scenario.with_cover
                    eq_refl) "book" Scenario.disk_with_cover).
    + reflexivity.
    + intros n. reflexivity.
  - apply (proj2 (sequential_run_keeps_cover Scenario.calm
                    "a lighthouse keeper" 1 1 None Scenario.with_cover
                    eq_refl) Scenario.disk_with_cover).
    + reflexivity.
    + intros n. reflexivity.
Defined.

Lemma Modular_resumed_run_witness :
  resumed Modular.outline Modular.bookContent
    (modular_request (OutlineText "An outline.") 1)
    (Modular.snapshot Scenario.sample_manager)
    (Modular.createBookPageByPage Scenario.calm "a lighthouse keeper" 2 2 None
       (Modular.start "book" Scenario.disk_after_chapter_one)).2.
Proof.
  apply (Modular_resumed_run Scenario.calm "a lighthouse keeper" 2 2 None
           "book" Scenario.disk_after_chapter_one
           (Modular.snapshot Scenario.sample_manager)).
  - intros n path. reflexivity.
  - intros n path. reflexivity.
  - reflexivity.
Defined.

Lemma Legacy_resumed_run_witness :
  resumed Legacy.outline Legacy.bookContent
    (legacy_request 1)
    (Modular.snapshot Scenario.sample_manager)
    (Legacy.createBookPageByPage Scenario.calm "a lighthouse keeper" 2 2 None
       (Legacy.start Scenario.calm Scenario.disk_after_chapter_one)).2.
Proof.
  apply (Legacy_resumed_run Scenario.calm "a lighthouse keeper" 2 2 None
           Scenario.disk_after_chapter_one
           (Modular.snapshot Scenario.sample_manager)).
  - intros n path. reflexivity.
  - reflexivity.
Defined.

(** ** How a computation ends *)

Section Outcomes.
Context {Mgr : Type}.

Lemma unfinished_bind_l {A B} (m : M Mgr A) (k : A -> M Mgr B) :
  ends_in unfinished m -> ends_in unfinished (bind m k).
Proof.
  intros Hm w. specialize (Hm w). unfold bind.
  destruct (m w) as [[a|e|] w1]; simpl in *; [destruct Hm | exact I | exact I].
Qed.

Lemma unfinished_bind_r {A B} (m : M Mgr A) (k : A -> M Mgr B) :
  (forall a, ends_in unfinished (k a)) -> ends_in unfinished (bind m k).
Proof.
  intros Hk w. unfold bind.
  destruct (m w) as [[a|e|] w1]; simpl; [apply Hk | exact I | exact I].
Qed.

Lemma unfinished_try_catch {A} (m : M Mgr A) (h : error -> M Mgr A) :
  ends_in unfinished m -> (forall e, ends_in unfinished (h e)) ->
  ends_in unfinished (try_catch m h).
Proof.
  intros Hm Hh w. specialize (Hm w). unfold try_catch.
  destruct (m w) as [[a|e|] w1]; simpl in *; [destruct Hm | apply Hh | exact I].
Qed.

Lemma unfinished_throw {A} (e : error) : ends_in (Mgr:=Mgr) (A:=A) unfinished (throw e).
Proof. intros w. exact I. Qed.

Lemma settled_bind {A B} (m : M Mgr A) (k : A -> M Mgr B) :
  ends_in settled m -> (forall a, ends_in settled (k a)) ->
  ends_in settled (bind m k).
Proof.
  intros Hm Hk w. specialize (Hm w). unfold bind.
  destruct (m w) as [[a|e|] w1]; simpl in *; [apply Hk | exact I | destruct Hm].
Qed.

Lemma settled_try_catch {A} (m : M Mgr A) (h : error -> M Mgr A) :
  ends_in settled m -> (forall e, ends_in settled (h e)) ->
  ends_in settled (try_catch m h).
Proof.
  intros Hm Hh w. specialize (Hm w). unfold try_catch.
  destruct (m w) as [[a|e|] w1]; simpl in *; [exact I | apply Hh | destruct Hm].
Qed.

Lemma returned_settled {A} (m : M Mgr A) :
  ends_in returned m -> ends_in settled m.
Proof.
  intros Hm w. specialize (Hm w). destruct (m w) as [[a|e|] w1]; simpl in *; tauto.
Qed.

Lemma returned_bind {A B} (m : M Mgr A) (k : A -> M Mgr B) :
  ends_in returned m -> (forall a, ends_in returned (k a)) ->
  ends_in returned (bind m k).
Proof.
  intros Hm Hk w. specialize (Hm w). unfold bind.
  destruct (m w) as [[a|e|] w1]; simpl in *; [apply Hk | destruct Hm | destruct Hm].
Qed.

(** A handler that returns makes a result of every failure. *)
Lemma returned_try_catch {A} (m : M Mgr A) (h : error -> M Mgr A) :
  ends_in settled m -> (forall e, ends_in returned (h e)) ->
  ends_in returned (try_catch m h).
Proof.
  intros Hm Hh w. specialize (Hm w). unfold try_catch.
  destruct (m w) as [[a|e|] w1]; simpl in *; [exact I | apply Hh | destruct Hm].
Qed.

Lemma returned_try_catch_l {A} (m : M Mgr A) (h : error -> M Mgr A) :
  ends_in returned m -> ends_in returned (try_catch m h).
Proof.
  intros Hm w. specialize (Hm w). unfold try_catch.
  destruct (m w) as [[a|e|] w1]; simpl in *; tauto.
Qed.

Lemma returned_ret {A} (a : A) : ends_in (Mgr:=Mgr) returned (ret a).
Proof. intros w. exact I. Qed.

Lemma returned_get_mgr : ends_in (Mgr:=Mgr) returned get_mgr.
Proof. intros w. exact I. Qed.

Lemma returned_modify_mgr (f : Mgr -> Mgr) : ends_in returned (modify_mgr f).
Proof. intros w. exact I. Qed.

Lemma returned_now env : ends_in (Mgr:=Mgr) returned (now env).
Proof. intros w. exact I. Qed.

Lemma returned_for_each {A} (xs : list A) (body : A -> M Mgr unit) :
  (forall x, ends_in returned (body x)) -> ends_in returned (for_each xs body).
Proof.
  intros Hbody. induction xs as [|x r IH]; simpl.
  - apply returned_ret.
  - apply returned_bind; [apply Hbody | intros _; exact IH].
Qed.

Lemma returned_collect {A B} (xs : list A) (f : A -> M Mgr (option B)) :
  (forall x, ends_in returned (f x)) -> ends_in returned (collect xs f).
Proof.
  intros Hf. induction xs as [|x r IH]; simpl.
  - apply returned_ret.
  - apply returned_bind; [apply Hf | intros o].
    apply returned_bind; [exact IH | intros rest; apply returned_ret].
Qed.

Lemma returned_call_progress (cb : option ProgressCallback) (chapter page : nat) :
  silent cb -> ends_in (Mgr:=Mgr) returned (call_progress cb chapter page).
Proof.
  intros Hcb w. destruct cb as [f|]; simpl; [|exact I].
  now rewrite (Hcb f chapter page eq_refl).
Qed.

Lemma settled_throw {A} (e : error) : ends_in (Mgr:=Mgr) (A:=A) settled (throw e).
Proof. intros w. exact I. Qed.

Lemma settled_for_each {A} (xs : list A) (body : A -> M Mgr unit) :
  (forall x, ends_in settled (body x)) -> ends_in settled (for_each xs body).
Proof.
  intros Hbody. induction xs as [|x r IH]; simpl.
  - intros w. exact I.
  - apply settled_bind; [apply Hbody | intros _; exact IH].
Qed.

Lemma settled_call_progress (cb : option ProgressCallback) (chapter page : nat) :
  ends_in (Mgr:=Mgr) settled (call_progress cb chapter page).
Proof.
  intros w. destruct cb as [f|]; simpl; [|exact I].
  destruct (f chapter page); exact I.
Qed.

Lemma settled_chat env (system user : string) :
  ends_in (Mgr:=Mgr) settled (chat env system user).
Proof. intros w. unfold chat. destruct (chat_reply env _ _ _); exact I. Qed.

Lemma settled_images_generate env (prompt : string) :
  ends_in (Mgr:=Mgr) settled (images_generate env prompt).
Proof. intros w. unfold images_generate. destruct (image_reply env _ _); exact I. Qed.

Lemma settled_perform env (op : Op) : ends_in (Mgr:=Mgr) settled (perform env op).
Proof. intros w. unfold perform. destruct (fault env _ _); exact I. Qed.

Lemma settled_fs_writeFile env (path : string) (c : Content) :
  ends_in (Mgr:=Mgr) settled (fs_writeFile env path c).
Proof. intros w. unfold fs_writeFile. destruct (fault env _ _); exact I. Qed.

Lemma settled_fs_read_state env (path : string) :
  ends_in (Mgr:=Mgr) settled (fs_read_state env path).
Proof.
  intros w. unfold fs_read_state.
  destruct (fault env _ _); [exact I|]. destruct (state_file _); exact I.
Qed.

Lemma settled_fs_read_page env (path : string) (chapter page : nat) :
  ends_in (Mgr:=Mgr) settled (fs_read_page env path chapter page).
Proof.
  intros w. unfold fs_read_page.
  destruct (fault env _ _); [exact I|]. destruct (page_files _ !! _); exact I.
Qed.

Lemma returned_chat env (system user : string) :
  obliging env -> ends_in (Mgr:=Mgr) returned (chat env system user).
Proof.
  intros (Hchat & _) w. unfold chat.
  destruct (Hchat (length (log w)) system user) as [reply ->]. exact I.
Qed.

Lemma returned_images_generate env (prompt : string) :
  obliging env -> ends_in (Mgr:=Mgr) returned (images_generate env prompt).
Proof.
  intros (_ & Himg & _) w. unfold images_generate.
  destruct (Himg (length (log w)) prompt) as [url ->]. exact I.
Qed.

Lemma returned_perform env (op : Op) :
  obliging env -> ends_in (Mgr:=Mgr) returned (perform env op).
Proof. intros (_ & _ & Hf) w. unfold perform. now rewrite Hf. Qed.

Lemma returned_fs_writeFile env (path : string) (c : Content) :
  obliging env -> ends_in (Mgr:=Mgr) returned (fs_writeFile env path c).
Proof. intros (_ & _ & Hf) w. unfold fs_writeFile. now rewrite Hf. Qed.

End Outcomes.

(** One step of a proof that a computation settles, or that it returns
    under an obliging environment. *)
Ltac ends_step :=
  lazymatch goal with
  | |- ends_in settled (bind _ _) => apply settled_bind; [|intros ?]
  | |- ends_in settled (try_catch _ _) => apply settled_try_catch; [|intros ?]
  | |- ends_in settled (rethrow _) => apply settled_try_catch; [|intros ?]
  | |- ends_in settled (throw _) => apply settled_throw
  | |- ends_in settled (for_each _ _) => apply settled_for_each; intros ?
  | |- ends_in settled (for_range _ _ _) => apply settled_for_each; intros ?
  | |- ends_in settled (call_progress _ _ _) => apply settled_call_progress
  | |- ends_in settled (chat _ _ _) => apply settled_chat
  | |- ends_in settled (images_generate _ _) => apply settled_images_generate
  | |- ends_in settled (perform _ _) => apply settled_perform
  | |- ends_in settled (fs_writeFile _ _ _) => apply settled_fs_writeFile
  | |- ends_in settled (fs_read_state _ _) => apply settled_fs_read_state
  | |- ends_in settled (fs_read_page _ _ _ _) => apply settled_fs_read_page
  | |- ends_in settled (if ?b then _ else _) => destruct b
  | |- ends_in settled (match ?x with _ => _ end) => destruct x
  | |- ends_in settled (let _ := _ in _) => cbv zeta
  | |- ends_in settled (ret _) => apply returned_settled, returned_ret
  | |- ends_in settled get_mgr => apply returned_settled, returned_get_mgr
  | |- ends_in settled (modify_mgr _) =>
      apply returned_settled, returned_modify_mgr
  | |- ends_in settled (now _) => apply returned_settled, returned_now
  | |- ends_in settled (collect _ _) =>
      apply returned_settled, returned_collect; intros ?
  | |- ends_in returned (bind _ _) => apply returned_bind; [|intros ?]
  | |- ends_in returned (ret _) => apply returned_ret
  | |- ends_in returned get_mgr => apply returned_get_mgr
  | |- ends_in returned (modify_mgr _) => apply returned_modify_mgr
  | |- ends_in returned (now _) => apply returned_now
  | |- ends_in returned (for_each _ _) => apply returned_for_each; intros ?
  | |- ends_in returned (for_range _ _ _) => apply returned_for_each; intros ?
  | |- ends_in returned (collect _ _) => apply returned_collect; intros ?
  | |- ends_in returned (try_catch _ (fun _ => ret _)) =>
      apply returned_try_catch; [|intros ?]
  | |- ends_in returned (try_catch _ _) => apply returned_try_catch_l
  | |- ends_in returned (rethrow _) => apply returned_try_catch_l
  | |- ends_in returned (chat _ _ _) => apply returned_chat; assumption
  | |- ends_in returned (images_generate _ _) =>
      apply returned_images_generate; assumption
  | |- ends_in returned (perform _ _) => apply returned_perform; assumption
  | |- ends_in returned (fs_writeFile _ _ _) =>
      apply returned_fs_writeFile; assumption
  | |- ends_in returned (call_progress _ _ _) =>
      apply returned_call_progress; assumption
  | |- ends_in returned (if ?b then _ else _) => destruct b
  | |- ends_in returned (match ?x with _ => _ end) => destruct x
  | |- ends_in returned (let _ := _ in _) => cbv zeta
  end.

Create HintDb ends.

Ltac ends_auto := repeat first [ solve [auto with ends] | ends_step ].

(** ** The batch controller *)

Lemma Legacy_processBatchResults_throws env inherited resultFileId
    (w : World Legacy.BookManager) :
  Legacy.processBatchResults env inherited resultFileId w
  = (Throw (TypeError
              "(intermediate value).processBatchResults is not a function"),
     w).
Proof.
  unfold Legacy.processBatchResults, bind.
  replace (Legacy.super_has "processBatchResults") with false
    by (vm_compute; reflexivity).
  reflexivity.
Qed.

(** Reading the checkpoint at start-up always yields an answer and logs
    the one attempt to read. *)
Lemma Legacy_loadState_answers env (w : World Legacy.BookManager) :
  exists b w1 ev,
    Legacy.loadState env w = (Ret b, w1) /\
    log w1 = (log w ++ [ev])%list /\ quiet ev.
Proof.
  unfold Legacy.loadState. unfold_monad.
  destruct (fault env (length (log w)) _) as [e|]; simpl.
  - eexists _, _, _. repeat split.
  - destruct (state_file (disk w)) as [d|]; simpl;
      eexists _, _, _; repeat split.
Qed.

Ltac grows :=
  unfold Legacy.saveState;
  repeat first [ emits_step | exact I ].

Lemma Legacy_batches_retrieve_grows env id :
  emits (fun _ => True) (Legacy.batches_retrieve env id).
Proof.
  intros w r w' H. unfold Legacy.batches_retrieve in H.
  destruct (fault env _ _); injection H as <- <-;
    eexists [_]; (split; [reflexivity | repeat constructor]).
Qed.

Lemma Legacy_poll_grows env fuel id :
  emits (fun _ => True) (Legacy.poll env fuel id).
Proof.
  induction fuel as [|fuel IH]; simpl.
  - apply emits_pending.
  - apply emits_bind; [apply Legacy_batches_retrieve_grows|].
    intros jobStatus. destruct (String.eqb jobStatus "completed");
      [apply emits_ret | exact IH].
Qed.

Lemma Legacy_submitBatchJob_grows env :
  emits (fun _ => True) (Legacy.submitBatchJob env).
Proof.
  unfold Legacy.submitBatchJob.
  apply emits_bind; [grows|]. intros stamp. cbv zeta.
  apply emits_bind; [grows|]. intros _.
  apply emits_bind; [grows|]. intros _.
  apply emits_bind; [grows|]. intros _.
  intros w r w' H. unfold Legacy.batches_create in H.
  destruct (fault env _ _); injection H as <- <-;
    eexists [_]; (split; [reflexivity | repeat constructor]).
Qed.

Lemma Legacy_processBatchResults_grows env inherited resultFileId :
  emits (fun _ => True)
    (Legacy.processBatchResults env inherited resultFileId).
Proof.
  intros w r w' H. rewrite Legacy_processBatchResults_throws in H.
  injection H as <- <-. exists []. now rewrite app_nil_r.
Qed.

Lemma opens_chat {Mgr} env (system user : string) :
  opens (Mgr:=Mgr) system user (chat env system user).
Proof.
  intros w. exists []. unfold chat.
  destruct (chat_reply env _ _ _); reflexivity.
Qed.

Lemma opens_bind {Mgr A B} (system user : string) (m : M Mgr A)
    (k : A -> M Mgr B) :
  opens system user m -> (forall a, emits (fun _ => True) (k a)) ->
  opens system user (bind m k).
Proof.
  intros Hm Hk w. destruct (Hm w) as [l Hl]. unfold bind.
  destruct (m w) as [[a|e|] w1]; simpl in *; eauto.
  destruct (k a w1) as [r w'] eqn:E.
  destruct (Hk a _ _ _ E) as (l2 & Hl2 & _). simpl.
  exists (l ++ l2)%list. rewrite Hl2, Hl, <- app_assoc. reflexivity.
Qed.

Lemma opens_try_catch {Mgr A} (system user : string) (m : M Mgr A)
    (h : error -> M Mgr A) :
  opens system user m -> (forall e, emits (fun _ => True) (h e)) ->
  opens system user (try_catch m h).
Proof.
  intros Hm Hh w. destruct (Hm w) as [l Hl]. unfold try_catch.
  destruct (m w) as [[a|e|] w1]; simpl in *; eauto.
  destruct (h e w1) as [r w'] eqn:E.
  destruct (Hh e _ _ _ E) as (l2 & Hl2 & _). simpl.
  exists (l ++ l2)%list. rewrite Hl2, Hl, <- app_assoc. reflexivity.
Qed.

Lemma Legacy_batch_opens env inherited fuel theme chapters language :
  opens Legacy.systemPrompt (Legacy.outlinePrompt theme chapters)
    (try_catch
       (Legacy.createBookWithBatch_try env inherited fuel theme chapters
          language)
       (fun e => run Legacy.saveState env; throw e)).
Proof.
  apply opens_try_catch; [|intros e; grows].
  unfold Legacy.createBookWithBatch_try.
  apply opens_bind.
  - unfold Legacy.createOutline. apply opens_bind; [apply opens_chat|].
    intros reply. unfold Legacy.saveOutline. grows.
  - intros outline.
    apply emits_bind; [unfold Legacy.generateStoryImage; grows|]. intros coverImage.
    apply emits_bind; [unfold Legacy.createBatchTasks; grows|]. intros _.
    apply emits_bind; [apply Legacy_submitBatchJob_grows|]. intros batchJob.
    apply emits_bind; [apply Legacy_poll_grows|]. intros _.
    apply emits_bind; [apply Legacy_processBatchResults_grows|]. intros _.
    unfold Legacy.translate_book, Legacy.translateContent,
      Legacy.checkConsistency. grows.
Qed.

(** The first request of a batch run is the request for the outline. *)
Lemma Legacy_batch_first_request env inherited fuel theme chapters language
    (w : World Legacy.BookManager) :
  head (chat_prompts
          (new_events w
             (Legacy.createBookWithBatch env inherited fuel theme chapters
                language w).2))
  = Some (Legacy.outlinePrompt theme chapters).
Proof.
  unfold Legacy.createBookWithBatch. unfold bind at 1.
  destruct (Legacy_loadState_answers env w) as (b & w1 & ev & -> & Hl1 & Hev).
  destruct (Legacy_batch_opens env inherited fuel theme chapters language w1)
    as [l Hl].
  unfold new_events. rewrite Hl, Hl1, <- !app_assoc, drop_app_length.
  simpl. destruct ev; try reflexivity. discriminate Hev.
Qed.


(** *** Translation *)




(** X4. Whatever the service and the disk do, and whatever the
    checkpoint found at start-up holds, a batch run first asks the
    service for a new outline, and it never returns a book: it ends in a
    failure, or is still waiting for the batch when the fuel runs out. *)
Theorem batch_run_never_returns (env : Env)
    (inherited : JS.value -> M Legacy.BookManager (list Legacy.BatchResult))
    (fuel : nat) (theme : string) (chapters : nat) (language : string)
    (w : World Legacy.BookManager) :
  let r := Legacy.createBookWithBatch env inherited fuel theme chapters
             language w in
  unfinished r.1 /\
  head (chat_prompts (new_events w r.2))
    = Some (Legacy.outlinePrompt theme chapters).
Proof.
  cbv zeta. split.
  - revert w.
    change (ends_in unfinished
              (Legacy.createBookWithBatch env inherited fuel theme chapters
                 language)).
    unfold Legacy.createBookWithBatch.
    apply unfinished_bind_r. intros hasState.
    apply unfinished_try_catch.
    + unfold Legacy.createBookWithBatch_try.
      do 5 (apply unfinished_bind_r; intros ?).
      apply unfinished_bind_l. intros w.
      now rewrite Legacy_processBatchResults_throws.
    + intros e. apply unfinished_bind_r. intros _. apply unfinished_throw.
  - apply Legacy_batch_first_request.
Qed.

(** *** Waiting for the batch *)

Lemma Legacy_poll_step env fuel id (w : World Legacy.BookManager) :
  fault env (length (log w)) OpBatchRetrieve = None ->
  Legacy.poll env (S fuel) id w
  = if String.eqb (batch_status env (length (log w))) "completed"
    then (Ret tt, emit (EvOp OpBatchRetrieve true) w)
    else Legacy.poll env fuel id (emit (EvOp OpBatchRetrieve true) w).
Proof.
  intros Hf. simpl. unfold bind, Legacy.batches_retrieve. rewrite Hf.
  destruct (String.eqb _ _); reflexivity.
Qed.

(** X5. The controller asks for the status of the batch until
    the answer is [completed]: when the status requests do not fail and
    the [k]-th answer after the first is the first to say [completed],
    the loop returns after exactly [k + 1] requests, given fuel for that
    many, and touches neither the manager nor the disk. *)
Theorem poll_returns_at_first_completed (env : Env) (id : string)
    (k fuel : nat) (w : World Legacy.BookManager) :
  (forall i, i <= k ->
     fault env (length (log w) + i) OpBatchRetrieve = None) ->
  (forall i, i < k ->
     String.eqb (batch_status env (length (log w) + i)) "completed" = false) ->
  batch_status env (length (log w) + k) = "completed" ->
  k < fuel ->
  exists w',
    Legacy.poll env fuel id w = (Ret tt, w') /\
    mgr w' = mgr w /\ disk w' = disk w /\
    log w' = (log w ++ repeat (EvOp OpBatchRetrieve true) (S k))%list.
Proof.
  revert fuel w. induction k as [|k IH]; intros fuel w Hf Hno Hyes Hfuel.
  - destruct fuel as [|fuel]; [lia|].
    rewrite Legacy_poll_step by (rewrite <- (Nat.add_0_r (length (log w))); apply Hf; lia).
    rewrite Nat.add_0_r in Hyes. rewrite Hyes. simpl.
    eexists. repeat split.
  - destruct fuel as [|fuel]; [lia|].
    rewrite Legacy_poll_step by (rewrite <- (Nat.add_0_r (length (log w))); apply Hf; lia).
    pose proof (Hno 0 ltac:(lia)) as H0. rewrite Nat.add_0_r in H0. rewrite H0.
    set (w1 := emit (EvOp OpBatchRetrieve true) w).
    assert (Hlen : length (log w1) = S (length (log w))).
    { subst w1. simpl. rewrite length_app. simpl. lia. }
    destruct (IH fuel w1) as (w' & Hrun & Hm & Hd & Hl).
    + intros i Hi. rewrite Hlen.
      replace (S (length (log w)) + i) with (length (log w) + S i) by lia.
      apply Hf. lia.
    + intros i Hi. rewrite Hlen.
      replace (S (length (log w)) + i) with (length (log w) + S i) by lia.
      apply Hno. lia.
    + rewrite Hlen.
      replace (S (length (log w)) + k) with (length (log w) + S k) by lia.
      exact Hyes.
    + lia.
    + exists w'. split; [exact Hrun|]. split; [exact Hm|]. split; [exact Hd|].
      rewrite Hl. subst w1. simpl. now rewrite <- app_assoc.
Qed.

Lemma poll_returns_at_first_completed_witness :
  exists w',
    Legacy.poll (Scenario.slow_batch 0) 5 "batch_1"
      (Legacy.start (Scenario.slow_batch 0) empty_disk) = (Ret tt, w') /\
    mgr w' = mgr (Legacy.start (Scenario.slow_batch 0) empty_disk) /\
    disk w' = disk (Legacy.start (Scenario.slow_batch 0) empty_disk) /\
    log w' = (log (Legacy.start (Scenario.slow_batch 0) empty_disk)
              ++ repeat (EvOp OpBatchRetrieve true) 3)%list.
Proof.
  apply (poll_returns_at_first_completed (Scenario.slow_batch 0) "batch_1" 2 5
           (Legacy.start (Scenario.slow_batch 0) empty_disk)).
  - intros i Hi. reflexivity.
  - intros i Hi. simpl. destruct i as [|[|i]]; [reflexivity | reflexivity | lia].
  - reflexivity.
  - lia.
Defined.

(** X6. A batch whose status is never [completed], one that
    failed or expired for instance, is asked about for ever: as long as
    the status requests do not fail, the loop is still waiting after any
    number of them. *)
Theorem poll_waits_for_completed (env : Env) (id : string) (fuel : nat)
    (w : World Legacy.BookManager) :
  (forall n, fault env n OpBatchRetrieve = None) ->
  (forall n, String.eqb (batch_status env n) "completed" = false) ->
  exists w',
    Legacy.poll env fuel id w = (Pending, w') /\
    mgr w' = mgr w /\ disk w' = disk w /\
    log w' = (log w ++ repeat (EvOp OpBatchRetrieve true) fuel)%list.
Proof.
  intros Hf Hno. revert w. induction fuel as [|fuel IH]; intros w.
  - exists w. simpl. rewrite app_nil_r. repeat split.
  - rewrite Legacy_poll_step by apply Hf. rewrite Hno.
    destruct (IH (emit (EvOp OpBatchRetrieve true) w))
      as (w' & Hrun & Hm & Hd & Hl).
    exists w'. split; [exact Hrun|]. split; [exact Hm|]. split; [exact Hd|].
    rewrite Hl. simpl. now rewrite <- app_assoc.
Qed.

Lemma poll_waits_for_completed_witness :
  exists w',
    Legacy.poll Scenario.stalled 7 "batch_1"
      (Legacy.start Scenario.stalled empty_disk) = (Pending, w') /\
    mgr w' = mgr (Legacy.start Scenario.stalled empty_disk) /\
    disk w' = disk (Legacy.start Scenario.stalled empty_disk) /\
    log w' = (log (Legacy.start Scenario.stalled empty_disk)
              ++ repeat (EvOp OpBatchRetrieve true) 7)%list.
Proof.
  apply (poll_waits_for_completed Scenario.stalled "batch_1" 7
           (Legacy.start Scenario.stalled empty_disk)).
  - intros n. reflexivity.
  - intros n. reflexivity.
Defined.

(** *** The batch input *)

Lemma Legacy_set_batchTasks_twice ts ts' (m : Legacy.BookManager) :
  Legacy.set_batchTasks ts (Legacy.set_batchTasks ts' m)
  = Legacy.set_batchTasks ts m.
Proof. reflexivity. Qed.

(** X7. [createBatchTasks] adds one task per chapter, from chapter
    1 to the last in this order, after the tasks that the manager already
    holds; every task carries the outline and the content that the
    manager has at the call. It makes no request, writes nothing and
    changes nothing else in the manager. *)
Theorem createBatchTasks_appends (chapters : nat) (theme : string)
    (w : World Legacy.BookManager) :
  Legacy.createBatchTasks chapters theme w
  = (Ret tt,
     {| mgr :=
          Legacy.set_batchTasks
            (Legacy.batchTasks (mgr w) ++
             map (fun chapter =>
                    {| Legacy.custom_id := "chapter-" +:+ pretty chapter;
                       Legacy.task_system := Legacy.systemPrompt;
                       Legacy.task_user :=
                         Legacy.batchTaskPrompt chapter theme
                           (outline_text (Legacy.outline (mgr w)))
                           (JS.JSON_stringify
                              (JS.content_value (Legacy.bookContent (mgr w)))) |})
                 (seq 1 chapters))
            (mgr w);
        disk := disk w;
        log := log w |}).
Proof.
  unfold Legacy.createBatchTasks, for_range.
  replace (S chapters - 1) with chapters by lia.
  generalize 1 as lo. revert w.
  induction chapters as [|n IH]; intros w lo; simpl.
  - unfold ret. rewrite app_nil_r. destruct w as [m d l]. destruct m. reflexivity.
  - unfold bind at 1, modify_mgr at 1. rewrite IH. simpl.
    rewrite <- app_assoc. reflexivity.
Qed.

(** ** Extraction of characters and plot points *)

Lemma for_each_modify {Mgr A} (xs : list A) (f : A -> Mgr -> Mgr)
    (w : World Mgr) :
  for_each xs (fun x => modify_mgr (f x)) w
  = (Ret tt,
     {| mgr := fold_left (fun m x => f x m) xs (mgr w);
        disk := disk w; log := log w |}).
Proof.
  revert w. induction xs as [|x r IH]; intros w; simpl.
  - destruct w; reflexivity.
  - unfold bind, modify_mgr at 1. now rewrite IH.
Qed.

Lemma Legacy_characters_loop (cs : list (option (string * JS.value)))
    (e : error) (w : World Legacy.BookManager) :
  for_each cs (fun char =>
    match char with
    | Some (name, details) => Legacy.addCharacter name details
    | None => throw e
    end) w
  = (if forallb not_null cs
     then Ret tt else Throw e,
     {| mgr := fold_left
                 (fun m c =>
                    Legacy.set_characters
                      (JS.assoc_set c.1
                         (Legacy.character_record c.2 (Legacy.currentChapter m))
                         (Legacy.characters m)) m)
                 (read_characters cs) (mgr w);
        disk := disk w; log := log w |}).
Proof.
  revert w. induction cs as [|[[name details]|] r IH]; intros w; simpl.
  - destruct w; reflexivity.
  - unfold bind, Legacy.addCharacter at 1, modify_mgr at 1. rewrite IH.
    simpl. now destruct (forallb _ r).
  - unfold bind, throw. destruct w; reflexivity.
Qed.

(** What an extraction request that has been answered does with the
    reply once parsed. *)
Lemma Legacy_merge_loops (md : Extracted) (w : World Legacy.BookManager) :
  try_catch
    (run match ex_characters md with
         | Falsy => ret tt
         | NotIterable =>
             throw (TypeError "metadata.characters is not iterable")
         | Array cs =>
             for_each cs (fun char =>
               match char with
               | Some (name, details) => Legacy.addCharacter name details
               | None =>
                   throw (TypeError
                            "Cannot read properties of null (reading 'name')")
               end)
         end;
     run match ex_plotPoints md with
         | Falsy => ret tt
         | NotIterable =>
             throw (TypeError "metadata.plotPoints is not iterable")
         | Array ps =>
             for_each ps (fun point =>
               modify_mgr (fun m =>
                 Legacy.set_plotPoints
                   (JS.set_add point (Legacy.plotPoints m)) m))
         end;
     ret md)
    (fun _ => ret Legacy.no_metadata) w
  = (Ret (if merges md then md else Legacy.no_metadata),
     {| mgr := merge_extracted md (mgr w); disk := disk w; log := log w |}).
Proof.
  unfold merge_extracted, merges, merged_plotPoints, merged_characters,
    characters_merge, try_catch.
  destruct md as [cs ps]. cbn [ex_characters ex_plotPoints].
  destruct cs as [| |cs]; unfold bind at 1.
  - destruct ps as [| |ps]; simpl; unfold bind;
      rewrite ?for_each_modify; simpl; destruct w; reflexivity.
  - simpl. destruct w; reflexivity.
  - rewrite Legacy_characters_loop.
    destruct (forallb _ cs); [|reflexivity].
    destruct ps as [| |ps]; simpl; unfold bind;
      rewrite ?for_each_modify; simpl; reflexivity.
Qed.

Lemma merge_extracted_default (m : Legacy.BookManager) :
  merge_extracted Legacy.no_metadata m = m.
Proof. destruct m; reflexivity. Qed.

(** The run of [extractMetadata] in full. *)
Lemma Legacy_extractMetadata_run env (content : string)
    (w : World Legacy.BookManager) :
  let system := "You are a metadata extractor. Always respond with valid JSON." in
  let user := Legacy.metadataPrompt content in
  let parsed :=
    match chat_reply env (length (log w)) system user with
    | inl _ => Legacy.no_metadata
    | inr reply => default Legacy.no_metadata (parse_extracted env reply)
    end in
  Legacy.extractMetadata env content w
  = (Ret (if merges parsed then parsed else Legacy.no_metadata),
     {| mgr := merge_extracted parsed (mgr w);
        disk := disk w;
        log := (log w ++ [EvChat system user])%list |}).
Proof.
  cbv zeta. unfold Legacy.extractMetadata.
  unfold try_catch, bind at 1, chat at 1.
  destruct (chat_reply env (length (log w)) _ _) as [e|reply].
  - rewrite merge_extracted_default. reflexivity.
  - cbv zeta.
    pose proof (Legacy_merge_loops
                  (default Legacy.no_metadata (parse_extracted env reply))
                  (emit (EvChat
                           "You are a metadata extractor. Always respond with valid JSON."
                           (Legacy.metadataPrompt content)) w)) as H.
    unfold try_catch in H. exact H.
Qed.


Lemma fold_characters_fields (cs : list (string * JS.value))
    (m : Legacy.BookManager) :
  let m' := fold_left
              (fun m c =>
                 Legacy.set_characters
                   (JS.assoc_set c.1
                      (Legacy.character_record c.2 (Legacy.currentChapter m))
                      (Legacy.characters m)) m) cs m in
  Legacy.plotPoints m' = Legacy.plotPoints m /\
  Legacy.bookContent m' = Legacy.bookContent m /\
  Legacy.progressState m' = Legacy.progressState m /\
  Legacy.outline m' = Legacy.outline m /\
  Legacy.metadata m' = Legacy.metadata m /\
  (forall name, In name (map fst (Legacy.characters m)) ->
                In name (map fst (Legacy.characters m'))) /\
  (Map_wf (Legacy.characters m) -> Map_wf (Legacy.characters m')).
Proof.
  revert m. induction cs as [|c r IH]; intros m; cbv zeta; simpl.
  - repeat split; auto.
  - specialize (IH (Legacy.set_characters
                      (JS.assoc_set c.1
                         (Legacy.character_record c.2 (Legacy.currentChapter m))
                         (Legacy.characters m)) m)).
    cbv zeta in IH. simpl in IH.
    destruct IH as (H1 & H2 & H3 & H4 & H5 & H6 & H7).
    repeat split; try assumption.
    + intros name Hin. apply H6. now apply assoc_set_keys.
    + intros Hwf. apply H7. now apply assoc_set_wf.
Qed.

Lemma set_add_prefix (x : string) (s : list string) :
  s `prefix_of` JS.set_add x s.
Proof.
  unfold JS.set_add. destruct (existsb _ _); [reflexivity|].
  now exists [x].
Qed.

Lemma fold_plotPoints_fields (ps : list string) (m : Legacy.BookManager) :
  let m' := fold_left
              (fun m point =>
                 Legacy.set_plotPoints
                   (JS.set_add point (Legacy.plotPoints m)) m) ps m in
  Legacy.characters m' = Legacy.characters m /\
  Legacy.bookContent m' = Legacy.bookContent m /\
  Legacy.progressState m' = Legacy.progressState m /\
  Legacy.outline m' = Legacy.outline m /\
  Legacy.metadata m' = Legacy.metadata m /\
  Legacy.plotPoints m `prefix_of` Legacy.plotPoints m' /\
  (Set_wf (Legacy.plotPoints m) -> Set_wf (Legacy.plotPoints m')) /\
  (forall point, In point ps -> In point (Legacy.plotPoints m')).
Proof.
  revert m. induction ps as [|p r IH]; intros m; cbv zeta; simpl.
  - repeat split; auto. intros point [].
  - specialize (IH (Legacy.set_plotPoints
                      (JS.set_add p (Legacy.plotPoints m)) m)).
    cbv zeta in IH. simpl in IH.
    destruct IH as (H1 & H2 & H3 & H4 & H5 & H6 & H7 & H8).
    repeat split; try assumption.
    + etransitivity; [apply set_add_prefix | exact H6].
    + intros Hwf. apply H7. now apply set_add_wf.
    + intros point [<-|Hin]; [|now apply H8].
      destruct H6 as [k ->]. apply in_or_app. left.
      unfold JS.set_add. destruct (existsb _ _) eqn:E.
      * now apply existsb_eqb_In.
      * apply in_or_app. right. now left.
Qed.

(** X9. An extraction only adds to what the manager knows of the
    story: the plot points already held stay, in their order, at the head
    of the set, every plot point of the extraction returned is in the set
    afterwards and none is held twice; no character leaves the table; the
    content of the book, the cursor, the outline and the metadata are not
    touched. *)
Theorem extractMetadata_only_adds (env : Env) (content : string)
    (w : World Legacy.BookManager) :
  let r := Legacy.extractMetadata env content w in
  Legacy.plotPoints (mgr w) `prefix_of` Legacy.plotPoints (mgr r.2) /\
  (Set_wf (Legacy.plotPoints (mgr w)) -> Set_wf (Legacy.plotPoints (mgr r.2))) /\
  (forall md points point,
     r.1 = Ret md -> ex_plotPoints md = Array points -> In point points ->
     In point (Legacy.plotPoints (mgr r.2))) /\
  (forall name, In name (map fst (Legacy.characters (mgr w))) ->
                In name (map fst (Legacy.characters (mgr r.2)))) /\
  (Map_wf (Legacy.characters (mgr w)) -> Map_wf (Legacy.characters (mgr r.2))) /\
  Legacy.bookContent (mgr r.2) = Legacy.bookContent (mgr w) /\
  Legacy.progressState (mgr r.2) = Legacy.progressState (mgr w) /\
  Legacy.outline (mgr r.2) = Legacy.outline (mgr w) /\
  Legacy.metadata (mgr r.2) = Legacy.metadata (mgr w).
Proof.
  cbv zeta. pose proof (Legacy_extractMetadata_run env content w) as Hrun.
  cbv zeta in Hrun. rewrite Hrun. clear Hrun. cbn [fst snd mgr].
  set (parsed := match chat_reply env (length (log w)) _ _ with
                 | inl _ => Legacy.no_metadata
                 | inr reply =>
                     default Legacy.no_metadata (parse_extracted env reply)
                 end).
  unfold merge_extracted.
  pose proof (fold_characters_fields (merged_characters parsed) (mgr w)) as Hc.
  cbv zeta in Hc. destruct Hc as (C1 & C2 & C3 & C4 & C5 & C6 & C7).
  pose proof (fold_plotPoints_fields (merged_plotPoints parsed)
                (fold_left
                   (fun m c =>
                      Legacy.set_characters
                        (JS.assoc_set c.1
                           (Legacy.character_record c.2 (Legacy.currentChapter m))
                           (Legacy.characters m)) m)
                   (merged_characters parsed) (mgr w))) as Hp.
  cbv zeta in Hp. destruct Hp as (P1 & P2 & P3 & P4 & P5 & P6 & P7 & P8).
  repeat split.
  - now rewrite <- C1.
  - intros Hwf. apply P7. now rewrite C1.
  - intros md' points point Hmd Hpoints Hin. injection Hmd as Hmd.
    apply P8. unfold merged_plotPoints.
    unfold merges in Hmd. destruct (characters_merge parsed); simpl in Hmd.
    + destruct (ex_plotPoints parsed) as [| |ps] eqn:Hps.
      * subst md'. rewrite Hps in Hpoints. discriminate Hpoints.
      * subst md'. simpl in Hpoints. injection Hpoints as <-. destruct Hin.
      * subst md'. rewrite Hps in Hpoints. injection Hpoints as <-. exact Hin.
    + subst md'. simpl in Hpoints. injection Hpoints as <-. destruct Hin.
  - intros name Hin. rewrite P1. now apply C6.
  - intros Hwf. rewrite P1. now apply C7.
  - now rewrite P2.
  - now rewrite P3.
  - now rewrite P4.
  - now rewrite P5.
Qed.

(** ** The conversation history *)

Lemma window_app {A} (a b : list A) :
  drop (length (drop (length a - 10) a ++ b) - 10) (drop (length a - 10) a ++ b)
  = drop (length (a ++ b) - 10) (a ++ b).
Proof.
  destruct (decide (length a <= 10)) as [Hle|Hgt].
  - replace (length a - 10) with 0 by lia. reflexivity.
  - rewrite !drop_app, !length_app, !length_drop, drop_drop.
    f_equal; f_equal; lia.
Qed.

Lemma Legacy_set_conversationHistory_twice h h' (m : Legacy.BookManager) :
  Legacy.set_conversationHistory h (Legacy.set_conversationHistory h' m)
  = Legacy.set_conversationHistory h m.
Proof. reflexivity. Qed.

Lemma Legacy_conversationHistory_set h (m : Legacy.BookManager) :
  Legacy.conversationHistory (Legacy.set_conversationHistory h m) = h.
Proof. reflexivity. Qed.

Lemma Legacy_continueStory_run (previousContent : string)
    (w : World Legacy.BookManager) :
  let all := (Legacy.conversationHistory (mgr w)
              ++ [("assistant", previousContent)])%list in
  Legacy.continueStory previousContent w
  = (Ret (drop (length all - 10) all),
     {| mgr := Legacy.set_conversationHistory (drop (length all - 10) all) (mgr w);
        disk := disk w; log := log w |}).
Proof.
  cbv zeta. unfold Legacy.continueStory.
  unfold bind, modify_mgr, get_mgr, ret. simpl.
  destruct (Nat.ltb_spec 10
              (length (Legacy.conversationHistory (mgr w)
                       ++ [("assistant", previousContent)]))) as [Hlt|Hge];
    simpl.
  - reflexivity.
  - replace (length (Legacy.conversationHistory (mgr w)
                     ++ [("assistant", previousContent)]) - 10) with 0 by lia.
    reflexivity.
Qed.

Lemma Legacy_continueStory_many (contents : list string)
    (w : World Legacy.BookManager) :
  length (Legacy.conversationHistory (mgr w)) <= 10 ->
  let all := (Legacy.conversationHistory (mgr w)
              ++ map (fun c => ("assistant", c)) contents)%list in
  for_each contents (fun c => do _ <- Legacy.continueStory c; ret tt) w
  = (Ret tt,
     {| mgr := Legacy.set_conversationHistory (drop (length all - 10) all) (mgr w);
        disk := disk w; log := log w |}).
Proof.
  revert w. induction contents as [|c r IH]; intros w Hlen; cbv zeta; simpl.
  - rewrite app_nil_r.
    replace (length (Legacy.conversationHistory (mgr w)) - 10) with 0 by lia.
    destruct w as [m d l]. destruct m. reflexivity.
  - unfold bind at 1. unfold bind at 1. rewrite Legacy_continueStory_run.
    cbv zeta. unfold ret at 1.
    rewrite IH.
    + cbv zeta. cbn [mgr disk log].
      rewrite Legacy_conversationHistory_set,
        Legacy_set_conversationHistory_twice, window_app, <- app_assoc.
      reflexivity.
    + cbn [mgr]. rewrite Legacy_conversationHistory_set, length_drop. lia.
Qed.

(** X10. The conversation history is a window on the ten latest
    entries. Each call of [continueStory] appends the content as an
    assistant message and returns the history cut to its last ten entries;
    after any number of calls, whatever the history held before, it holds
    the last ten of all the entries in their order. Nothing else in the
    manager changes, no request is made and nothing is written. *)
Theorem continueStory_keeps_last_ten (first : string) (more : list string)
    (w : World Legacy.BookManager) :
  let entry := fun c : string => ("assistant", c) in
  let one := (Legacy.conversationHistory (mgr w) ++ [entry first])%list in
  let all := (Legacy.conversationHistory (mgr w)
              ++ map entry (first :: more))%list in
  Legacy.continueStory first w
  = (Ret (drop (length one - 10) one),
     {| mgr := Legacy.set_conversationHistory (drop (length one - 10) one) (mgr w);
        disk := disk w; log := log w |}) /\
  for_each (first :: more) (fun c => do _ <- Legacy.continueStory c; ret tt) w
  = (Ret tt,
     {| mgr := Legacy.set_conversationHistory (drop (length all - 10) all) (mgr w);
        disk := disk w; log := log w |}) /\
  length (drop (length all - 10) all) <= 10 /\
  last (drop (length all - 10) all) = Some (entry (List.last more first)).
Proof.
  cbv zeta. split; [apply Legacy_continueStory_run|]. split; [|split].
  - simpl. unfold bind at 1. unfold bind at 1. rewrite Legacy_continueStory_run.
    cbv zeta. unfold ret at 1.
    rewrite Legacy_continueStory_many.
    + cbv zeta. cbn [mgr disk log].
      rewrite Legacy_conversationHistory_set,
        Legacy_set_conversationHistory_twice, window_app, <- app_assoc.
      reflexivity.
    + cbn [mgr]. rewrite Legacy_conversationHistory_set, length_drop. lia.
  - rewrite length_drop. lia.
  - replace (Legacy.conversationHistory (mgr w)
             ++ map (fun c => ("assistant", c)) (first :: more))%list
      with ((Legacy.conversationHistory (mgr w)
             ++ map (fun c => ("assistant", c)) (removelast (first :: more)))
            ++ [("assistant", List.last more first)])%list.
    + rewrite drop_app_le by (rewrite (length_app _ [_]); simpl; lia).
      apply last_snoc.
    + rewrite <- app_assoc. f_equal.
      change [("assistant", List.last more first)]
        with (map (fun c : string => ("assistant", c)) [List.last more first]).
      rewrite <- map_app. f_equal.
      replace (List.last more first) with (List.last (first :: more) first)
        by (destruct more; reflexivity).
      symmetry. apply app_removelast_last. discriminate.
Qed.

(** ** Output formats *)

(** X11. Of the formats that the manager names, [txt] and [html]
    are the only ones it can produce. [exportToFormat] compiles the book
    first; for [html], [markdown] and [epub] it then calls an exporter
    that no class declares and fails with a [TypeError], the compiled
    files having been written; for any other format it resolves to the
    paths of the compiled files. [formatContent] fails in the same way
    for [epub] and [pdf], wraps the rendering of the content in the HTML
    page for [html], and returns the content as it is for any other
    format; it touches nothing. *)
Theorem formats_without_exporter (env : Env)
    (undeclared : forall A : Type, string -> M Legacy.BookManager A)
    (marked : string -> string) (w : World Legacy.BookManager) :
  (forall format exporter,
     In (format, exporter)
        [("html", "exportToHTML"); ("markdown", "exportToMarkdown");
         ("epub", "exportToEPUB")] ->
     Legacy.exportToFormat env undeclared format w
     = (run Legacy.compileBook env;
        throw (TypeError ("this." +:+ exporter +:+ " is not a function"))) w) /\
  (forall format,
     ~ In format ["html"; "markdown"; "epub"] ->
     Legacy.exportToFormat env undeclared format w
     = (do content <- Legacy.compileBook env;
        ret (Legacy.Compiled content.1 content.2)) w) /\
  (forall content format formatter,
     In (format, formatter) [("epub", "formatEPUB"); ("pdf", "formatPDF")] ->
     Legacy.formatContent undeclared marked content format w
     = (Throw (TypeError ("this." +:+ formatter +:+ " is not a function")), w)) /\
  (forall content,
     Legacy.formatContent undeclared marked content "html" w
     = (Ret (Legacy.htmlPage (marked content)), w)) /\
  (forall content format,
     ~ In format ["html"; "epub"; "pdf"] ->
     Legacy.formatContent undeclared marked content format w
     = (Ret content, w)).
Proof.
  split; [|split; [|split; [|split]]].
  - intros format exporter Hin. simpl in Hin.
    destruct Hin as [H|[H|[H|[]]]]; injection H as <- <-; reflexivity.
  - intros format Hnot. unfold Legacy.exportToFormat.
    destruct (String.eqb_spec format "html") as [->|_];
      [exfalso; apply Hnot; simpl; auto|].
    destruct (String.eqb_spec format "markdown") as [->|_];
      [exfalso; apply Hnot; simpl; auto|].
    destruct (String.eqb_spec format "epub") as [->|_];
      [exfalso; apply Hnot; simpl; auto|].
    reflexivity.
  - intros content format formatter Hin. simpl in Hin.
    destruct Hin as [H|[H|[]]]; injection H as <- <-; reflexivity.
  - intros content. reflexivity.
  - intros content format Hnot. unfold Legacy.formatContent.
    destruct (String.eqb_spec format "html") as [->|_];
      [exfalso; apply Hnot; simpl; auto|].
    destruct (String.eqb_spec format "epub") as [->|_];
      [exfalso; apply Hnot; simpl; auto|].
    destruct (String.eqb_spec format "pdf") as [->|_];
      [exfalso; apply Hnot; simpl; auto|].
    reflexivity.
Qed.

(** ** Page records *)

(** X12. A page that [saveProgress] has written as JSON can be
    read back by [loadProgress]: when the write of the JSON file is not
    refused, the record of the page is on disk with the content given,
    whether or not the DOCX that follows can be written, and a read that
    is not refused returns it. *)
Theorem saved_page_reads_back (env : Env) (content : string)
    (chapter page : nat) (w : World Legacy.BookManager) :
  let file := "chapter" +:+ pretty chapter +:+ "_page" +:+ pretty page +:+ ".json" in
  let record := {| pd_chapter := chapter; pd_page := page;
                   pd_content := content;
                   pd_timestamp := clock env (length (log w)) |} in
  let saved := Legacy.saveProgress env content chapter page w in
  fault env (length (log w)) (OpWrite file) = None ->
  fault env (length (log saved.2)) (OpRead file) = None ->
  page_files (disk saved.2) !! (chapter, page) = Some record /\
  (Legacy.loadProgress env chapter page saved.2).1 = Ret (Some record).
Proof.
  cbv zeta. intros Hwrite Hread.
  assert (Hdisk : page_files
                    (disk (Legacy.saveProgress env content chapter page w).2)
                  !! (chapter, page)
                  = Some {| pd_chapter := chapter; pd_page := page;
                            pd_content := content;
                            pd_timestamp := clock env (length (log w)) |}).
  { unfold Legacy.saveProgress, Legacy.saveAsDocx. unfold_monad.
    rewrite Hwrite. simpl.
    repeat match goal with
           | |- context [fault ?e ?n ?o] => destruct (fault e n o); simpl
           end;
      apply lookup_insert_eq. }
  split; [exact Hdisk|].
  unfold Legacy.loadProgress, try_catch, bind, ret, fs_read_page.
  rewrite Hread, Hdisk. reflexivity.
Qed.

Lemma saved_page_reads_back_witness :
  let record := {| pd_chapter := 3; pd_page := 4;
                   pd_content := "It was a dark night.";
                   pd_timestamp := "2024-01-01T00:00:00.000Z" |} in
  let saved := Legacy.saveProgress Scenario.no_docx "It was a dark night." 3 4
                 (Legacy.start Scenario.no_docx empty_disk) in
  page_files (disk saved.2) !! (3, 4) = Some record /\
  (Legacy.loadProgress Scenario.no_docx 3 4 saved.2).1 = Ret (Some record).
Proof.
  apply (saved_page_reads_back Scenario.no_docx "It was a dark night." 3 4
           (Legacy.start Scenario.no_docx empty_disk)); reflexivity.
Defined.

(** ** Strings: numbers in file names *)

Lemma pretty_N_go_digits (x : N) (s : string) :
  digits s = true -> digits (pretty_N_go x s) = true.
Proof.
  revert s. induction (N.lt_wf_0 x) as [x _ IH]; intros s Hs.
  destruct (decide (x = 0)%N) as [->|Hx].
  - now rewrite pretty_N_go_0.
  - rewrite pretty_N_go_step by lia. apply IH.
    + apply N.div_lt; lia.
    + simpl. rewrite Hs, andb_true_r.
      unfold pretty_N_char. repeat case_match; reflexivity.
Qed.

Lemma pretty_nat_digits (n : nat) : digits (pretty n) = true.
Proof.
  unfold pretty, pretty_nat, pretty, pretty_N.
  case_decide; [reflexivity|]. now apply pretty_N_go_digits.
Qed.

(** Two numbers followed by the same character that is no digit: the
    texts are equal only if the numbers and what follows them are. *)
Lemma digits_then_inj (d1 d2 : string) (c : ascii) (r1 r2 : string) :
  digits d1 = true -> digits d2 = true -> is_digit c = false ->
  d1 +:+ String c r1 = d2 +:+ String c r2 -> d1 = d2 /\ r1 = r2.
Proof.
  revert d2. induction d1 as [|a d1 IH]; intros [|b d2] H1 H2 Hc Heq;
    simpl in *.
  - injection Heq as <-. auto.
  - injection Heq as -> _. apply andb_prop in H2 as [H2 _]. congruence.
  - injection Heq as -> _. apply andb_prop in H1 as [H1 _]. congruence.
  - injection Heq as -> Heq.
    apply andb_prop in H1 as [_ H1]. apply andb_prop in H2 as [_ H2].
    destruct (IH d2 H1 H2 Hc Heq) as [-> ->]. auto.
Qed.

Lemma append_inv_head (a b c : string) : a +:+ b = a +:+ c -> b = c.
Proof. apply (inj (String.append a)). Qed.

Lemma string_app_assoc (a b c : string) : (a +:+ b) +:+ c = a +:+ (b +:+ c).
Proof.
  induction a as [|x a IH]; [reflexivity|].
  change (String x ((a +:+ b) +:+ c) = String x (a +:+ (b +:+ c))).
  now rewrite IH.
Qed.

Lemma numbered_inj (a : string) (c : ascii) (r1 r2 : string) (n1 n2 : nat) :
  is_digit c = false ->
  a +:+ pretty n1 +:+ String c r1 = a +:+ pretty n2 +:+ String c r2 ->
  n1 = n2 /\ r1 = r2.
Proof.
  intros Hc Heq. apply append_inv_head in Heq.
  apply digits_then_inj in Heq as [Hn Hr];
    auto using pretty_nat_digits.
  split; [|assumption]. now apply (inj pretty).
Qed.

(** ** What a run adds to the log, given what the manager holds *)

Section Steps.
Context {Mgr : Type} (Inv : Mgr -> Prop) (Q : list Event -> Prop).
Hypothesis Q_nil : Q [].
Hypothesis Q_app : forall l1 l2, Q l1 -> Q l2 -> Q (l1 ++ l2)%list.

Lemma steps_still {A} (m : M Mgr A) :
  (forall w, (m w).2 = w) -> steps Inv Q m.
Proof.
  intros Hm w r w' HI H. pose proof (Hm w) as Hw. rewrite H in Hw.
  simpl in Hw. subst w'. split; [assumption|].
  exists []. now rewrite app_nil_r.
Qed.

Lemma steps_ret {A} (a : A) : steps Inv Q (ret a).
Proof. now apply steps_still. Qed.

Lemma steps_throw {A} (e : error) : steps (A:=A) Inv Q (throw e).
Proof. now apply steps_still. Qed.

Lemma steps_get_mgr : steps Inv Q get_mgr.
Proof. now apply steps_still. Qed.

Lemma steps_now env : steps Inv Q (now env).
Proof. now apply steps_still. Qed.

Lemma steps_modify_mgr (f : Mgr -> Mgr) :
  (forall m, Inv m -> Inv (f m)) -> steps Inv Q (modify_mgr f).
Proof.
  intros Hf w r w' HI H. injection H as <- <-. simpl.
  split; [now apply Hf|]. exists []. now rewrite app_nil_r.
Qed.

Lemma steps_bind {A B} (m : M Mgr A) (k : A -> M Mgr B) :
  steps Inv Q m -> (forall a, steps Inv Q (k a)) -> steps Inv Q (bind m k).
Proof.
  intros Hm Hk w r w' HI H. unfold bind in H.
  destruct (m w) as [[a|e|] w1] eqn:E;
    destruct (Hm _ _ _ HI E) as (HI1 & l1 & Hl1 & HQ1).
  - destruct (Hk a _ _ _ HI1 H) as (HI2 & l2 & Hl2 & HQ2).
    split; [assumption|]. exists (l1 ++ l2)%list.
    rewrite Hl2, Hl1, app_assoc. auto.
  - injection H as <- <-. eauto.
  - injection H as <- <-. eauto.
Qed.

(** The manager read by [get_mgr] satisfies the invariant. *)
Lemma steps_bind_mgr {B} (k : Mgr -> M Mgr B) :
  (forall m, Inv m -> steps Inv Q (k m)) -> steps Inv Q (bind get_mgr k).
Proof.
  intros Hk w r w' HI H. unfold bind, get_mgr in H.
  exact (Hk (mgr w) HI _ _ _ HI H).
Qed.

Lemma steps_try_catch {A} (m : M Mgr A) (h : error -> M Mgr A) :
  steps Inv Q m -> (forall e, steps Inv Q (h e)) -> steps Inv Q (try_catch m h).
Proof.
  intros Hm Hh w r w' HI H. unfold try_catch in H.
  destruct (m w) as [[a|e|] w1] eqn:E;
    destruct (Hm _ _ _ HI E) as (HI1 & l1 & Hl1 & HQ1).
  - injection H as <- <-. eauto.
  - destruct (Hh e _ _ _ HI1 H) as (HI2 & l2 & Hl2 & HQ2).
    split; [assumption|]. exists (l1 ++ l2)%list.
    rewrite Hl2, Hl1, app_assoc. auto.
  - injection H as <- <-. eauto.
Qed.

Lemma steps_rethrow {A} (m : M Mgr A) :
  steps Inv Q m -> steps Inv Q (rethrow m).
Proof.
  intros Hm. apply steps_try_catch; [assumption|]. intros e. apply steps_throw.
Qed.

Lemma steps_for_each {A} (xs : list A) (body : A -> M Mgr unit) :
  (forall x, steps Inv Q (body x)) -> steps Inv Q (for_each xs body).
Proof.
  intros Hbody. induction xs as [|x r IH]; simpl.
  - apply steps_ret.
  - apply steps_bind; [apply Hbody | intros _; exact IH].
Qed.

(** A step that logs one event and leaves the manager alone. *)
Lemma steps_one {A} (m : M Mgr A) (ev : World Mgr -> outcome A -> Event) :
  (forall w, mgr (m w).2 = mgr w /\
             log (m w).2 = (log w ++ [ev w (m w).1])%list) ->
  (forall w r, Q [ev w r]) ->
  steps Inv Q m.
Proof.
  intros Hm HQ w r w' HI H. destruct (Hm w) as [Hmgr Hlog].
  rewrite H in Hmgr, Hlog. simpl in *.
  split; [now rewrite Hmgr|]. eexists. split; [exact Hlog | apply HQ].
Qed.

Lemma steps_perform env (op : Op) :
  (forall ok, Q [EvOp op ok]) -> steps Inv Q (perform env op).
Proof.
  intros HQ.
  apply (steps_one _ (fun w r => EvOp op match r with Ret _ => true | _ => false end)).
  - intros w. unfold perform. destruct (fault env _ _); split; reflexivity.
  - intros w r. apply HQ.
Qed.

Lemma steps_fs_writeFile env (path : string) (c : Content) :
  (forall ok, Q [EvWrite path c ok]) -> steps Inv Q (fs_writeFile env path c).
Proof.
  intros HQ.
  apply (steps_one _ (fun w r => EvWrite path c match r with Ret _ => true | _ => false end)).
  - intros w. unfold fs_writeFile.
    destruct (fault env _ _); [split; reflexivity|].
    destruct c; split; reflexivity.
  - intros w r. apply HQ.
Qed.

Lemma steps_fs_read_state env (path : string) :
  (forall ok, Q [EvOp (OpRead path) ok]) -> steps Inv Q (fs_read_state env path).
Proof.
  intros HQ.
  apply (steps_one _ (fun w r => EvOp (OpRead path) match r with Ret _ => true | _ => false end)).
  - intros w. unfold fs_read_state.
    destruct (fault env _ _); [split; reflexivity|].
    destruct (state_file _); split; reflexivity.
  - intros w r. apply HQ.
Qed.

Lemma steps_chat env (system user : string) :
  Q [EvChat system user] -> steps Inv Q (chat env system user).
Proof.
  intros HQ. apply (steps_one _ (fun _ _ => EvChat system user)).
  - intros w. unfold chat. destruct (chat_reply env _ _ _); split; reflexivity.
  - intros w r. exact HQ.
Qed.

Lemma steps_images_generate env (prompt : string) :
  Q [EvImage prompt] -> steps Inv Q (images_generate env prompt).
Proof.
  intros HQ. apply (steps_one _ (fun _ _ => EvImage prompt)).
  - intros w. unfold images_generate.
    destruct (image_reply env _ _); split; reflexivity.
  - intros w r. exact HQ.
Qed.

Lemma steps_call_progress (cb : option ProgressCallback) (chapter page : nat) :
  Q [EvCallback chapter page] -> steps Inv Q (call_progress cb chapter page).
Proof.
  intros HQ. destruct cb as [f|]; simpl; [|apply steps_ret].
  apply (steps_one _ (fun _ _ => EvCallback chapter page)).
  - intros w. destruct (f chapter page); split; reflexivity.
  - intros w r. exact HQ.
Qed.

End Steps.

(** One step of a proof of [steps]: [app_tac] shows that [Q] holds of the
    empty list and of a concatenation, [inv_tac] that an update keeps the
    invariant of the manager, [ev_tac] that [Q] holds of the event of a
    primitive step. *)
Ltac steps_step app_tac inv_tac ev_tac :=
  lazymatch goal with
  | |- steps _ _ (bind get_mgr _) =>
      apply steps_bind_mgr; [app_tac.. | intros ? ?]
  | |- steps _ _ (bind _ _) => apply steps_bind; [app_tac.. | | intros ?]
  | |- steps _ _ (try_catch _ _) =>
      apply steps_try_catch; [app_tac.. | | intros ?]
  | |- steps _ _ (rethrow _) => apply steps_rethrow; [app_tac.. | ]
  | |- steps _ _ (ret _) => apply steps_ret; app_tac
  | |- steps _ _ (throw _) => apply steps_throw; app_tac
  | |- steps _ _ get_mgr => apply steps_get_mgr; app_tac
  | |- steps _ _ (now _) => apply steps_now; app_tac
  | |- steps _ _ (modify_mgr _) => apply steps_modify_mgr; [app_tac.. | inv_tac]
  | |- steps _ _ (for_each _ _) => apply steps_for_each; [app_tac.. | intros ?]
  | |- steps _ _ (for_range _ _ _) =>
      apply steps_for_each; [app_tac.. | intros ?]
  | |- steps _ _ (call_progress _ _ _) =>
      apply steps_call_progress; [app_tac.. | ev_tac]
  | |- steps _ _ (perform _ _) => apply steps_perform; [intros ?; ev_tac]
  | |- steps _ _ (fs_writeFile _ _ _) =>
      apply steps_fs_writeFile; [intros ?; ev_tac]
  | |- steps _ _ (fs_read_state _ _) =>
      apply steps_fs_read_state; [intros ?; ev_tac]
  | |- steps _ _ (chat _ _ _) => apply steps_chat; [ev_tac]
  | |- steps _ _ (images_generate _ _) => apply steps_images_generate; [ev_tac]
  | |- steps _ _ (if ?b then _ else _) => destruct b
  | |- steps _ _ (match ?x with _ => _ end) => destruct x
  | |- steps _ _ (let _ := _ in _) => cbv zeta
  end.

(** ** The files of the pages *)

Lemma writes_are_nil (ok : string -> Content -> Prop) : writes_are ok [].
Proof. constructor. Qed.

Lemma writes_are_app (ok : string -> Content -> Prop) (l1 l2 : list Event) :
  writes_are ok l1 -> writes_are ok l2 -> writes_are ok (l1 ++ l2).
Proof. intros H1 H2. apply Forall_app. auto. Qed.

Lemma Legacy_page_file env (content : string) (chapter page : nat)
    (w : World Legacy.BookManager) :
  page_file (new_events w (Legacy.saveProgress env content chapter page w).2)
  = Some ("chapter" +:+ pretty chapter +:+ "_page" +:+ pretty page +:+ ".json").
Proof.
  unfold Legacy.saveProgress. unfold bind at 1, now at 1. unfold bind at 1.
  assert (Hrest : emits (fun _ => True)
                    (Legacy.saveAsDocx env content chapter page))
    by (unfold Legacy.saveAsDocx; grows).
  unfold fs_writeFile at 1.
  destruct (fault env (length (log w)) _) as [e|].
  - unfold new_events. simpl. now rewrite drop_app_length.
  - destruct (Legacy.saveAsDocx env content chapter page _) as [r w'] eqn:E.
    destruct (Hrest _ _ _ E) as (l & Hl & _). simpl.
    unfold new_events. rewrite Hl. simpl.
    now rewrite <- app_assoc, drop_app_length.
Qed.

Ltac writes_tac :=
  first [ apply writes_are_nil | apply writes_are_app ].

Lemma Modular_page_writes env (content : string) (chapter page : nat)
    (out : string) :
  steps (fun m => Modular.outputPath m = out)
    (pages_go_to (out +:+ "/chapters/chapter" +:+ pretty chapter +:+
                  "/page" +:+ pretty page +:+ ".json"))
    (Modular.saveProgress env content chapter page).
Proof.
  unfold Modular.saveProgress, Modular.ensureDirectories, Modular.saveState,
    Modular.StateManager_saveState, Modular.writeFile,
    Modular.createDirectory, Modular.createDocxDocument.
  repeat steps_step
    ltac:(unfold pages_go_to; writes_tac)
    ltac:(intros ? ?; assumption)
    ltac:(repeat constructor).
  all: try (repeat constructor; fail).
  repeat constructor. simpl.
  match goal with H : Modular.outputPath _ = _ |- _ => rewrite H end.
  now rewrite !string_app_assoc.
Qed.

Lemma pages_go_to_file (file path : string) (l : list Event) :
  pages_go_to file l -> page_file l = Some path -> path = file.
Proof.
  unfold page_file. induction 1 as [|ev l Hev _ IH]; [discriminate|].
  destruct ev as [| | |p [d|d|] ok|]; simpl; auto.
  intros H. injection H as <-. exact Hev.
Qed.

(** X13. No two pages share a file. The path to which [saveProgress]
    writes the record of a page determines the chapter and the page: in
    the legacy manager for any two calls, in the modular manager for any
    two calls on managers with the same output directory. *)
Theorem pages_have_their_own_file :
  (forall env env' content content' chapter page chapter' page'
          (w w0 : World Legacy.BookManager),
     page_file (new_events w
                  (Legacy.saveProgress env content chapter page w).2)
     = page_file (new_events w0
                    (Legacy.saveProgress env' content' chapter' page' w0).2) ->
     chapter = chapter' /\ page = page') /\
  (forall env env' content content' chapter page chapter' page'
          (w w0 : World Modular.BookManager) file,
     Modular.outputPath (mgr w) = Modular.outputPath (mgr w0) ->
     page_file (new_events w
                  (Modular.saveProgress env content chapter page w).2)
     = Some file ->
     page_file (new_events w0
                  (Modular.saveProgress env' content' chapter' page' w0).2)
     = Some file ->
     chapter = chapter' /\ page = page').
Proof.
  split.
  - intros env env' content content' chapter page chapter' page' w w0.
    rewrite !Legacy_page_file. intros H. apply (inj Some) in H.
    apply (numbered_inj "chapter" "_"%char) in H as [-> H]; [|reflexivity].
    apply (numbered_inj "page" "."%char) in H as [-> _]; [|reflexivity].
    auto.
  - intros env env' content content' chapter page chapter' page' w w0 file
      Hout H1 H2.
    assert (Hfile : forall env content chapter page (w : World Modular.BookManager) file,
              page_file (new_events w
                           (Modular.saveProgress env content chapter page w).2)
              = Some file ->
              file = Modular.outputPath (mgr w) +:+ "/chapters/chapter" +:+
                     pretty chapter +:+ "/page" +:+ pretty page +:+ ".json").
    { clear. intros env content chapter page w file H.
      destruct (Modular.saveProgress env content chapter page w) as [r w'] eqn:E.
      destruct (Modular_page_writes env content chapter page
                  (Modular.outputPath (mgr w)) _ _ _ eq_refl E)
        as (_ & l & Hl & Hq).
      revert H. unfold new_events. simpl. rewrite Hl, drop_app_length.
      now apply pages_go_to_file. }
    apply Hfile in H1, H2. rewrite H1, Hout in H2.
    apply append_inv_head in H2.
    apply (numbered_inj "/chapters/chapter" "/"%char) in H2 as [-> H2];
      [|reflexivity].
    apply (numbered_inj "page" "."%char) in H2 as [-> _]; [|reflexivity].
    auto.
Qed.

Lemma pages_have_their_own_file_witness :
  page_file (new_events (Legacy.start Scenario.calm empty_disk)
               (Legacy.saveProgress Scenario.calm "one" 1 11
                  (Legacy.start Scenario.calm empty_disk)).2)
  = Some "chapter1_page11.json" /\
  page_file (new_events (Legacy.start Scenario.calm empty_disk)
               (Legacy.saveProgress Scenario.calm "two" 11 1
                  (Legacy.start Scenario.calm empty_disk)).2)
  = Some "chapter11_page1.json" /\
  page_file (new_events Scenario.sample_world
               (Modular.saveProgress Scenario.calm "one" 2 3
                  Scenario.sample_world).2)
  = Some "output/books/book/chapters/chapter2/page3.json" /\
  (2 = 2 /\ 3 = 3).
Proof.
  split; [reflexivity|]. split; [reflexivity|]. split; [reflexivity|].
  apply (proj2 pages_have_their_own_file Scenario.calm Scenario.calm
           "one" "two" 2 3 2 3 Scenario.sample_world Scenario.sample_world
           "output/books/book/chapters/chapter2/page3.json");
    reflexivity.
Defined.

(** ** Directories and files of a modular run *)

Lemma prepared_after_any (prev : option Event) (l : list Event) :
  prepared_after None l = true -> prepared_after prev l = true.
Proof.
  destruct l as [|ev r]; [reflexivity|]. simpl.
  destruct ev; try (intros H; exact H). discriminate.
Qed.

Lemma prepared_after_app (prev : option Event) (l1 l2 : list Event) :
  prepared_after prev l1 = true -> prepared_after None l2 = true ->
  prepared_after prev (l1 ++ l2) = true.
Proof.
  revert prev. induction l1 as [|ev r IH]; intros prev H1 H2; simpl in *.
  - now apply prepared_after_any.
  - apply andb_prop in H1 as [Hev Hr]. rewrite Hev. simpl. now apply IH.
Qed.

Lemma prepared_nil : prepared [].
Proof. reflexivity. Qed.

Lemma prepared_app (l1 l2 : list Event) :
  prepared l1 -> prepared l2 -> prepared (l1 ++ l2).
Proof. apply prepared_after_app. Qed.

Ltac prepared_tac := first [ exact prepared_nil | exact prepared_app ].

(** [FileHandler.writeFile] creates the directory of the file, and writes
    only when that has succeeded. *)
Lemma Modular_writeFile_prepared env (filePath : string) (content : Content) :
  steps (fun _ : Modular.BookManager => True) prepared
    (Modular.writeFile env filePath content).
Proof.
  intros w r w' _ H. split; [exact I|].
  unfold Modular.writeFile, Modular.createDirectory in H. unfold_monad.
  destruct (fault env (length (log w)) _); simpl in H.
  - injection H as <- <-. eexists [_]. split; reflexivity.
  - destruct (fault env _ (OpWrite _)); simpl in H; injection H as <- <-.
    + eexists [_; _]. split; [simpl; now rewrite <- app_assoc|].
      unfold prepared. simpl. now rewrite String.eqb_refl.
    + eexists [_; _]. split.
      * destruct content; simpl; now rewrite <- app_assoc.
      * unfold prepared. simpl. now rewrite String.eqb_refl.
Qed.

Create HintDb prepared.
#[export] Hint Resolve Modular_writeFile_prepared : prepared.

Ltac prepared_auto :=
  repeat first
    [ solve [auto with prepared]
    | steps_step prepared_tac ltac:(intros ? ?; exact I) ltac:(reflexivity) ].

(** X14. The modular pipeline writes every file through
    [FileHandler.writeFile]: in the log of a run of the controller, however
    it ends, every write of a file, attempted or done, comes right after
    the successful creation of the directory of that file. *)
Theorem modular_writes_are_prepared (env : Env) (theme : string)
    (chapters pagesPerChapter : nat) (callback : option ProgressCallback)
    (name : string) (dk : Disk) :
  prepared
    (log (Modular.createBookPageByPage env theme chapters pagesPerChapter
            callback (Modular.start name dk)).2).
Proof.
  assert (H : steps (fun _ : Modular.BookManager => True) prepared
                (Modular.createBookPageByPage env theme chapters
                   pagesPerChapter callback)).
  { unfold Modular.createBookPageByPage, Modular.createBookPageByPage_try,
      Modular.generate_unit, Modular.compileBook, Modular.compileJSON,
      Modular.compileDOCX, Modular.saveCoverImage, Modular.saveProgress,
      Modular.createDocxDocument, Modular.saveState,
      Modular.StateManager_saveState, Modular.loadState,
      Modular.StateManager_loadState, Modular.readFile_state,
      Modular.ensureDirectories, Modular.createDirectory.
    prepared_auto. }
  destruct (Modular.createBookPageByPage env theme chapters pagesPerChapter
              callback (Modular.start name dk)) as [r w'] eqn:E.
  destruct (H _ _ _ I E) as (_ & l & Hl & Hq). simpl in *. now rewrite Hl.
Qed.

(** *** Where a run writes *)

Lemma prefix_app_l (a b c : string) :
  String.prefix b c = true -> String.prefix (a +:+ b) (a +:+ c) = true.
Proof.
  intros H. induction a as [|x a IH]; [exact H|].
  change (match ascii_dec x x with
          | left _ => String.prefix (a +:+ b) (a +:+ c)
          | right _ => false
          end = true).
  destruct (ascii_dec x x); [exact IH | congruence].
Qed.

Ltac inside_tac :=
  unfold inside;
  first [ apply writes_are_nil | apply writes_are_app ].

Lemma Modular_run_inside env (theme : string)
    (chapters pagesPerChapter : nat) (callback : option ProgressCallback)
    (name : string) :
  steps (fun m => Modular.outputPath m = "output/books/" +:+ name /\
                  Modular.bookName m = name)
    (inside ("output/books/" +:+ name +:+ "/"))
    (Modular.createBookPageByPage env theme chapters pagesPerChapter callback).
Proof.
  unfold Modular.createBookPageByPage, Modular.createBookPageByPage_try,
    Modular.generate_unit, Modular.compileBook, Modular.compileJSON,
    Modular.compileDOCX, Modular.saveCoverImage, Modular.saveProgress,
    Modular.createDocxDocument, Modular.saveState,
    Modular.StateManager_saveState, Modular.loadState,
    Modular.StateManager_loadState, Modular.readFile_state,
    Modular.ensureDirectories, Modular.writeFile, Modular.createDirectory,
    Modular.statePath.
  repeat steps_step
    inside_tac
    ltac:(intros ? [? ?]; split; assumption)
    ltac:(repeat constructor).
  all: try (repeat constructor; fail).
  all: repeat constructor; simpl;
    repeat match goal with
           | H : _ /\ _ |- _ => destruct H
           end;
    repeat match goal with
           | H : Modular.outputPath _ = _ |- _ => rewrite H
           | H : Modular.bookName _ = _ |- _ => rewrite H
           end;
    rewrite ?string_app_assoc;
    repeat apply prefix_app_l; reflexivity.
Qed.

(** X15. Every file that a run of the modular controller for the
    book [name] writes or tries to write, the checkpoint included, lies
    under [output/books/name/]. *)
Theorem modular_run_writes_inside (env : Env) (theme : string)
    (chapters pagesPerChapter : nat) (callback : option ProgressCallback)
    (name : string) (dk : Disk) :
  inside ("output/books/" +:+ name +:+ "/")
    (log (Modular.createBookPageByPage env theme chapters pagesPerChapter
            callback (Modular.start name dk)).2).
Proof.
  destruct (Modular.createBookPageByPage env theme chapters pagesPerChapter
              callback (Modular.start name dk)) as [r w'] eqn:E.
  destruct (Modular_run_inside env theme chapters pagesPerChapter callback
              name (Modular.start name dk) _ _ (conj eq_refl eq_refl) E)
    as (_ & l & Hl & Hq).
  simpl in *. now rewrite Hl.
Qed.

(** ** Saving a page in the modular manager *)

(** X16. [saveProgress] ends in one of three ways. It completes: the
    record of the page and a checkpoint are on disk, the checkpoint being
    the snapshot of the manager with its cursor moved to the page and the
    status [in_progress], and the files written are the JSON and the DOCX
    of the page under the output directory and the checkpoint under
    [output/books/bookName/metadata], in this order. It fails before the
    DOCX of the page is written: the manager is as it was, no write of a
    checkpoint has been attempted and the checkpoint on disk is the one
    that was there. Or it fails once both files of the page are written:
    the step that failed is then the last one, the write of the
    checkpoint or the creation of its directory, and the cursor of the
    manager has moved to the page all the same. *)
Theorem saveProgress_outcome (env : Env) (content : string)
    (chapter page : nat) (w : World Modular.BookManager) :
  let r := Modular.saveProgress env content chapter page w in
  let moved :=
    Modular.set_progressState
      {| lastCompletedChapter := chapter; lastCompletedPage := page;
         status := "in_progress" |} (mgr w) in
  let dir := Modular.outputPath (mgr w) +:+ "/chapters/chapter" +:+ pretty chapter in
  let json := dir +:+ "/page" +:+ pretty page +:+ ".json" in
  let docx := dir +:+ "/page" +:+ pretty page +:+ ".docx" in
  let state :=
    "output/books/" +:+ Modular.bookName (mgr w) +:+ "/metadata/book_state.json" in
  (r.1 = Ret tt /\
   mgr r.2 = moved /\
   state_file (disk r.2) = Some (Modular.snapshot moved) /\
   (exists stamp,
      page_files (disk r.2) !! (chapter, page)
      = Some {| pd_chapter := chapter; pd_page := page;
                pd_content := content; pd_timestamp := stamp |}) /\
   written (new_events w r.2) = [json; docx; state])
  \/
  (exists e,
     r.1 = Throw e /\
     mgr r.2 = mgr w /\
     state_file (disk r.2) = state_file (disk w) /\
     writes_are (fun _ c => match c with CState _ => False | _ => True end)
       (new_events w r.2) /\
     (written (new_events w r.2) = [] \/ written (new_events w r.2) = [json]))
  \/
  (exists e,
     r.1 = Throw e /\
     mgr r.2 = moved /\
     written (new_events w r.2) = [json; docx] /\
     (last (new_events w r.2) = Some (EvOp (OpMkdir (JS.dirname state)) false) \/
      last (new_events w r.2)
      = Some (EvWrite state (CState (Modular.snapshot moved)) false))).
Proof.
  cbv zeta.
  unfold Modular.saveProgress, Modular.ensureDirectories, Modular.saveState,
    Modular.StateManager_saveState, Modular.writeFile, Modular.createDirectory,
    Modular.createDocxDocument, Modular.statePath.
  simpl. unfold_monad. simpl.
  repeat match goal with
         | |- context [fault ?e ?n ?o] => destruct (fault e n o); simpl
         end;
    unfold new_events; simpl; rewrite <- ?app_assoc, ?drop_app_length;
    first
      [ left; split; [reflexivity|]; split; [reflexivity|];
        split; [reflexivity|];
        split; [eexists; apply lookup_insert_eq | reflexivity]
      | right; left; eexists; split; [reflexivity|]; split; [reflexivity|];
        split; [reflexivity|];
        split; [repeat constructor|];
        first [left; reflexivity | right; reflexivity]
      | right; right; eexists; split; [reflexivity|]; split; [reflexivity|];
        split; [reflexivity|];
        first [left; reflexivity | right; reflexivity] ].
Qed.

(** ** Runs of the modular controller *)

Ltac unfold_modular :=
  unfold Modular.createBookPageByPage, Modular.createBookPageByPage_try,
    Modular.generate_unit, Modular.compileBook, Modular.compileJSON,
    Modular.compileDOCX, Modular.saveCoverImage, Modular.saveProgress,
    Modular.createDocxDocument, Modular.saveState,
    Modular.StateManager_saveState, Modular.loadState,
    Modular.ensureDirectories, Modular.writeFile, Modular.createDirectory.

Lemma obliging_calm : obliging Scenario.calm.
Proof.
  split; [|split].
  - intros n system user. eexists. reflexivity.
  - intros n prompt. eexists. reflexivity.
  - intros n op. reflexivity.
Defined.

Lemma silent_none : silent None.
Proof. intros f chapter page H. discriminate H. Defined.



(** X18. [testBookWriter] never rejects: whatever the service
    and the disk do, the controller comes to an end, and a failure of the
    controller, which has already been met by its own checkpoint write,
    is caught and turned into the result [undefined]. *)
Theorem testBookWriter_never_rejects (env : Env)
    (w : World Modular.BookManager) :
  returned (Modular.testBookWriter env w).1 /\
  (forall e, (Modular.createBookPageByPage env
                "Test book about a magical adventure" 2 2
                (Some (fun _ _ => None)) w).1 = Throw e ->
             (Modular.testBookWriter env w).1 = Ret None).
Proof.
  split.
  - revert w. change (ends_in returned (Modular.testBookWriter env)).
    unfold Modular.testBookWriter. apply returned_try_catch; [|intros e; ends_auto].
    apply settled_bind; [|intros result; ends_auto].
    unfold_modular.
    unfold Modular.StateManager_loadState, Modular.readFile_state.
    ends_auto.
  - intros e He. unfold Modular.testBookWriter, try_catch, bind.
    destruct (Modular.createBookPageByPage env _ 2 2 _ w) as [r w'].
    simpl in He. now subst r.
Qed.

(** ** A run that resumes from a checkpoint with a cover *)

Lemma image_prompts_app (l1 l2 : list Event) :
  image_prompts (l1 ++ l2) = (image_prompts l1 ++ image_prompts l2)%list.
Proof. apply omap_app. Qed.

Lemma quiet_prompts (l : list Event) :
  Forall quiet l -> chat_prompts l = [] /\ image_prompts l = [].
Proof.
  induction 1 as [|ev l Hev _ [IH1 IH2]]; [split; reflexivity|].
  destruct ev; simpl; auto; discriminate Hev.
Qed.

Lemma writing_quiet (o : Modular.BookManager) (chats images : list string)
    (have : nat -> nat -> Prop) (w w' : World Modular.BookManager)
    (l : list Event) :
  mgr w' = mgr w -> log w' = (log w ++ l)%list -> Forall quiet l ->
  writing o chats images have w -> writing o chats images have w'.
Proof.
  intros Hm Hl Hq (Ho & Hc & Hi & Hh).
  destruct (quiet_prompts l Hq) as [Hc0 Hi0].
  unfold writing. rewrite Hm, Hl, chat_prompts_app, image_prompts_app, Hc0, Hi0,
    !app_nil_r. auto.
Qed.

Lemma writing_have (o : Modular.BookManager) (chats images : list string)
    (have have' : nat -> nat -> Prop) (w : World Modular.BookManager) :
  (forall chapter page, have' chapter page -> have chapter page) ->
  writing o chats images have w -> writing o chats images have' w.
Proof. intros Himp (Ho & Hc & Hi & Hh). unfold writing. auto 6. Qed.

(** A loop whose turns all return, each one taking the invariant from
    the elements done so far to one more. *)
Lemma for_each_invariant {Mgr A} (Inv : list A -> World Mgr -> Prop)
    (body : A -> M Mgr unit) (xs : list A) :
  (forall done x w, Inv done w ->
     exists w', body x w = (Ret tt, w') /\ Inv (done ++ [x])%list w') ->
  forall done w, Inv done w ->
    exists w', for_each xs body w = (Ret tt, w') /\ Inv (done ++ xs)%list w'.
Proof.
  intros Hbody. induction xs as [|x r IH]; intros done w HI; simpl.
  - exists w. now rewrite app_nil_r.
  - destruct (Hbody done x w HI) as (w1 & H1 & HI1).
    destruct (IH _ _ HI1) as (w2 & H2 & HI2).
    exists w2. unfold bind. rewrite H1. split; [exact H2|].
    now rewrite <- app_assoc in HI2.
Qed.

Lemma Modular_saveProgress_runs env (content : string) (chapter page : nat)
    (w : World Modular.BookManager) :
  (forall n op, fault env n op = None) ->
  exists w' l,
    Modular.saveProgress env content chapter page w = (Ret tt, w') /\
    mgr w' = Modular.set_progressState
               {| lastCompletedChapter := chapter; lastCompletedPage := page;
                  status := "in_progress" |} (mgr w) /\
    log w' = (log w ++ l)%list /\ Forall quiet l.
Proof.
  intros Hf.
  unfold Modular.saveProgress, Modular.ensureDirectories, Modular.saveState,
    Modular.StateManager_saveState, Modular.writeFile, Modular.createDirectory,
    Modular.createDocxDocument.
  simpl. unfold_monad. simpl. repeat (rewrite !Hf; simpl).
  eexists _, _. split; [reflexivity|]. split; [reflexivity|]. simpl. split.
  - rewrite <- !app_assoc. reflexivity.
  - repeat constructor.
Qed.

Lemma Modular_saveState_runs env (w : World Modular.BookManager) :
  (forall n op, fault env n op = None) ->
  exists w' l,
    Modular.saveState env w = (Ret tt, w') /\
    mgr w' = mgr w /\
    state_file (disk w') = Some (Modular.snapshot (mgr w)) /\
    log w' = (log w ++ l)%list /\ Forall quiet l.
Proof.
  intros Hf.
  unfold Modular.saveState, Modular.StateManager_saveState, Modular.writeFile,
    Modular.createDirectory.
  unfold_monad. simpl. repeat (rewrite !Hf; simpl).
  eexists _, _. split; [reflexivity|]. split; [reflexivity|].
  split; [reflexivity|]. simpl. split.
  - rewrite <- !app_assoc. reflexivity.
  - repeat constructor.
Qed.

Lemma Modular_compileBook_runs env (w : World Modular.BookManager) :
  (forall n op, fault env n op = None) ->
  exists w' l,
    Modular.compileBook env w
    = (Ret (Modular.outputPath (mgr w) +:+ "/compiled/complete.json",
            Modular.outputPath (mgr w) +:+ "/compiled/complete.docx"), w') /\
    mgr w' = mgr w /\ disk w' = disk w /\
    log w' = (log w ++ l)%list /\ Forall quiet l.
Proof.
  intros Hf.
  unfold Modular.compileBook, Modular.compileJSON, Modular.compileDOCX,
    Modular.ensureDirectories, Modular.writeFile, Modular.createDirectory.
  simpl. unfold_monad. simpl. repeat (rewrite !Hf; simpl).
  eexists _, _. split; [reflexivity|]. split; [reflexivity|].
  split; [reflexivity|]. simpl. split.
  - rewrite <- !app_assoc. reflexivity.
  - repeat constructor.
Qed.

Lemma page_of_record_page (chapter page : nat) (text : string)
    (bc : gmap nat (gmap nat string)) (c p : nat) :
  is_Some (page_of bc c p) \/ (c = chapter /\ p = page) ->
  is_Some (page_of (record_page chapter page text bc) c p).
Proof.
  unfold page_of, record_page. intros H.
  destruct (decide (c = chapter)) as [->|Hc].
  - rewrite lookup_insert_eq. simpl.
    destruct (decide (p = page)) as [->|Hp].
    + rewrite lookup_insert_eq. eauto.
    + rewrite lookup_insert_ne by congruence.
      destruct H as [H|[_ ->]]; [|congruence].
      destruct (bc !! chapter); [exact H | destruct H as [? H]; discriminate H].
  - rewrite lookup_insert_ne by congruence.
    destruct H as [H|[-> _]]; [exact H | congruence].
Qed.

(** One unit of an uninterrupted run: one page request, for the page of
    the unit, and the page is in the content afterwards. *)
Lemma Modular_generate_unit_runs env callback (chapter page : nat)
    (m0 : Modular.BookManager) (chats images : list string)
    (have : nat -> nat -> Prop) (w : World Modular.BookManager) :
  obliging env -> silent callback ->
  writing m0 chats images have w ->
  exists w',
    Modular.generate_unit env callback chapter page w = (Ret tt, w') /\
    writing m0
      (chats ++ [Modular.page_prompt chapter page (Modular.outline m0)]) images
      (fun c p => have c p \/ (c = chapter /\ p = page)) w'.
Proof.
  intros (Hchat & _ & Hf) Hcb ((cursor & content & Hm) & Hc & Hi & Hh).
  unfold Modular.generate_unit. unfold bind at 1.
  assert (Hcall : exists w1 l,
            call_progress callback chapter page w = (Ret tt, w1) /\
            mgr w1 = mgr w /\ log w1 = (log w ++ l)%list /\ Forall quiet l).
  { destruct callback as [f|]; simpl.
    - rewrite (Hcb f chapter page eq_refl).
      eexists _, [_]. repeat split. repeat constructor.
    - exists w, []. rewrite app_nil_r. repeat split. constructor. }
  destruct Hcall as (w1 & l1 & -> & Hm1 & Hl1 & Hq1).
  destruct (quiet_prompts l1 Hq1) as [Hc1 Hi1].
  unfold bind at 1, get_mgr. unfold bind at 1, chat at 1.
  destruct (Hchat (length (log w1)) "You are a professional book writer."
              (Modular.page_prompt chapter page (Modular.outline (mgr w1))))
    as [text ->].
  unfold bind at 1.
  destruct (Modular_saveProgress_runs env text chapter page
              (emit (EvChat "You are a professional book writer."
                       (Modular.page_prompt chapter page
                          (Modular.outline (mgr w1)))) w1) Hf)
    as (w2 & l2 & -> & Hm2 & Hl2 & Hq2).
  destruct (quiet_prompts l2 Hq2) as [Hc2 Hi2].
  eexists. split; [reflexivity|]. unfold writing. simpl.
  rewrite Hm2, Hl2. simpl. rewrite Hm1, Hl1, Hm.
  rewrite !chat_prompts_app, !image_prompts_app, Hc1, Hi1, Hc2, Hi2, Hc, Hi.
  simpl. rewrite !app_nil_r.
  split; [eexists _, _; reflexivity|].
  split; [reflexivity|]. split; [reflexivity|].
  intros c p Hcp. apply page_of_record_page.
  destruct Hcp as [Hcp|Hcp]; [left|now right].
  specialize (Hh c p Hcp). now rewrite Hm in Hh.
Qed.

(** The pages of one chapter. *)
Lemma Modular_pages_run env callback (chapter : nat) (pages : list nat)
    (o : Modular.BookManager) (chats images : list string)
    (have : nat -> nat -> Prop)
    (w : World Modular.BookManager) :
  obliging env -> silent callback ->
  writing o chats images have w ->
  exists w',
    for_each pages (Modular.generate_unit env callback chapter) w
    = (Ret tt, w') /\
    writing o
      (chats ++ map (fun page => Modular.page_prompt chapter page (Modular.outline o)) pages)
      images
      (fun c p => have c p \/ (c = chapter /\ In p pages)) w'.
Proof.
  intros Henv Hcb HI.
  destruct (for_each_invariant
              (fun done w =>
                 writing o
                   (chats ++ map (fun page => Modular.page_prompt chapter page (Modular.outline o))
                                 done)
                   images
                   (fun c p => have c p \/ (c = chapter /\ In p done)) w)
              (Modular.generate_unit env callback chapter) pages)
    with (done := @nil nat) (w := w) as (w' & Hrun & HI').
  - intros done page w0 HI0.
    destruct (Modular_generate_unit_runs env callback chapter page _ _ _ _ w0
                Henv Hcb HI0) as (w1 & H1 & HI1).
    exists w1. split; [exact H1|].
    rewrite map_app, app_assoc. simpl.
    revert HI1. apply writing_have. intros c p [H|[-> Hin]]; [auto|].
    apply in_app_or in Hin as [Hin|[<-|[]]]; auto.
  - simpl. rewrite app_nil_r. revert HI. apply writing_have.
    intros c p [H|[_ []]]. exact H.
  - exists w'. split; [exact Hrun | exact HI'].
Qed.

(** The chapters of the book: the pages of each, then a checkpoint. *)
Lemma Modular_chapters_run env callback (chapters : list nat) (pages : nat)
    (o : Modular.BookManager) (chats images : list string)
    (have : nat -> nat -> Prop)
    (w : World Modular.BookManager) :
  obliging env -> silent callback ->
  writing o chats images have w ->
  exists w',
    for_each chapters
      (fun chapter =>
         run for_range 1 pages (Modular.generate_unit env callback chapter);
         Modular.saveState env) w
    = (Ret tt, w') /\
    writing o
      (chats ++ flat_map (fun chapter =>
                            map (fun page => Modular.page_prompt chapter page (Modular.outline o))
                                (seq 1 pages)) chapters)
      images
      (fun c p => have c p \/ (In c chapters /\ In p (seq 1 pages))) w' /\
    (chapters <> [] ->
     state_file (disk w') = Some (Modular.snapshot (mgr w'))) /\
    (chapters = [] -> w' = w).
Proof.
  intros Henv Hcb HI.
  destruct (for_each_invariant
              (fun done w' =>
                 writing o
                   (chats ++ flat_map
                               (fun chapter =>
                                  map (fun page =>
                                         Modular.page_prompt chapter page (Modular.outline o))
                                      (seq 1 pages)) done)
                   images
                   (fun c p => have c p \/ (In c done /\ In p (seq 1 pages)))
                   w' /\
                 (done <> [] ->
                  state_file (disk w') = Some (Modular.snapshot (mgr w'))) /\
                 (done = [] -> w' = w))
              (fun chapter =>
                 run for_range 1 pages
                       (Modular.generate_unit env callback chapter);
                 Modular.saveState env) chapters)
    with (done := @nil nat) (w := w) as (w' & Hrun & HI').
  - intros done chapter w0 (HI0 & _ & _).
    unfold for_range. replace (S pages - 1) with pages by lia.
    destruct (Modular_pages_run env callback chapter (seq 1 pages) _ _ _ _ w0
                Henv Hcb HI0) as (w1 & H1 & HI1).
    destruct (Modular_saveState_runs env w1 (proj2 (proj2 Henv)))
      as (w2 & l2 & H2 & Hm2 & Hs2 & Hl2 & Hq2).
    exists w2. unfold bind. rewrite H1. split; [exact H2|]. split; [|split].
    + rewrite flat_map_app, app_assoc. simpl. rewrite app_nil_r.
      apply (writing_quiet _ _ _ _ w1 w2 l2 Hm2 Hl2 Hq2).
      revert HI1. apply writing_have.
      intros c p [H|[Hin Hp]]; [auto|].
      apply in_app_or in Hin as [Hin|[<-|[]]]; auto.
    + intros _. now rewrite Hs2, Hm2.
    + intros H. now destruct done.
  - simpl. rewrite app_nil_r. split; [|split; [congruence | reflexivity]].
    revert HI. apply writing_have. intros c p [H|[[] _]]. exact H.
  - exists w'. simpl in HI'. destruct HI' as (H1 & H2 & H3).
    split; [exact Hrun|]. auto.
Qed.

Lemma Modular_ensureDirectories_runs env (w : World Modular.BookManager) :
  (forall n op, fault env n op = None) ->
  exists w' l,
    Modular.ensureDirectories env w = (Ret tt, w') /\
    mgr w' = mgr w /\ disk w' = disk w /\
    log w' = (log w ++ l)%list /\ Forall quiet l.
Proof.
  intros Hf.
  unfold Modular.ensureDirectories, Modular.createDirectory.
  simpl. unfold_monad. simpl. repeat (rewrite !Hf; simpl).
  eexists _, _. split; [reflexivity|]. split; [reflexivity|].
  split; [reflexivity|]. simpl. split.
  - rewrite <- !app_assoc. reflexivity.
  - repeat constructor.
Qed.

Lemma Modular_loadState_present env (w : World Modular.BookManager)
    (d : StateDoc) :
  (forall n op, fault env n op = None) ->
  state_file (disk w) = Some d ->
  exists w' l,
    Modular.loadState env w = (Ret true, w') /\
    mgr w' = Modular.restore d (mgr w) /\ disk w' = disk w /\
    log w' = (log w ++ l)%list /\ Forall quiet l.
Proof.
  intros Hf Hsome.
  unfold Modular.loadState, Modular.StateManager_loadState,
    Modular.readFile_state.
  unfold_monad. simpl. rewrite Hf, Hsome. simpl.
  eexists _, [_]. repeat split. repeat constructor.
Qed.

(** X19. A run of the modular controller that resumes from a
    checkpoint with a cover, as the call that stopped at the cover leaves
    one, when the service answers every request, no operation on files
    fails and the callback does not throw, returns the book. It makes no
    image request and no outline request: its chat requests are one for
    each page of each chapter after the cursor chapter of the checkpoint,
    chapter by chapter and page by page, each carrying the outline of the
    checkpoint. Every page asked for is in the content of the manager at
    the end, the result names the compiled files under
    [output/books/name/compiled], and if a chapter was written at all,
    the checkpoint on disk is the snapshot of the final state. *)
Theorem resumed_run_writes_the_book (env : Env) (theme : string)
    (chapters pagesPerChapter : nat) (callback : option ProgressCallback)
    (name : string) (dk : Disk) (d : StateDoc) :
  obliging env -> silent callback ->
  state_file dk = Some d ->
  JS.truthy (JS.assoc_get "coverImage" (doc_metadata d)) = true ->
  exists result w',
    Modular.createBookPageByPage env theme chapters pagesPerChapter callback
      (Modular.start name dk) = (Ret result, w') /\
    Modular.res_outline result = doc_outline d /\
    Modular.res_coverImage result
    = JS.assoc_get "coverImage" (doc_metadata d) /\
    Modular.res_outputPath result = "output/books/" +:+ name /\
    Modular.res_compiledBook result
    = (("output/books/" +:+ name) +:+ "/compiled/complete.json",
       ("output/books/" +:+ name) +:+ "/compiled/complete.docx") /\
    chat_prompts (log w')
    = book_prompts (doc_outline d)
        (lastCompletedChapter (doc_progress d) + 1) chapters pagesPerChapter /\
    image_prompts (log w') = [] /\
    (forall chapter page,
       lastCompletedChapter (doc_progress d) < chapter <= chapters ->
       1 <= page <= pagesPerChapter ->
       is_Some (page_of (Modular.bookContent (mgr w')) chapter page)) /\
    (lastCompletedChapter (doc_progress d) < chapters ->
     state_file (disk w') = Some (Modular.snapshot (mgr w'))).
Proof.
  intros Henv Hcb Hdk Hcover. pose proof Henv as (Hchat & Himg & Hf).
  unfold Modular.createBookPageByPage, try_catch,
    Modular.createBookPageByPage_try.
  (* directories *)
  destruct (Modular_ensureDirectories_runs env (Modular.start name dk) Hf)
    as ([m1 d1 g1] & l1 & H1 & Hm1 & Hd1 & Hl1 & Hq1).
  unfold bind at 1. rewrite H1. simpl in Hm1, Hd1, Hl1. subst m1 d1 g1.
  (* the checkpoint *)
  destruct (Modular_loadState_present env
              {| mgr := Modular.new_BookManager name; disk := dk; log := l1 |}
              d Hf Hdk)
    as ([m2 d2 g2] & l2 & H2 & Hm2 & Hd2 & Hl2 & Hq2).
  unfold bind at 1. rewrite H2. simpl in Hm2, Hd2, Hl2. subst m2 d2 g2.
  unfold bind at 1. unfold ret at 1.
  (* the cover is there *)
  unfold bind at 1. unfold get_mgr at 1. cbn [mgr].
  change (Modular.metadata (Modular.restore d (Modular.new_BookManager name)))
    with (doc_metadata d).
  rewrite Hcover. cbn [negb]. unfold bind at 1. unfold ret at 1.
  (* the chapters *)
  unfold bind at 1. unfold get_mgr at 1. cbv zeta. cbn [mgr].
  change (Modular.progressState
            (Modular.restore d (Modular.new_BookManager name)))
    with (doc_progress d).
  unfold for_range at 1. unfold bind at 1.
  destruct (quiet_prompts l1 Hq1) as [Hc1 Hi1].
  destruct (quiet_prompts l2 Hq2) as [Hc2 Hi2].
  match goal with
  | |- context [for_each _ _ ?w] =>
      assert (HI : writing (mgr w) [] [] (fun _ _ => False) w)
  end.
  { unfold writing. cbn [mgr log].
    rewrite !chat_prompts_app, !image_prompts_app, Hc1, Hi1, Hc2, Hi2.
    split; [eexists _, _; reflexivity|].
    repeat split. intros c p []. }
  destruct (Modular_chapters_run env callback
              (seq (lastCompletedChapter (doc_progress d) + 1)
                 (S chapters - (lastCompletedChapter (doc_progress d) + 1)))
              pagesPerChapter _ _ _ _ _ Henv Hcb HI)
    as (w4 & H4 & HI4 & Hs4 & Hsame4).
  rewrite H4.
  (* the compiled book *)
  destruct (Modular_compileBook_runs env w4 Hf)
    as (w5 & l5 & H5 & Hm5 & Hd5 & Hl5 & Hq5).
  unfold bind at 1. rewrite H5.
  unfold bind at 1. unfold get_mgr at 1. unfold ret.
  pose proof (writing_quiet _ _ _ _ w4 w5 l5 Hm5 Hl5 Hq5 HI4)
    as ((cursor & content & Hm) & Hc5 & Hi5 & Hh5).
  eexists _, w5. split; [reflexivity|].
  cbn [Modular.res_outline Modular.res_coverImage Modular.res_outputPath
       Modular.res_compiledBook].
  pose proof Hm as Hm4. rewrite Hm5 in Hm4.
  split; [now rewrite Hm|]. split; [now rewrite Hm|].
  split; [now rewrite Hm|]. split; [now rewrite Hm4|].
  split; [exact Hc5|]. split; [exact Hi5|]. split.
  - intros chapter page Hch Hpg. apply Hh5. right. split.
    + apply in_seq. lia.
    + apply in_seq. lia.
  - intros Hch. rewrite Hd5, Hm5. apply Hs4.
    replace (S chapters - (lastCompletedChapter (doc_progress d) + 1))
      with (S (chapters - (lastCompletedChapter (doc_progress d) + 1)))
      by lia.
    simpl. discriminate.
Qed.

Lemma resumed_run_writes_the_book_witness :
  exists result w',
    Modular.createBookPageByPage Scenario.calm "a lighthouse keeper" 2 3 None
      (Modular.start "book" Scenario.disk_with_cover) = (Ret result, w') /\
    Modular.res_outline result = doc_outline Scenario.with_cover /\
    Modular.res_coverImage result
    = JS.assoc_get "coverImage" (doc_metadata Scenario.with_cover) /\
    Modular.res_outputPath result = "output/books/" +:+ "book" /\
    Modular.res_compiledBook result
    = (("output/books/" +:+ "book") +:+ "/compiled/complete.json",
       ("output/books/" +:+ "book") +:+ "/compiled/complete.docx") /\
    chat_prompts (log w')
    = book_prompts (doc_outline Scenario.with_cover)
        (lastCompletedChapter (doc_progress Scenario.with_cover) + 1) 2 3 /\
    image_prompts (log w') = [] /\
    (forall chapter page,
       lastCompletedChapter (doc_progress Scenario.with_cover) < chapter <= 2 ->
       1 <= page <= 3 ->
       is_Some (page_of (Modular.bookContent (mgr w')) chapter page)) /\
    (lastCompletedChapter (doc_progress Scenario.with_cover) < 2 ->
     state_file (disk w') = Some (Modular.snapshot (mgr w'))).
Proof.
  apply (resumed_run_writes_the_book Scenario.calm "a lighthouse keeper" 2 3
           None "book" Scenario.disk_with_cover Scenario.with_cover
           obliging_calm silent_none eq_refl eq_refl).
Defined.

(** ** Templates *)

(** X20. The scripts that start a book from the Drake template
    build the template twice: [createDrakeLegacy] calls
    [createDrakeConfig] on its options and hands the template it gets to
    the loader as the configuration, and the loader calls
    [createDrakeConfig] on it again. A template has none of the keys that
    [createDrakeConfig] reads, so the second call falls back to every
    default: whatever the options, the controller is asked for 12 chapters
    of 5 pages with the template merged over five defaults, and for 25
    chapters of 7 pages with the template of four overridable fields. *)
Theorem createDrakeLegacy_ignores_options
    (inherited : string -> list (string * JS.value) -> error + JS.value)
    (options : list (string * JS.value)) :
  (exists synopsis,
     TemplateLoader.createDrakeLegacy DrakeConfig.createDrakeConfig inherited
       options
     = inr {| TemplateLoader.call_theme := JS.VStr synopsis;
              TemplateLoader.call_chapters := JS.VNum 12;
              TemplateLoader.call_pagesPerChapter := JS.VNum 5;
              TemplateLoader.call_bookName := JS.VStr "drake_legacy" |}) /\
  (exists synopsis,
     TemplateLoader.createDrakeLegacy DrakeDefaults.createDrakeConfig inherited
       options
     = inr {| TemplateLoader.call_theme := JS.VStr synopsis;
              TemplateLoader.call_chapters := JS.VNum 25;
              TemplateLoader.call_pagesPerChapter := JS.VNum 7;
              TemplateLoader.call_bookName := JS.VStr "drake_legacy" |}).
Proof.
  split; eexists; reflexivity.
Qed.

(** X21. The script that passes the loaded template where the
    controller expects the name of the book makes the manager work in
    [output/books/[object Object]], with either template and whatever the
    options: the name of the book is the text of an object. *)
Theorem createDrakeLegacy_book_directory
    (inherited : string -> list (string * JS.value) -> error + JS.value)
    (options : list (string * JS.value)) :
  (exists call,
     TemplateLoader.createDrakeLegacy' DrakeConfig.createDrakeConfig inherited
       options = inr call /\
     Modular.outputPath
       (Modular.new_BookManager (JS.to_string (TemplateLoader.call_bookName call)))
     = "output/books/[object Object]") /\
  (exists call,
     TemplateLoader.createDrakeLegacy' DrakeDefaults.createDrakeConfig inherited
       options = inr call /\
     Modular.outputPath
       (Modular.new_BookManager (JS.to_string (TemplateLoader.call_bookName call)))
     = "output/books/[object Object]").
Proof.
  split; eexists; split; reflexivity.
Qed.

(** ** Paragraphs *)

Lemma split_go_skip (sep t s : string) :
  JS.split_go sep (String.length t) (t +:+ s) = JS.split_go sep 0 s.
Proof.
  induction t as [|c t IH]; [reflexivity|]. exact IH.
Qed.

Lemma split_go_nonempty (sep : string) (k : nat) (s : string) :
  JS.split_go sep k s <> [].
Proof.
  revert k. induction s as [|c r IH]; intros k; [easy|].
  destruct k as [|k]; cbn [JS.split_go]; [|apply IH].
  destruct (String.prefix sep (String c r)); [easy|].
  destruct (JS.split_go sep 0 r); easy.
Qed.

Lemma prefix_split (a s : string) :
  String.prefix a s = true -> exists r, s = a +:+ r.
Proof.
  revert s. induction a as [|x a IH]; intros s H; [now exists s|].
  destruct s as [|y s]; [discriminate|]. simpl in H.
  destruct (ascii_dec x y) as [->|]; [|discriminate].
  destruct (IH s H) as [r ->]. now exists r.
Qed.

Lemma string_length_app (a b : string) :
  String.length (a +:+ b) = String.length a + String.length b.
Proof. induction a as [|x a IH]; [reflexivity|]. simpl. now rewrite IH. Qed.

Lemma join_cons_head (sep : string) (c : ascii) (piece : string)
    (pieces : list string) :
  JS.join sep (String c piece :: pieces) = String c (JS.join sep (piece :: pieces)).
Proof. destruct pieces; reflexivity. Qed.

(** [s.split(sep).join(sep)] is [s]. *)
Lemma join_split_go (sep s : string) :
  sep <> EmptyString -> JS.join sep (JS.split_go sep 0 s) = s.
Proof.
  intros Hsep.
  remember (String.length s) as n eqn:Hn.
  revert s Hn. induction n as [n IH] using lt_wf_ind. intros s Hn.
  destruct s as [|c r]; [reflexivity|].
  cbn [JS.split_go].
  destruct (String.prefix sep (String c r)) eqn:Hp.
  - destruct (prefix_split _ _ Hp) as [rest Hrest].
    destruct sep as [|x sep']; [congruence|].
    injection Hrest as Hc Hr. subst x r.
    replace (String.length (String c sep') - 1) with (String.length sep')
      by (simpl; lia).
    rewrite split_go_skip.
    pose proof (split_go_nonempty (String c sep') 0 rest) as Hne.
    assert (Hrec : JS.join (String c sep') (JS.split_go (String c sep') 0 rest)
                   = rest).
    { apply (IH (String.length rest)); [|reflexivity].
      subst n. simpl. rewrite string_length_app. lia. }
    destruct (JS.split_go (String c sep') 0 rest) as [|p ps]; [congruence|].
    change (JS.join (String c sep') (EmptyString :: p :: ps))
      with (String c sep' +:+ JS.join (String c sep') (p :: ps)).
    rewrite Hrec. reflexivity.
  - pose proof (split_go_nonempty sep 0 r) as Hne.
    assert (Hrec : JS.join sep (JS.split_go sep 0 r) = r).
    { apply (IH (String.length r)); [subst n; simpl; lia | reflexivity]. }
    destruct (JS.split_go sep 0 r) as [|p ps]; [congruence|].
    rewrite join_cons_head, Hrec. reflexivity.
Qed.

(** X22. [formatContentWithStyles] keeps the text: it makes one
    paragraph of each block between blank lines, and unless a block is a
    scene break, which is replaced by [* * *], the texts of the paragraphs
    joined by blank lines are the content, whatever the styles given. *)
Theorem formatContentWithStyles_keeps_text (content : string)
    (chapter page : nat) :
  Forall (fun block => Legacy.isSceneBreak block = false)
         (Legacy.blocks content) ->
  length (Legacy.formatContentWithStyles content chapter page)
  = length (Legacy.blocks content) /\
  JS.join (JS.newline +:+ JS.newline)
    (map Legacy.para_text
       (Legacy.formatContentWithStyles content chapter page))
  = content.
Proof.
  intros Hplain. unfold Legacy.formatContentWithStyles.
  split; [apply length_map|].
  rewrite <- (join_split_go (JS.newline +:+ JS.newline) content) at 2
    by discriminate.
  fold (Legacy.blocks content). f_equal.
  induction Hplain as [|block rest Hb _ IH]; [reflexivity|].
  cbn [map]. rewrite IH, Hb. now destruct (Legacy.isDialogue block).
Qed.

Lemma formatContentWithStyles_keeps_text_witness :
  let content :=
    JS.dq +:+ "Who is there?" +:+ JS.dq +:+ JS.newline +:+ JS.newline
    +:+ "Nobody answered." in
  length (Legacy.formatContentWithStyles content 1 1) = 2 /\
  JS.join (JS.newline +:+ JS.newline)
    (map Legacy.para_text (Legacy.formatContentWithStyles content 1 1))
  = content.
Proof.
  apply (formatContentWithStyles_keeps_text
           (JS.dq +:+ "Who is there?" +:+ JS.dq +:+ JS.newline +:+ JS.newline
            +:+ "Nobody answered.") 1 1).
  repeat constructor.
Defined.

(** ** The manager of the unit tests *)

(** X23. The unit tests point the manager at the test directory by
    assigning [outputPath] after the manager is built, but the path of the
    checkpoint was fixed from the name of the book when the manager was
    built. So the call of [saveProgress] that the tests make, when no
    operation on files fails, writes the page as JSON and as DOCX under
    [tests/output], the directory of the test mode, and the checkpoint
    outside it, under [output/books]. *)
Theorem unit_test_checkpoint_escapes (env : Env) (content : string)
    (chapter page : nat) (w : World Modular.BookManager) :
  mgr w = TestMode.beforeEach ->
  (forall n op, fault env n op = None) ->
  exists w' l,
    Modular.saveProgress env content chapter page w = (Ret tt, w') /\
    log w' = (log w ++ l)%list /\
    written l
    = ["tests/output/books/test_book/chapters/chapter" +:+ pretty chapter
       +:+ "/page" +:+ pretty page +:+ ".json";
       "tests/output/books/test_book/chapters/chapter" +:+ pretty chapter
       +:+ "/page" +:+ pretty page +:+ ".docx";
       "output/books/test_book/metadata/book_state.json"] /\
    filter (fun path => negb (String.prefix TestMode.outputPath path))
           (written l)
    = ["output/books/test_book/metadata/book_state.json"].
Proof.
  intros Hm Hf. destruct w as [m d g]. simpl in Hm. subst m.
  unfold Modular.saveProgress, Modular.saveState, Modular.StateManager_saveState,
    Modular.ensureDirectories, Modular.writeFile, Modular.createDirectory,
    Modular.createDocxDocument, Modular.statePath.
  repeat (unfold_monad; simpl; rewrite ?Hf).
  eexists _, _. split; [reflexivity|]. split.
  - simpl. rewrite <- !app_assoc. reflexivity.
  - split; reflexivity.
Qed.

Lemma unit_test_checkpoint_escapes_witness :
  exists w' l,
    Modular.saveProgress Scenario.calm "Test content" 1 1
      {| mgr := TestMode.beforeEach; disk := empty_disk; log := [] |}
    = (Ret tt, w') /\
    log w' = ([] ++ l)%list /\
    written l
    = ["tests/output/books/test_book/chapters/chapter" +:+ pretty 1
       +:+ "/page" +:+ pretty 1 +:+ ".json";
       "tests/output/books/test_book/chapters/chapter" +:+ pretty 1
       +:+ "/page" +:+ pretty 1 +:+ ".docx";
       "output/books/test_book/metadata/book_state.json"] /\
    filter (fun path => negb (String.prefix TestMode.outputPath path))
           (written l)
    = ["output/books/test_book/metadata/book_state.json"].
Proof.
  apply (unit_test_checkpoint_escapes Scenario.calm "Test content" 1 1
           {| mgr := TestMode.beforeEach; disk := empty_disk; log := [] |});
    reflexivity.
Defined.

(** ** One page at a time *)

(** What one call of [generateBookContent] that returns has done: the
    manager is as it was, the record of the page that the manager is on
    holds the content returned, and no other record has changed. *)
Lemma Legacy_generateBookContent_run (env : Env) (userPrompt : string)
    (w w' : World Legacy.BookManager) (content : string) :
  Legacy.generateBookContent env userPrompt w = (Ret content, w') ->
  mgr w' = mgr w /\
  state_file (disk w') = state_file (disk w) /\
  (exists stamp,
     page_files (disk w')
     !! (Legacy.currentChapter (mgr w), Legacy.currentPage (mgr w))
     = Some {| pd_chapter := Legacy.currentChapter (mgr w);
               pd_page := Legacy.currentPage (mgr w);
               pd_content := content;
               pd_timestamp := stamp |}) /\
  (forall key,
     key <> (Legacy.currentChapter (mgr w), Legacy.currentPage (mgr w)) ->
     page_files (disk w') !! key = page_files (disk w) !! key).
Proof.
  unfold Legacy.generateBookContent, Legacy.saveProgress, Legacy.saveAsDocx.
  unfold_monad.
  destruct (chat_reply env _ _ _) as [e|reply]; simpl; [discriminate|].
  repeat match goal with
         | |- context [fault ?e ?n ?o] => destruct (fault e n o); simpl
         end;
    intros H; try discriminate H.
  injection H as <- <-. simpl.
  split; [reflexivity|]. split; [reflexivity|]. split.
  - eexists. apply lookup_insert_eq.
  - intros key Hkey. apply lookup_insert_ne. congruence.
Qed.

(** X24. [generateBookContent] saves what it generates as the page
    that the manager is on, and leaves the manager where it is. So a
    second call writes over the page of the first: once both have
    returned, the record of that page holds the second content, every
    other record on disk is as it was before the first call, and the
    manager has not moved. *)
Theorem generateBookContent_overwrites (env : Env) (first second : string)
    (w : World Legacy.BookManager) (content1 content2 : string) :
  let run1 := Legacy.generateBookContent env first w in
  let run2 := Legacy.generateBookContent env second run1.2 in
  let here := (Legacy.currentChapter (mgr w), Legacy.currentPage (mgr w)) in
  run1.1 = Ret content1 ->
  run2.1 = Ret content2 ->
  mgr run2.2 = mgr w /\
  (exists stamp,
     page_files (disk run2.2) !! here
     = Some {| pd_chapter := here.1; pd_page := here.2;
               pd_content := content2; pd_timestamp := stamp |}) /\
  (forall key, key <> here ->
     page_files (disk run2.2) !! key = page_files (disk w) !! key).
Proof.
  cbv zeta.
  destruct (Legacy.generateBookContent env first w) as [r1 w1] eqn:H1.
  cbn [fst snd].
  destruct (Legacy.generateBookContent env second w1) as [r2 w2] eqn:H2.
  simpl. intros -> ->.
  destruct (Legacy_generateBookContent_run _ _ _ _ _ H1)
    as (Hm1 & _ & _ & Hrest1).
  destruct (Legacy_generateBookContent_run _ _ _ _ _ H2)
    as (Hm2 & _ & Hpage2 & Hrest2).
  rewrite Hm1 in *. split; [congruence|]. split; [exact Hpage2|].
  intros key Hkey. rewrite Hrest2, Hrest1 by exact Hkey. reflexivity.
Qed.

Lemma generateBookContent_overwrites_witness :
  let w := Legacy.start Scenario.calm empty_disk in
  let run1 := Legacy.generateBookContent Scenario.calm "Begin the story." w in
  let run2 := Legacy.generateBookContent Scenario.calm "Go on." run1.2 in
  mgr run2.2 = mgr w /\
  (exists stamp,
     page_files (disk run2.2) !! (1, 1)
     = Some {| pd_chapter := 1; pd_page := 1;
               pd_content := "reply-4"; pd_timestamp := stamp |}) /\
  (forall key, key <> (1, 1) ->
     page_files (disk run2.2) !! key = page_files (disk w) !! key).
Proof.
  apply (generateBookContent_overwrites Scenario.calm "Begin the story."
           "Go on." (Legacy.start Scenario.calm empty_disk)
           "reply-0" "reply-4"); reflexivity.
Defined.
